(** * AutoERGen: the two Streamlit applications, embedded and verified

    [autoergen.py] asks the model for a JSON description of entities and
    relationships and derives a Graphviz diagram and SQL text from it;
    [app.py] asks the model for DOT text directly, keeps users and projects
    in PostgreSQL and logs every generation.

    The embedding follows the Python sources function by function.  Python
    values are an inductive type, exceptions are an error type, Streamlit
    calls and calls to the model are events appended to a trace, and the
    services outside the repository (the model, the JSON decoder, the
    Graphviz engine, the database server's faults, [hashlib]) are section
    variables. *)

From Stdlib Require Import List NArith ZArith Lia Bool String Ascii.
Import ListNotations.


(* ================================================================== *)
(** * Python strings *)
(* ================================================================== *)

(** A Python 3 [str] is a sequence of Unicode code points. *)
Definition str : Type := list N.

(** An ASCII literal of the source as a [str]. *)
Definition lit (s : string) : str :=
  List.map N_of_ascii (list_ascii_of_string s).

Module Str.

Local Open Scope N_scope.

Definition eqb (a b : str) : bool :=
  if list_eq_dec N.eq_dec a b then true else false.

(** [s.startswith(p)] *)
Fixpoint startswith (s p : str) {struct p} : bool :=
  match p with
  | [] => true
  | c :: p' =>
      match s with
      | [] => false
      | d :: s' => N.eqb c d && startswith s' p'
      end
  end.

(** [p in s] *)
Fixpoint contains (s p : str) : bool :=
  startswith s p ||
  match s with
  | [] => false
  | _ :: s' => contains s' p
  end.

(** [s.partition(sep)] for a non-empty [sep]: the text before the first
    occurrence and the text after it, or [None] when there is none. *)
Fixpoint partition (sep s : str) : option (str * str) :=
  if startswith s sep then Some ([], skipn (List.length sep) s)
  else
    match s with
    | [] => None
    | c :: s' =>
        match partition sep s' with
        | Some (a, b) => Some (c :: a, b)
        | None => None
        end
    end.

(** [s.split(sep)] for a non-empty [sep]: cut at every occurrence, scanning
    from the left; occurrences do not overlap.  The recursion is on the
    number of cuts still possible, at most [length s]. *)
Fixpoint split_upto (n : nat) (sep s : str) : list str :=
  match partition sep s with
  | None => [s]
  | Some (a, b) =>
      match n with
      | O => [a; b]
      | S n' => a :: split_upto n' sep b
      end
  end.

Definition split (sep s : str) : list str := split_upto (List.length s) sep s.

(** [sep.join(parts)] *)
Fixpoint join (sep : str) (parts : list str) : str :=
  match parts with
  | [] => []
  | [p] => p
  | p :: rest => p ++ sep ++ join sep rest
  end.

(** [s.replace(old, new)] for a non-empty [old]: every occurrence found by
    the left-to-right scan is replaced. *)
Fixpoint replace_upto (n : nat) (old new s : str) : str :=
  match partition old s with
  | None => s
  | Some (a, b) =>
      match n with
      | O => a ++ new ++ b
      | S n' => a ++ new ++ replace_upto n' old new b
      end
  end.

Definition replace (old new s : str) : str :=
  replace_upto (List.length s) old new s.

(** [c.isspace()]: the code points [str.strip()] removes. *)
Definition isspace (c : N) : bool :=
  ((9 <=? c) && (c <=? 13)) || ((28 <=? c) && (c <=? 32))
  || (c =? 133) || (c =? 160) || (c =? 5760)
  || ((8192 <=? c) && (c <=? 8202))
  || (c =? 8232) || (c =? 8233) || (c =? 8239) || (c =? 8287)
  || (c =? 12288).

Fixpoint lstrip (s : str) : str :=
  match s with
  | [] => []
  | c :: s' => if isspace c then lstrip s' else s
  end.

Definition rstrip (s : str) : str := rev (lstrip (rev s)).

(** [s.strip()] *)
Definition strip (s : str) : str := rstrip (lstrip s).

(** Truth value of a [str]: non-empty. *)
Definition truthy (s : str) : bool :=
  match s with [] => false | _ => true end.

(** [str.lower()] on the ASCII range. *)
Definition lower_ascii_char (c : N) : N :=
  if (65 <=? c) && (c <=? 90) then c + 32 else c.

Definition is_ascii (s : str) : bool := forallb (fun c => c <? 128) s.

End Str.

(* ================================================================== *)
(** * Python values, exceptions and effects *)
(* ================================================================== *)

(** A Python [float], as its IEEE 754 binary64 bit pattern. *)
Definition float : Type := Z.

(** The values the JSON decoder builds, which are also the values the
    functions of [autoergen.py] receive.  A [dict] keeps its keys in
    insertion order. *)
#[warnings="-register-all"] Inductive pyval : Type :=
| PNone
| PBool (b : bool)
| PInt (z : Z)
| PFloat (bits : float)
| PStr (s : str)
| PList (l : list pyval)
| PDict (d : list (str * pyval)).

(** The exceptions that occur; every one of them is an [Exception], so an
    [except Exception] clause catches each. *)
Inductive exn : Type :=
| KeyError (key : str)
| TypeError
| AttributeError
| IndexError
| JSONDecodeError
| PyException (msg : str)      (* [raise Exception(msg)] *)
| ExternalError (msg : str).   (* raised inside a service of another package *)

Inductive result (A : Type) : Type :=
| Ok (a : A)
| Err (e : exn).
Arguments Ok {A} a.
Arguments Err {A} e.

Module Dict.

Fixpoint get (d : list (str * pyval)) (k : str) : option pyval :=
  match d with
  | [] => None
  | (k', v) :: d' => if Str.eqb k' k then Some v else get d' k
  end.

(** [d[k] = v]: an existing key keeps its place. *)
Fixpoint set (d : list (str * pyval)) (k : str) (v : pyval)
  : list (str * pyval) :=
  match d with
  | [] => [(k, v)]
  | (k', v') :: d' =>
      if Str.eqb k' k then (k', v) :: d' else (k', v') :: set d' k v
  end.

End Dict.

Module Py.

(** [v.get(key, default)]: only a [dict] has [get]. *)
Definition get (v : pyval) (key : str) (default : pyval) : result pyval :=
  match v with
  | PDict d =>
      Ok (match Dict.get d key with Some x => x | None => default end)
  | _ => Err AttributeError
  end.

(** [v[key]] for a [str] key. *)
Definition getitem (v : pyval) (key : str) : result pyval :=
  match v with
  | PDict d =>
      match Dict.get d key with
      | Some x => Ok x
      | None => Err (KeyError key)
      end
  | _ => Err TypeError
  end.

(** The items a [for] loop over [v] visits. *)
Definition iter (v : pyval) : result (list pyval) :=
  match v with
  | PList l => Ok l
  | PStr s => Ok (List.map (fun c => PStr [c]) s)
  | PDict d => Ok (List.map (fun kv => PStr (fst kv)) d)
  | _ => Err TypeError
  end.

(** Truth value, as [if v:] tests it. *)
Definition truthy (v : pyval) : bool :=
  match v with
  | PNone => false
  | PBool b => b
  | PInt z => negb (Z.eqb z 0)
  | PFloat bits => negb (Z.eqb (Z.land bits (Z.ones 63)) 0)
  | PStr s => Str.truthy s
  | PList l => match l with [] => false | _ => true end
  | PDict d => match d with [] => false | _ => true end
  end.

End Py.

(** ** State and exceptions

    A computation reads and updates a state of type [S] and either returns
    or raises; what it did to the state before raising stays done. *)
Definition M (S A : Type) : Type := S -> result A * S.

Definition ret {S A} (a : A) : M S A := fun s => (Ok a, s).

Definition raise {S A} (e : exn) : M S A := fun s => (Err e, s).

Definition bind {S A B} (m : M S A) (f : A -> M S B) : M S B :=
  fun s =>
    match m s with
    | (Ok a, s') => f a s'
    | (Err e, s') => (Err e, s')
    end.

(** [try: m  except Exception as e: h e] *)
Definition try_except {S A} (m : M S A) (h : exn -> M S A) : M S A :=
  fun s =>
    match m s with
    | (Ok a, s') => (Ok a, s')
    | (Err e, s') => h e s'
    end.

(** [try: m  finally: f] *)
Definition try_finally {S A} (m : M S A) (f : M S unit) : M S A :=
  fun s =>
    match m s with
    | (r, s') =>
        match f s' with
        | (Ok _, s'') => (r, s'')
        | (Err e, s'') => (Err e, s'')
        end
    end.

Definition lift {S A} (r : result A) : M S A := fun s => (r, s).

Definition gets {S A} (f : S -> A) : M S A := fun s => (Ok (f s), s).

Definition modify {S} (f : S -> S) : M S unit := fun s => (Ok tt, f s).

Declare Scope monad_scope.
Delimit Scope monad_scope with monad.
Notation "x <- m ;; k" := (bind m (fun x => k))
  (at level 61, m at next level, right associativity) : monad_scope.
Notation "m ;;; k" := (bind m (fun _ => k))
  (at level 61, right associativity) : monad_scope.

(* ================================================================== *)
(** * A JSON decoder

    [json.loads] belongs to the Python standard library; the program below
    takes the decoder as a parameter.  This module is a decoder for the
    grammar [json.loads] accepts on a [str] (RFC 8259 plus [NaN],
    [Infinity] and [-Infinity]), used to run the program on concrete
    documents.  The interpreter's resource limits (recursion depth, digits
    of an integer literal) are not part of it. *)
(* ================================================================== *)

Module Json.

Local Open Scope N_scope.

Definition ch (a : ascii) : N := N_of_ascii a.

Definition is_ws (c : N) : bool :=
  (c =? 32) || (c =? 9) || (c =? 10) || (c =? 13).

Fixpoint skip_ws (s : str) : str :=
  match s with
  | c :: s' => if is_ws c then skip_ws s' else s
  | [] => []
  end.

Definition is_digit (c : N) : bool := (48 <=? c) && (c <=? 57).

Fixpoint span_digits (s : str) : str * str :=
  match s with
  | c :: s' =>
      if is_digit c then let (d, r) := span_digits s' in (c :: d, r)
      else ([], s)
  | [] => ([], [])
  end.

Definition digits_value (ds : str) : N :=
  fold_left (fun acc d => acc * 10 + (d - 48)) ds 0.

Definition hex_value (c : N) : option N :=
  if is_digit c then Some (c - 48)
  else if (97 <=? c) && (c <=? 102) then Some (c - 87)
  else if (65 <=? c) && (c <=? 70) then Some (c - 55)
  else None.

(** The four hexadecimal digits of a [\uXXXX] escape. *)
Definition hex4 (s : str) : option (N * str) :=
  match s with
  | a :: b :: c :: d :: rest =>
      match hex_value a, hex_value b, hex_value c, hex_value d with
      | Some x, Some y, Some z, Some w =>
          Some (((x * 16 + y) * 16 + z) * 16 + w, rest)
      | _, _, _, _ => None
      end
  | _ => None
  end.

Definition simple_escape (c : N) : option N :=
  if c =? 34 then Some 34          (* quote *)
  else if c =? 92 then Some 92     (* backslash *)
  else if c =? 47 then Some 47     (* slash *)
  else if c =? 98 then Some 8      (* b: backspace *)
  else if c =? 102 then Some 12    (* f: form feed *)
  else if c =? 110 then Some 10    (* n: line feed *)
  else if c =? 114 then Some 13    (* r: carriage return *)
  else if c =? 116 then Some 9     (* t: tab *)
  else None.

(** The body of a string literal, after its opening quote (strict mode:
    a control character is an error). *)
Fixpoint string_body (n : nat) (s acc : str) : result (str * str) :=
  match n with
  | O => Err JSONDecodeError
  | S n' =>
      match s with
      | [] => Err JSONDecodeError
      | c :: rest =>
          if c =? 34 then Ok (rev acc, rest)
          else if c <? 32 then Err JSONDecodeError
          else if c =? 92 then
            match rest with
            | [] => Err JSONDecodeError
            | e :: rest' =>
                if e =? 117 then
                  match hex4 rest' with
                  | None => Err JSONDecodeError
                  | Some (u, r1) =>
                      if (55296 <=? u) && (u <=? 56319) then
                        match r1 with
                        | 92 :: 117 :: r2 =>
                            match hex4 r2 with
                            | None => Err JSONDecodeError
                            | Some (u2, r3) =>
                                if (56320 <=? u2) && (u2 <=? 57343) then
                                  string_body n' r3
                                    (65536 + (u - 55296) * 1024
                                     + (u2 - 56320) :: acc)
                                else string_body n' r1 (u :: acc)
                            end
                        | _ => string_body n' r1 (u :: acc)
                        end
                      else string_body n' r1 (u :: acc)
                  end
                else
                  match simple_escape e with
                  | Some x => string_body n' rest' (x :: acc)
                  | None => Err JSONDecodeError
                  end
            end
          else string_body n' rest (c :: acc)
      end
  end.

Definition string_lit (s : str) : result (str * str) :=
  string_body (List.length s) s [].

(** ** Numbers *)

(** The binary64 nearest to [m * 10 ^ e10] (ties to even), as its bit
    pattern, with the sign bit set when [neg]. *)
Definition float_of_decimal (neg : bool) (m : Z) (e10 : Z) : float :=
  let sign := if neg then Z.shiftl 1 63 else 0%Z in
  (if m =? 0 then sign
   else
     let num := if 0 <=? e10 then m * 10 ^ e10 else m in
     let den := if 0 <=? e10 then 1 else 10 ^ (- e10) in
     let l := Z.log2 num - Z.log2 den in
     let above :=
       if 0 <=? l then den * 2 ^ l <=? num else den <=? num * 2 ^ (- l) in
     let fl := if above then l else l - 1 in
     let k := Z.max (fl - 52) (-1074) in
     let n' := if 0 <=? k then num else num * 2 ^ (- k) in
     let d' := if 0 <=? k then den * 2 ^ k else den in
     let q0 := n' / d' in
     let r := n' mod d' in
     let up := (d' <? 2 * r) || ((d' =? 2 * r) && Z.odd q0) in
     let q1 := if up then q0 + 1 else q0 in
     let carry := q1 =? 2 ^ 53 in
     let q := if carry then 2 ^ 52 else q1 in
     let k' := if carry then k + 1 else k in
     if q <? 2 ^ 52 then sign + q
     else
       let e := k' + 1075 in
       if 2047 <=? e then sign + Z.shiftl 2047 52
       else sign + Z.shiftl e 52 + (q - 2 ^ 52))%Z.

Definition nan_bits : float := (Z.shiftl 4095 51)%Z.   (* 0x7FF8000000000000 *)
Definition inf_bits : float := (Z.shiftl 2047 52)%Z.   (* 0x7FF0000000000000 *)

(** A number at the head of [s]: an optional minus sign, then a zero or a
    non-zero digit with further digits, then optionally a dot with digits
    and optionally an exponent ([e] or [E], a sign, digits).  The longest
    match is taken; [None] when there is none. *)
Definition number (s : str) : option (pyval * str) :=
  let (neg, s0) :=
    match s with
    | 45 :: s' => (true, s')
    | _ => (false, s)
    end in
  let int_part :=
    match s0 with
    | 48 :: s' => Some ([48], s')
    | c :: _ =>
        if is_digit c then Some (span_digits s0) else None
    | [] => None
    end in
  match int_part with
  | None => None
  | Some (ip, s1) =>
      let frac :=
        match s1 with
        | 46 :: s' =>
            match span_digits s' with
            | ([], _) => None
            | (fd, r) => Some (fd, r)
            end
        | _ => None
        end in
      let s2 := match frac with Some (_, r) => r | None => s1 end in
      let exp :=
        match s2 with
        | c :: s' =>
            if (c =? 101) || (c =? 69) then
              let (eneg, s'') :=
                match s' with
                | 45 :: t => (true, t)
                | 43 :: t => (false, t)
                | _ => (false, s')
                end in
              match span_digits s'' with
              | ([], _) => None
              | (ed, r) => Some (eneg, ed, r)
              end
            else None
        | [] => None
        end in
      let s3 := match exp with Some (_, _, r) => r | None => s2 end in
      match frac, exp with
      | None, None =>
          let z := Z.of_N (digits_value ip) in
          Some (PInt (if neg then (- z)%Z else z), s3)
      | _, _ =>
          let fd := match frac with Some (d, _) => d | None => [] end in
          let e :=
            match exp with
            | Some (eneg, ed, _) =>
                let z := Z.of_N (digits_value ed) in
                if eneg then (- z)%Z else z
            | None => 0%Z
            end in
          Some (PFloat (float_of_decimal neg
                          (Z.of_N (digits_value (ip ++ fd)))
                          (e - Z.of_nat (List.length fd))), s3)
      end
  end.

(** ** Values *)

Fixpoint value (n : nat) (s : str) : result (pyval * str) :=
  match n with
  | O => Err JSONDecodeError
  | S n' =>
      match s with
      | [] => Err JSONDecodeError
      | c :: rest =>
          if c =? 34 then
            match string_lit rest with
            | Ok (t, r) => Ok (PStr t, r)
            | Err e => Err e
            end
          else if c =? 123 then                        (* { *)
            match skip_ws rest with
            | 125 :: r => Ok (PDict [], r)
            | s1 => members n' s1 []
            end
          else if c =? 91 then                         (* [ *)
            match skip_ws rest with
            | 93 :: r => Ok (PList [], r)
            | s1 => elements n' s1 []
            end
          else if Str.startswith s (lit "null") then
            Ok (PNone, skipn 4 s)
          else if Str.startswith s (lit "true") then
            Ok (PBool true, skipn 4 s)
          else if Str.startswith s (lit "false") then
            Ok (PBool false, skipn 5 s)
          else
            match number s with
            | Some r => Ok r
            | None =>
                if Str.startswith s (lit "NaN") then
                  Ok (PFloat nan_bits, skipn 3 s)
                else if Str.startswith s (lit "Infinity") then
                  Ok (PFloat inf_bits, skipn 8 s)
                else if Str.startswith s (lit "-Infinity") then
                  Ok (PFloat (Z.shiftl 1 63 + inf_bits)%Z, skipn 9 s)
                else Err JSONDecodeError
            end
      end
  end

with elements (n : nat) (s : str) (acc : list pyval)
  : result (pyval * str) :=
  match n with
  | O => Err JSONDecodeError
  | S n' =>
      match value n' s with
      | Err e => Err e
      | Ok (v, s1) =>
          match skip_ws s1 with
          | 93 :: r => Ok (PList (rev (v :: acc)), r)
          | 44 :: r => elements n' (skip_ws r) (v :: acc)
          | _ => Err JSONDecodeError
          end
      end
  end

with members (n : nat) (s : str) (acc : list (str * pyval))
  : result (pyval * str) :=
  match n with
  | O => Err JSONDecodeError
  | S n' =>
      match s with
      | 34 :: s0 =>
          match string_lit s0 with
          | Err e => Err e
          | Ok (key, s1) =>
              match skip_ws s1 with
              | 58 :: s2 =>
                  match value n' (skip_ws s2) with
                  | Err e => Err e
                  | Ok (v, s3) =>
                      let acc' := Dict.set acc key v in
                      match skip_ws s3 with
                      | 125 :: r => Ok (PDict acc', r)
                      | 44 :: r => members n' (skip_ws r) acc'
                      | _ => Err JSONDecodeError
                      end
                  end
              | _ => Err JSONDecodeError
              end
          end
      | _ => Err JSONDecodeError
      end
  end.

(** [json.loads(s)] *)
Definition loads (s : str) : result pyval :=
  if Str.startswith s [65279] then Err JSONDecodeError   (* a leading BOM *)
  else
    match value (2 * List.length s + 2) (skip_ws s) with
    | Err e => Err e
    | Ok (v, rest) =>
        match skip_ws rest with
        | [] => Ok v
        | _ => Err JSONDecodeError                       (* extra data *)
        end
    end.

End Json.

(* ================================================================== *)
(** * The services around the program *)
(* ================================================================== *)

Definition nl : str := [10%N].

(** [qlit s] is [lit s] with every apostrophe read as a double quote; it
    writes the one literal of the source that is full of double quotes. *)
Definition qlit (s : string) : str :=
  List.map (fun c => if N.eqb c 39 then 34%N else c) (lit s).

(** A request to the Gemini service. *)
Record request : Type := {
  model : str;
  system_instruction : str;
  contents : str;
  temperature : option float
}.

(** The graph object of the [graphviz] package, as the calls made on it, in
    order.  How the package quotes names and what it refuses as a name are
    outside the model. *)
Inductive dot_stmt : Type :=
| GraphAttr (key value : str)
| Node (name label : pyval) (attrs : list (str * str))
| Edge (tail head label : pyval).

Record Digraph : Type := {
  comment : str;
  body : list dot_stmt
}.

(** What [st.graphviz_chart] is given: a graph object or DOT source. *)
Inductive chart : Type :=
| ChartGraph (g : Digraph)
| ChartSource (src : str).

Inductive st_kind : Type :=
| st_title | st_header | st_subheader | st_write | st_warning | st_error.

(** What a run shows and whom it calls, in order. *)
Inductive event : Type :=
| LLMCall (req : request)                  (* a request sent to the model *)
| St (kind : st_kind) (text : str)         (* [st.<kind>(text)] *)
| StErrorExn (prefix : str) (e : exn)      (* [st.error(f"{prefix}{e}")] *)
| StGraphvizChart (c : chart)
| StCode (text language : str)
| Printed (e : exn).

(** ** The database of [app.py] *)

Record user_row : Type := {
  u_id : Z; u_email : str; u_password_hash : str
}.

Record project_row : Type := {
  p_id : Z; p_user_id : Z; p_name : str; p_description : str
}.

Record log_row : Type := {
  l_id : Z; l_project_id : Z; l_user_prompt : str; l_llm_response : str;
  l_execution_time : float
}.

(** Modelled from the spec: the schema of the three tables, which no file
    of the repository creates.  [users.email] is unique; ids come from a
    sequence per table; rows are kept in the order of their creation, the
    order of [created_at]. *)
Record tables : Type := {
  users : list user_row;
  projects : list project_row;
  logs : list log_row
}.

(** The server and the one connection the program holds at a time.  A
    connection works on its own view of the tables; [commit] makes the view
    permanent and closing the connection discards it.  Sequences advance
    outside transactions. *)
Record postgres : Type := {
  committed : tables;
  txn : option tables;
  next_user_id : Z;
  next_project_id : Z;
  next_log_id : Z;
  commits : nat
}.

Inductive db_step : Type :=
| Connect | InsertUser | InsertProject | InsertLog | Commit.

(** [st.session_state] *)
Record session : Type := {
  logged_in : bool;
  user_id : option Z;
  last_dot : option str
}.

Record world : Type := {
  ui : list event;
  sess : session;
  pg : postgres
}.

(** What the user did in the main page of [app.py] before this run. *)
Record widgets : Type := {
  generate_clicked : bool;       (* the Generate Diagram button *)
  description : str;             (* the description text area *)
  edited_dot : option str;       (* the Edit DOT text area, when changed *)
  update_clicked : bool          (* the Update Diagram button *)
}.

(** ** The ER Specification, typed *)

Record Relationship : Type := {
  rel_from : str; rel_to : str; rel_relation : str
}.

Record ERSpec : Type := {
  entities : list str;
  relationships : list Relationship
}.

(** A relationship entry some of whose keys may be missing. *)
Record Entry : Type := {
  e_from : option str; e_to : option str; e_relation : option str
}.

Definition as_str (v : pyval) : option str :=
  match v with PStr s => Some s | _ => None end.

Fixpoint all_some {A B} (f : A -> option B) (l : list A) : option (list B) :=
  match l with
  | [] => Some []
  | x :: l' =>
      match f x, all_some f l' with
      | Some y, Some ys => Some (y :: ys)
      | _, _ => None
      end
  end.

(** The value under [key] read as a list of [A]; a missing key is the empty
    list, as [.get(key, [])] makes it. *)
Definition list_field {A} (f : pyval -> option A) (d : list (str * pyval))
  (key : str) : option (list A) :=
  match Dict.get d key with
  | None => Some []
  | Some (PList l) => all_some f l
  | Some _ => None
  end.

(** An optional key whose value, when present, is a [str]. *)
Definition opt_str_field (d : list (str * pyval)) (key : str)
  : option (option str) :=
  match Dict.get d key with
  | None => Some None
  | Some (PStr s) => Some (Some s)
  | Some _ => None
  end.

Definition as_entry (v : pyval) : option Entry :=
  match v with
  | PDict d =>
      match opt_str_field d (lit "from"), opt_str_field d (lit "to"),
            opt_str_field d (lit "relation") with
      | Some f, Some t, Some r =>
          Some {| e_from := f; e_to := t; e_relation := r |}
      | _, _, _ => None
      end
  | _ => None
  end.

Definition as_relationship (v : pyval) : option Relationship :=
  match as_entry v with
  | Some {| e_from := Some f; e_to := Some t; e_relation := Some r |} =>
      Some {| rel_from := f; rel_to := t; rel_relation := r |}
  | _ => None
  end.

(** [as_spec v = Some sp]: the Python value [v] is the ER Specification
    [sp], a [dict] with a list of names and a list of complete entries. *)
Definition as_spec (v : pyval) : option ERSpec :=
  match v with
  | PDict d =>
      match list_field as_str d (lit "entities"),
            list_field as_relationship d (lit "relationships") with
      | Some es, Some rs => Some {| entities := es; relationships := rs |}
      | _, _ => None
      end
  | _ => None
  end.

(** The same with entries that may lack keys. *)
Definition as_entries (v : pyval) : option (list str * list Entry) :=
  match v with
  | PDict d =>
      match list_field as_str d (lit "entities"),
            list_field as_entry d (lit "relationships") with
      | Some es, Some rs => Some (es, rs)
      | _, _ => None
      end
  | _ => None
  end.

(** The [dict] the decoder builds for a specification. *)
Definition of_relationship (r : Relationship) : pyval :=
  PDict [(lit "from", PStr (rel_from r)); (lit "to", PStr (rel_to r));
         (lit "relation", PStr (rel_relation r))].

Definition of_spec (sp : ERSpec) : pyval :=
  PDict [(lit "entities", PList (List.map PStr (entities sp)));
         (lit "relationships",
          PList (List.map of_relationship (relationships sp)))].

(** ** Concrete services, to run the program on examples *)

Module Demo.

Definition answers (text : option str) : request -> result (option str) :=
  fun _ => Ok text.

Definition unreachable : request -> result (option str) :=
  fun _ => Err (ExternalError (lit "503 Service Unavailable")).

Definition elapsed : request -> float := fun _ => 4609434218613702656%Z.

(** [str(v)], right on a [str]; no run below prints another value. *)
Definition py_str (v : pyval) : str :=
  match v with
  | PStr s => s
  | PNone => lit "None"
  | PBool true => lit "True"
  | PBool false => lit "False"
  | _ => lit "<object>"
  end.

Definition lower (s : str) : str := List.map Str.lower_ascii_char s.

Definition engine_accepts : chart -> result unit := fun _ => Ok tt.

Definition hash (password : str) : str := lit "sha256:" ++ password.

Definition dumps (s : str) : str := [34%N] ++ s ++ [34%N].

Definition no_fault : db_step -> option exn := fun _ => None.

Definition fault_at (step : db_step) : db_step -> option exn :=
  fun s =>
    match step, s with
    | Connect, Connect | InsertUser, InsertUser
    | InsertProject, InsertProject | InsertLog, InsertLog
    | Commit, Commit => Some (ExternalError (lit "connection lost"))
    | _, _ => None
    end.

Definition no_tables : tables :=
  {| users := []; projects := []; logs := [] |}.

Definition fresh_server : postgres :=
  {| committed := no_tables; txn := None; next_user_id := 1;
     next_project_id := 1; next_log_id := 1; commits := 0 |}.

Definition start (s : session) : world :=
  {| ui := []; sess := s; pg := fresh_server |}.

Definition logged_out : session :=
  {| logged_in := false; user_id := None; last_dot := None |}.

Definition logged_in_as (uid : Z) : session :=
  {| logged_in := true; user_id := Some uid; last_dot := None |}.

(** The example of the spec: Customers place Orders. *)
Definition shop : ERSpec :=
  {| entities := [lit "Customer"; lit "Order"];
     relationships :=
       [{| rel_from := lit "Customer"; rel_to := lit "Order";
           rel_relation := lit "places" |}] |}.

Definition shop_json : str :=
  qlit "{'entities': ['Customer','Order'], 'relationships': [{'from':'Customer','to':'Order','relation':'places'}]}".

(** A relationship that points at an entity nobody declared. *)
Definition haunted : ERSpec :=
  {| entities := [lit "Customer"];
     relationships :=
       [{| rel_from := lit "Customer"; rel_to := lit "Ghost";
           rel_relation := lit "sees" |}] |}.

(** [{"entities": ["A", "B"], "relationships": [{"from": "A", "to": "B"}]}] *)
Definition unlabelled : pyval :=
  PDict [(lit "entities", PList [PStr (lit "A"); PStr (lit "B")]);
         (lit "relationships",
          PList [PDict [(lit "from", PStr (lit "A"));
                        (lit "to", PStr (lit "B"))]])].

(** [{"entities": ["A"], "relationships": [{"to": "A", "relation": "r"}]}] *)
Definition endless : pyval :=
  PDict [(lit "entities", PList [PStr (lit "A")]);
         (lit "relationships",
          PList [PDict [(lit "to", PStr (lit "A"));
                        (lit "relation", PStr (lit "r"))]])].

Definition page (clicked : bool) (text : str) : widgets :=
  {| generate_clicked := clicked; description := text;
     edited_dot := None; update_clicked := false |}.

End Demo.

(** An office with one account, to run the account and logging code. *)
Module Office.

Definition ada : user_row :=
  {| u_id := 1; u_email := lit "ada@example.org";
     u_password_hash := Demo.hash (lit "secret") |}.

Definition ada_project : project_row :=
  {| p_id := 1; p_user_id := 1; p_name := lit "My First ERD Project";
     p_description := lit "Default workspace" |}.

Definition server : postgres :=
  {| committed := {| users := [ada]; projects := [ada_project]; logs := [] |};
     txn := None; next_user_id := 2; next_project_id := 2; next_log_id := 1;
     commits := 1 |}.

(** Nobody is logged in. *)
Definition lobby : world :=
  {| ui := []; sess := Demo.logged_out; pg := server |}.

(** Ada is logged in, with [dot] as her diagram. *)
Definition desk (dot : option str) : world :=
  {| ui := [];
     sess := {| logged_in := true; user_id := Some 1%Z; last_dot := dot |};
     pg := server |}.

(** A server whose [users] sequence started at 0. *)
Definition root : user_row :=
  {| u_id := 0; u_email := lit "root@example.org";
     u_password_hash := Demo.hash (lit "toor") |}.

Definition zero_lobby : world :=
  {| ui := []; sess := Demo.logged_out;
     pg := {| committed := {| users := [root]; projects := []; logs := [] |};
              txn := None; next_user_id := 1; next_project_id := 0;
              next_log_id := 0; commits := 1 |} |}.

Definition query_lost : exn :=
  ExternalError (lit "server closed the connection unexpectedly").

Definition drawing : str := lit "digraph { A -> B }".

(** A cache that holds a diagram for the description "a shop", with the
    2.5 seconds its call took. *)
Definition earlier : float := 4612811918334230528%Z.

Definition warm : list (str * (str * float)) :=
  [(lit "a shop", (drawing, earlier))].

(** [{"entities": "AB"}] *)
Definition loose : list (str * pyval) := [(lit "entities", PStr (lit "AB"))].

End Office.

(* ================================================================== *)
(** * The program *)
(* ================================================================== *)

(** Code that may raise but touches no state. *)
Definition rbind {A B} (r : result A) (f : A -> result B) : result B :=
  match r with
  | Ok a => f a
  | Err e => Err e
  end.

Declare Scope result_scope.
Delimit Scope result_scope with result.
Notation "x <- m ;; k" := (rbind m (fun x => k))
  (at level 61, m at next level, right associativity) : result_scope.

(** A [for] loop whose body may raise; the accumulator stands for the
    local variables the body updates. *)
Fixpoint rfor_each {A B} (items : list A) (body : B -> A -> result B)
  (acc : B) : result B :=
  match items with
  | [] => Ok acc
  | x :: rest => rbind (body acc x) (fun acc' => rfor_each rest body acc')
  end.

(** [l[i]] *)
Definition index {A} (l : list A) (i : nat) : result A :=
  match nth_error l i with
  | Some x => Ok x
  | None => Err IndexError
  end.

Module Graph.

(** [Digraph(comment=c)] *)
Definition new (c : str) : Digraph := {| comment := c; body := [] |}.

Definition add (g : Digraph) (s : dot_stmt) : Digraph :=
  {| comment := comment g; body := body g ++ [s] |}.

(** [g.attr(key=value)] *)
Definition attr (g : Digraph) (key value : str) : Digraph :=
  add g (GraphAttr key value).

(** [g.node(name, label, **attrs)] *)
Definition node (g : Digraph) (name label : pyval)
  (attrs : list (str * str)) : Digraph :=
  add g (Node name label attrs).

(** [g.edge(tail, head, label=label)] *)
Definition edge (g : Digraph) (tail head label : pyval) : Digraph :=
  add g (Edge tail head label).

End Graph.

Section Program.

(** ** Services outside the repository *)

(** The Gemini service: the [text] of its response, or what it raises. *)
Variable generate_content : request -> result (option str).

(** Seconds between the two [time.time()] readings around a request. *)
Variable elapsed : request -> float.

(** [json.loads] and [json.dumps] *)
Variable json_loads : str -> result pyval.
Variable json_dumps : str -> str.

(** [str(v)], which an f-string applies to an interpolated value. *)
Variable py_str : pyval -> str.
Hypothesis py_str_str : forall s, py_str (PStr s) = s.

(** [str.lower], which is the table below on ASCII text. *)
Variable str_lower : str -> str.
Hypothesis str_lower_ascii :
  forall s, Str.is_ascii s = true ->
            str_lower s = List.map Str.lower_ascii_char s.

(** [st.graphviz_chart]: it hands the graph object or the DOT text to the
    front end, where the layout engine runs after the call has returned;
    the result is what the call itself does in the script. *)
Variable graphviz_chart : chart -> result unit.

(** [hashlib.sha256(...).hexdigest()] *)
Variable sha256_hexdigest : str -> str.

(** What goes wrong in the database driver at a step of one call, if
    anything.  A call of [create_user], of [authenticate_user] or of the
    page takes each step at most once, so one plan covers every course of
    one call; a statement about several calls gives each call a plan of
    its own. *)
Variable db_fault : db_step -> option exn.

(** ** Streamlit and the model, as events *)

Definition emit (e : event) : M world unit :=
  modify (fun w => {| ui := ui w ++ [e]; sess := sess w; pg := pg w |}).

Definition st (kind : st_kind) (text : str) : M world unit :=
  emit (St kind text).

Definition st_error_exn (prefix : str) (e : exn) : M world unit :=
  emit (StErrorExn prefix e).

Definition st_graphviz_chart (c : chart) : M world unit :=
  match graphviz_chart c with
  | Ok _ => emit (StGraphvizChart c)
  | Err e => raise e
  end.

Definition call_model (req : request) : M world (option str) :=
  (emit (LLMCall req) ;;; lift (generate_content req))%monad.

(* -------------------------------------------------------------- *)
(** ** autoergen.py *)
(* -------------------------------------------------------------- *)

Definition empty_er_spec : pyval :=
  PDict [(lit "entities", PList []); (lit "relationships", PList [])].

Definition er_prompt (prompt_text : str) : str :=
  nl ++ lit "    Extract entities and relationships from the following database description:" ++ nl
  ++ qlit "    '" ++ prompt_text ++ qlit "'" ++ nl
  ++ nl
  ++ lit "    Return as JSON with this exact structure:" ++ nl
  ++ lit "    {" ++ nl
  ++ qlit "        'entities': ['Entity1', 'Entity2']," ++ nl
  ++ qlit "        'relationships': [" ++ nl
  ++ qlit "            {'from': 'Entity1', 'to': 'Entity2', 'relation': 'description'}" ++ nl
  ++ lit "        ]" ++ nl
  ++ lit "    }" ++ nl
  ++ lit "    ".

(** The text handed to the decoder: trimmed, then without the fence
    markers. *)
Definition clean_json_text (text : str) : str :=
  Str.replace (lit "```") []
    (Str.replace (lit "```json") [] (Str.strip text)).

Definition generate_er_spec (prompt_text : str) : M world pyval :=
  let system_instruction :=
    lit "You are an expert database architect. Always return output in valid JSON format." in
  try_except
    (response <- call_model
                   {| model := lit "gemini-2.5-flash-lite";
                      system_instruction := system_instruction;
                      contents := er_prompt prompt_text;
                      temperature := None |} ;;
     match response with
     | None => raise AttributeError        (* [None.strip()] *)
     | Some text =>
         let raw_text := clean_json_text text in
         er_data <- lift (json_loads raw_text) ;;
         ret er_data
     end)%monad
    (fun e =>
       (st_error_exn (lit "Failed to process with Gemini: ") e ;;;
        ret empty_er_spec)%monad).

Definition entity_attrs : list (str * str) :=
  [(lit "shape", lit "box"); (lit "style", lit "filled");
   (lit "color", lit "lightblue")].

Definition create_er_diagram (er_data : pyval) : result Digraph :=
  (let dot := Graph.new (lit "ER Diagram") in
   let dot := Graph.attr dot (lit "rankdir") (lit "LR") in
   ents <- Py.get er_data (lit "entities") (PList []) ;;
   ents <- Py.iter ents ;;
   dot <- rfor_each ents
            (fun dot entity => Ok (Graph.node dot entity entity entity_attrs))
            dot ;;
   rels <- Py.get er_data (lit "relationships") (PList []) ;;
   rels <- Py.iter rels ;;
   dot <- rfor_each rels
            (fun dot rel =>
               tail <- Py.getitem rel (lit "from") ;;
               head <- Py.getitem rel (lit "to") ;;
               label <- Py.get rel (lit "relation") (PStr []) ;;
               Ok (Graph.edge dot tail head label))
            dot ;;
   Ok dot)%result.

(** [v.lower()]: only a [str] has it. *)
Definition py_lower (v : pyval) : result str :=
  match v with
  | PStr s => Ok (str_lower s)
  | _ => Err AttributeError
  end.

Definition create_table_stmt (entity : str) : str :=
  lit "CREATE TABLE " ++ entity ++ lit " (" ++ nl
  ++ lit "    id INT PRIMARY KEY," ++ nl
  ++ lit "    name VARCHAR(100)" ++ nl
  ++ lit ");".

Definition alter_table_stmt (from relation to to_lower : str) : str :=
  lit "-- " ++ from ++ lit " " ++ relation ++ lit " " ++ to ++ nl
  ++ lit "ALTER TABLE " ++ from ++ lit " ADD COLUMN " ++ to_lower
  ++ lit "_id INT REFERENCES " ++ to ++ lit "(id);".

Definition generate_sql_schema (er_data : pyval) : result str :=
  (let sql_statements := [] in
   ents <- Py.get er_data (lit "entities") (PList []) ;;
   ents <- Py.iter ents ;;
   sql_statements <-
     rfor_each ents
       (fun sql_statements entity =>
          let stmt := create_table_stmt (py_str entity) in
          Ok (sql_statements ++ [stmt]))
       sql_statements ;;
   rels <- Py.get er_data (lit "relationships") (PList []) ;;
   rels <- Py.iter rels ;;
   sql_statements <-
     rfor_each rels
       (fun sql_statements rel =>
          from <- Py.getitem rel (lit "from") ;;
          relation <- Py.getitem rel (lit "relation") ;;
          to <- Py.getitem rel (lit "to") ;;
          to_lower <- py_lower to ;;
          let stmt := alter_table_stmt (py_str from) (py_str relation)
                        (py_str to) to_lower in
          Ok (sql_statements ++ [stmt]))
       sql_statements ;;
   Ok (Str.join (nl ++ nl) sql_statements))%result.

(** The body of [if st.button("Generate Visualization"):], run when the
    button was pressed. *)
Definition autoergen_generate (user_input : str) : M world unit :=
  if negb (Str.truthy (Str.strip user_input)) then
    st st_warning (lit "Please enter a description.")
  else
    (er_data <- generate_er_spec user_input ;;
     ents <- lift (Py.getitem er_data (lit "entities")) ;;
     if Py.truthy ents then
       (st st_subheader (lit "ER Diagram") ;;;
        dot <- lift (create_er_diagram er_data) ;;
        st_graphviz_chart (ChartGraph dot) ;;;
        st st_subheader (lit "SQL Schema") ;;;
        sql <- lift (generate_sql_schema er_data) ;;
        emit (StCode sql (lit "sql")))
     else
       st st_error (lit "Could not extract data. Try more descriptive text."))%monad.

(* -------------------------------------------------------------- *)
(** ** app.py: the database *)
(* -------------------------------------------------------------- *)

Definition MODEL_NAME : str := lit "gemini-3-flash-preview".

(** The connection object; the server holds its state. *)
Inductive connection : Type := Conn.

Definition set_pg (f : postgres -> postgres) : M world unit :=
  modify (fun w => {| ui := ui w; sess := sess w; pg := f (pg w) |}).

Definition set_session (f : session -> session) : M world unit :=
  modify (fun w => {| ui := ui w; sess := f (sess w); pg := pg w |}).

Definition set_txn (t : option tables) (p : postgres) : postgres :=
  {| committed := committed p; txn := t;
     next_user_id := next_user_id p;
     next_project_id := next_project_id p;
     next_log_id := next_log_id p; commits := commits p |}.

(** The driver fails at [step] when the fault plan says so. *)
Definition faulty (step : db_step) : M world unit :=
  match db_fault step with
  | Some e => raise e
  | None => ret tt
  end.

(** The view of the open connection. *)
Definition current_txn : M world tables :=
  (p <- gets pg ;;
   match txn p with
   | Some t => ret t
   | None => raise (ExternalError (lit "connection already closed"))
   end)%monad.

(** [psycopg2.connect(...)]: a new connection sees the committed rows. *)
Definition psycopg2_connect : M world connection :=
  (faulty Connect ;;;
   set_pg (fun p => set_txn (Some (committed p)) p) ;;;
   ret Conn)%monad.

Definition get_connection : M world (option connection) :=
  try_except
    (conn <- psycopg2_connect ;; ret (Some conn))%monad
    (fun e => (st_error_exn (lit "DB Error: ") e ;;; ret None)%monad).

(** [INSERT INTO users (email, password_hash) VALUES (%s, %s) RETURNING id]:
    the id is drawn first, then the unique index on [email] is checked. *)
Definition insert_user (email password_hash : str) : M world Z :=
  (faulty InsertUser ;;;
   t <- current_txn ;;
   id <- gets (fun w => next_user_id (pg w)) ;;
   set_pg (fun p =>
             {| committed := committed p; txn := txn p;
                next_user_id := next_user_id p + 1;
                next_project_id := next_project_id p;
                next_log_id := next_log_id p; commits := commits p |}) ;;;
   if existsb (fun u => Str.eqb (u_email u) email) (users t) then
     raise (ExternalError (lit "duplicate key value violates unique constraint"))
   else
     (set_pg (set_txn (Some
        {| users := users t ++ [{| u_id := id; u_email := email;
                                   u_password_hash := password_hash |}];
           projects := projects t; logs := logs t |})) ;;;
      ret id))%monad.

(** [INSERT INTO projects (user_id, name, description) VALUES (%s, %s, %s)] *)
Definition insert_project (owner : Z) (name description : str)
  : M world unit :=
  (faulty InsertProject ;;;
   t <- current_txn ;;
   id <- gets (fun w => next_project_id (pg w)) ;;
   set_pg (fun p =>
             {| committed := committed p;
                txn := Some
                  {| users := users t;
                     projects := projects t ++
                       [{| p_id := id; p_user_id := owner; p_name := name;
                           p_description := description |}];
                     logs := logs t |};
                next_user_id := next_user_id p;
                next_project_id := next_project_id p + 1;
                next_log_id := next_log_id p; commits := commits p |}))%monad.

(** [INSERT INTO logs (...) SELECT id, %s, %s, %s FROM projects
     WHERE user_id = %s ORDER BY created_at LIMIT 1]: one row for the
    oldest project of the user, none when the user has no project. *)
Definition insert_log (user_prompt llm_response : str)
  (execution_time : float) (owner : option Z) : M world unit :=
  (faulty InsertLog ;;;
   t <- current_txn ;;
   match owner with
   | None => ret tt
   | Some uid =>
       match find (fun p => Z.eqb (p_user_id p) uid) (projects t) with
       | None => ret tt
       | Some proj =>
           id <- gets (fun w => next_log_id (pg w)) ;;
           set_pg (fun p =>
             {| committed := committed p;
                txn := Some
                  {| users := users t; projects := projects t;
                     logs := logs t ++
                       [{| l_id := id; l_project_id := p_id proj;
                           l_user_prompt := user_prompt;
                           l_llm_response := llm_response;
                           l_execution_time := execution_time |}] |};
                next_user_id := next_user_id p;
                next_project_id := next_project_id p;
                next_log_id := next_log_id p + 1; commits := commits p |})
       end
   end)%monad.

(** [conn.commit()]: it publishes the whole view or, when it fails,
    nothing. *)
Definition commit (conn : connection) : M world unit :=
  (faulty Commit ;;;
   t <- current_txn ;;
   set_pg (fun p =>
             {| committed := t; txn := Some t;
                next_user_id := next_user_id p;
                next_project_id := next_project_id p;
                next_log_id := next_log_id p;
                commits := S (commits p) |}))%monad.

(** [conn.close()]: what was not committed is gone. *)
Definition close (conn : connection) : M world unit :=
  set_pg (set_txn None).

(** [hashlib.sha256(password.encode()).hexdigest()] *)
Definition hash_password (password : str) : str :=
  sha256_hexdigest password.

Definition create_user (email password : str) : M world bool :=
  (conn <- get_connection ;;
   match conn with
   | None => ret false
   | Some conn =>
       try_finally
         (try_except
            ((* with conn.cursor() as cur: *)
             user_id <- insert_user email (hash_password password) ;;
             insert_project user_id (lit "My First ERD Project")
               (lit "Default workspace") ;;;
             commit conn ;;;
             ret true)
            (fun e => emit (Printed e) ;;; ret false))
         (close conn)
   end)%monad.

(* -------------------------------------------------------------- *)
(** ** app.py: the model and the page *)
(* -------------------------------------------------------------- *)

Definition dot_system_instruction : str :=
  lit "You are a senior database architect. "
  ++ lit "Convert the user's description into a VALID Graphviz DOT string "
  ++ lit "for an ER diagram. "
  ++ lit "Use box shapes for entities. "
  ++ lit "No markdown. No explanations. "
  ++ lit "Return ONLY raw DOT code.".

Definition fence : str := lit "```".

(** The text of a response, without a fence around it and trimmed. *)
Definition strip_fence (text : str) : result str :=
  (let content := Str.strip text in
   content <-
     (if Str.contains content fence then
        content <- index (Str.split fence content) 1 ;;
        Ok (if Str.startswith content (lit "dot") then skipn 3 content
            else content)
      else Ok content) ;;
   Ok (Str.strip content))%result.

(** The function under [@st.cache_data(ttl=3600)]: what runs when the
    prompt has no cached result. *)
Definition call_gemini_for_dot (prompt_text : str) : M world (str * float) :=
  (let req := {| model := MODEL_NAME;
                 system_instruction := dot_system_instruction;
                 contents := prompt_text;
                 temperature := Some 4596373779694328218%Z (* 0.2 *) |} in
   response <- call_model req ;;
   let duration := elapsed req in
   match response with
   | Some ((_ :: _) as text) =>
       content <- lift (strip_fence text) ;;
       ret (content, duration)
   | _ => raise (PyException (lit "Gemini returned an empty response."))
   end)%monad.

(** The generate branch of the main page when the cache holds nothing for
    the description, so that the body of the decorated function runs;
    [app_generate_cached] below is the branch with the cache. *)
Definition app_generate (w : widgets) : M world unit :=
  if generate_clicked w && Str.truthy (Str.strip (description w)) then
    try_except
      (r <- call_gemini_for_dot (description w) ;;
       let (dot, exec_time) := r in
       set_session (fun s => {| logged_in := logged_in s;
                                user_id := user_id s;
                                last_dot := Some dot |}) ;;;
       (* Log to DB *)
       conn <- get_connection ;;
       match conn with
       | Some conn =>
           uid <- gets (fun w => user_id (sess w)) ;;
           insert_log (description w) (json_dumps dot) exec_time uid ;;;
           commit conn ;;;
           close conn
       | None => ret tt
       end)%monad
      (fun e => st_error_exn (lit "Error calling Gemini: ") e)
  else ret tt.

(** The editor and the diagram, shown when there is DOT text. *)
Definition app_render (w : widgets) : M world unit :=
  (dot <- gets (fun w => last_dot (sess w)) ;;
   match dot with
   | Some ((_ :: _) as dot) =>
       st st_subheader (lit "DOT Source") ;;;
       (if update_clicked w then
          set_session (fun s =>
            {| logged_in := logged_in s; user_id := user_id s;
               last_dot := Some (match edited_dot w with
                                 | Some e => e
                                 | None => dot
                                 end) |})
        else ret tt) ;;;
       st st_subheader (lit "Visual ERD") ;;;
       try_except
         (dot <- gets (fun w => last_dot (sess w)) ;;
          st_graphviz_chart
            (ChartSource (match dot with Some d => d | None => [] end)))
         (fun e => st_error_exn (lit "Graphviz rendering error: ") e)
   | _ => ret tt
   end)%monad.

(** The main page, one run of the script. *)
Definition app_main (w : widgets) : M world unit :=
  (li <- gets (fun w => logged_in (sess w)) ;;
   if (li : bool) then
     st st_header (lit "ER Diagram Architect (Text " ++ [8594%N]
                   ++ lit " DOT via Gemini)") ;;;
     app_generate w ;;;
     app_render w
   else
     st st_title (lit "Welcome to AutoERGen") ;;;
     st st_write (lit "Please log in to continue."))%monad.

(* -------------------------------------------------------------- *)
(** ** app.py: logging in and out *)
(* -------------------------------------------------------------- *)

(** What goes wrong when the query of [authenticate_user] runs, if
    anything. *)
Variable query_fault : option exn.

(** [SELECT id, password_hash FROM users WHERE email = %s] followed by
    [cur.fetchone()]: the row of the first user with this email in the
    view of the connection, or [None]. *)
Definition select_user (email : str) : M world (option (Z * str)) :=
  (match query_fault with
   | Some e => raise e
   | None => ret tt
   end ;;;
   t <- current_txn ;;
   ret (match find (fun u => Str.eqb (u_email u) email) (users t) with
        | Some u => Some (u_id u, u_password_hash u)
        | None => None
        end))%monad.

Definition authenticate_user (email password : str) : M world (option Z) :=
  (conn <- get_connection ;;
   match conn with
   | None => ret None
   | Some conn =>
       (* with conn.cursor() as cur: *)
       row <- select_user email ;;
       close conn ;;;
       match row with
       | Some (id, password_hash) =>
           if Str.eqb password_hash (hash_password password) then
             ret (Some id)
           else ret None
       | None => ret None
       end
   end)%monad.

(** How a handler of the sidebar ends: the run goes on, or [st.rerun()]
    stops it and starts the script again. *)
Inductive flow : Type := Continue | Rerun.

(** The body of [if submit:] in the login form.  [if uid:] is false for
    [None] and for the id 0. *)
Definition login_submit (email password : str) : M world flow :=
  (uid <- authenticate_user email password ;;
   match uid with
   | Some id =>
       if negb (Z.eqb id 0) then
         set_session (fun s => {| logged_in := true; user_id := user_id s;
                                  last_dot := last_dot s |}) ;;;
         set_session (fun s => {| logged_in := logged_in s;
                                  user_id := Some id;
                                  last_dot := last_dot s |}) ;;;
         ret Rerun
       else st st_error (lit "Invalid credentials") ;;; ret Continue
   | None => st st_error (lit "Invalid credentials") ;;; ret Continue
   end)%monad.

(** The body of [if st.button("Logout"):]. *)
Definition logout_click : M world flow :=
  (set_session (fun s => {| logged_in := false; user_id := user_id s;
                            last_dot := last_dot s |}) ;;;
   set_session (fun s => {| logged_in := logged_in s; user_id := None;
                            last_dot := last_dot s |}) ;;;
   set_session (fun s => {| logged_in := logged_in s; user_id := user_id s;
                            last_dot := None |}) ;;;
   ret Rerun)%monad.

(* -------------------------------------------------------------- *)
(** ** app.py: the cache of [call_gemini_for_dot] *)
(* -------------------------------------------------------------- *)

(** What [@st.cache_data(ttl=3600)] holds for [call_gemini_for_dot]: the
    results of earlier calls that returned, by prompt, the newest first.
    Time is not modelled: an entry that has expired is an entry that the
    cache a run finds no longer holds. *)
Definition cache : Type := list (str * (str * float)).

Definition cache_lookup (c : cache) (prompt_text : str)
  : option (str * float) :=
  match find (fun kv => Str.eqb (fst kv) prompt_text) c with
  | Some kv => Some (snd kv)
  | None => None
  end.

(** The server process: what a run of the script sees, and the cache,
    which outlives runs and sessions. *)
Record process : Type := {
  world_of : world;
  cache_of : cache
}.

(** A computation of the script, in the process: the cache stays. *)
Definition in_run {A} (m : M world A) : M process A :=
  fun p =>
    match m (world_of p) with
    | (r, w) => (r, {| world_of := w; cache_of := cache_of p |})
    end.

(** [call_gemini_for_dot] as the script calls it, under the decorator: on
    a hit the body does not run; when the body runs and returns, its
    result is stored; when it raises, nothing is stored. *)
Definition cached_call_gemini_for_dot (prompt_text : str)
  : M process (str * float) :=
  (c <- gets cache_of ;;
   match cache_lookup c prompt_text with
   | Some r => ret r
   | None =>
       r <- in_run (call_gemini_for_dot prompt_text) ;;
       modify (fun p => {| world_of := world_of p;
                           cache_of := (prompt_text, r) :: cache_of p |}) ;;;
       ret r
   end)%monad.

(** The generate branch of the main page, with the cache: the branch of
    [app_generate] around the decorated call. *)
Definition app_generate_cached (w : widgets) : M process unit :=
  if generate_clicked w && Str.truthy (Str.strip (description w)) then
    try_except
      (r <- cached_call_gemini_for_dot (description w) ;;
       let (dot, exec_time) := r in
       in_run (set_session (fun s => {| logged_in := logged_in s;
                                        user_id := user_id s;
                                        last_dot := Some dot |})) ;;;
       (* Log to DB *)
       conn <- in_run get_connection ;;
       match conn with
       | Some conn =>
           uid <- in_run (gets (fun w => user_id (sess w))) ;;
           in_run (insert_log (description w) (json_dumps dot) exec_time
                     uid) ;;;
           in_run (commit conn) ;;;
           in_run (close conn)
       | None => ret tt
       end)%monad
      (fun e => in_run (st_error_exn (lit "Error calling Gemini: ") e))
  else ret tt.

(* -------------------------------------------------------------- *)
(** ** Vocabulary of the statements *)
(* -------------------------------------------------------------- *)

(** Content inside a fenced code block: the opening fence with its
    language tag on one line, the content, the closing fence on a line of
    its own. *)
Definition fenced (tag content : str) : str :=
  fence ++ tag ++ nl ++ content ++ nl ++ fence.

(** The requests a trace sent to the model. *)
Definition llm_calls (t : list event) : list request :=
  flat_map (fun e => match e with LLMCall r => [r] | _ => [] end) t.

(** The request [generate_er_spec] sends for a description. *)
Definition er_request (prompt_text : str) : request :=
  {| model := lit "gemini-2.5-flash-lite";
     system_instruction :=
       lit "You are an expert database architect. Always return output in valid JSON format.";
     contents := er_prompt prompt_text;
     temperature := None |}.

(** The request [call_gemini_for_dot] sends for a description. *)
Definition dot_request (prompt_text : str) : request :=
  {| model := MODEL_NAME;
     system_instruction := dot_system_instruction;
     contents := prompt_text;
     temperature := Some 4596373779694328218%Z |}.

(** The diagram the spec describes: a box per entity, then an arrow per
    relationship. *)
Definition node_of (name : str) : dot_stmt :=
  Node (PStr name) (PStr name) entity_attrs.

Definition edge_of (r : Relationship) : dot_stmt :=
  Edge (PStr (rel_from r)) (PStr (rel_to r)) (PStr (rel_relation r)).

Definition diagram_of (sp : ERSpec) : Digraph :=
  {| comment := lit "ER Diagram";
     body := GraphAttr (lit "rankdir") (lit "LR")
             :: List.map node_of (entities sp)
             ++ List.map edge_of (relationships sp) |}.

Definition or_empty (o : option str) : str :=
  match o with Some s => s | None => [] end.

(** The arrow of an entry that has its two ends. *)
Definition edge_of_entry (e : Entry) : dot_stmt :=
  Edge (PStr (or_empty (e_from e))) (PStr (or_empty (e_to e)))
       (PStr (or_empty (e_relation e))).

Definition nodes (g : Digraph) : list dot_stmt :=
  filter (fun s => match s with Node _ _ _ => true | _ => false end) (body g).

Definition edges (g : Digraph) : list dot_stmt :=
  filter (fun s => match s with Edge _ _ _ => true | _ => false end) (body g).

(** How many nodes of [g] carry the name [name]. *)
Definition nodes_named (name : str) (g : Digraph) : nat :=
  List.length
    (filter (fun s => match s with
                      | Node (PStr n) _ _ => Str.eqb n name
                      | _ => false
                      end) (body g)).

(** The [shape] a node is drawn with, when the call gave one. *)
Definition shape_of (s : dot_stmt) : option str :=
  match s with
  | Node _ _ attrs =>
      option_map snd (find (fun kv => Str.eqb (fst kv) (lit "shape")) attrs)
  | _ => None
  end.

(** The schema text the spec describes. *)
Definition alter_of (r : Relationship) : str :=
  alter_table_stmt (rel_from r) (rel_relation r) (rel_to r)
    (str_lower (rel_to r)).

Definition schema_of (sp : ERSpec) : str :=
  Str.join (nl ++ nl)
    (List.map create_table_stmt (entities sp)
     ++ List.map alter_of (relationships sp)).

(** A complete relationship, as an entry. *)
Definition to_entry (r : Relationship) : Entry :=
  {| e_from := Some (rel_from r); e_to := Some (rel_to r);
     e_relation := Some (rel_relation r) |}.

(** The statement of an entry that has its three keys. *)
Definition alter_of_entry (e : Entry) : str :=
  alter_table_stmt (or_empty (e_from e)) (or_empty (e_relation e))
    (or_empty (e_to e)) (str_lower (or_empty (e_to e))).

Definition lacks_relation (e : Entry) : bool :=
  match e_relation e with Some _ => false | None => true end.

Definition has_all_keys (e : Entry) : bool :=
  match e_from e, e_to e, e_relation e with
  | Some _, Some _, Some _ => true
  | _, _, _ => false
  end.

Definition has_ends (e : Entry) : bool :=
  match e_from e, e_to e with
  | Some _, Some _ => true
  | _, _ => false
  end.

Definition is_key_error {A} (r : result A) : bool :=
  match r with Err (KeyError _) => true | _ => false end.

(** The tables after a sign-up. *)
Definition email_taken (t : tables) (email : str) : bool :=
  existsb (fun u => Str.eqb (u_email u) email) (users t).

Definition signed_up (t : tables) (uid pid : Z) (email password : str)
  : tables :=
  {| users := users t ++
       [{| u_id := uid; u_email := email;
           u_password_hash := hash_password password |}];
     projects := projects t ++
       [{| p_id := pid; p_user_id := uid;
           p_name := lit "My First ERD Project";
           p_description := lit "Default workspace" |}];
     logs := logs t |}.

Definition no_db_fault : bool :=
  match db_fault Connect, db_fault InsertUser, db_fault InsertProject,
        db_fault Commit with
  | None, None, None, None => true
  | _, _, _, _ => false
  end.

(** The diagrams and the code blocks a trace showed. *)
Definition charts (t : list event) : list chart :=
  flat_map (fun e => match e with StGraphvizChart c => [c] | _ => [] end) t.

Definition code_blocks (t : list event) : list str :=
  flat_map (fun e => match e with StCode text _ => [text] | _ => [] end) t.

(** The row a user matches: the email and the hash of the password. *)
Definition credentials_match (u : user_row) (email password : str) : Prop :=
  u_email u = email /\ u_password_hash u = hash_password password.

(** Sound accounts: emails are unique, every id was drawn from the
    sequence, every project has its owner among the users and was drawn
    from its sequence. *)
Definition accounts_ok (p : postgres) : Prop :=
  NoDup (List.map u_email (users (committed p)))
  /\ (forall u, In u (users (committed p)) -> (u_id u < next_user_id p)%Z)
  /\ (forall r, In r (projects (committed p)) ->
        (p_id r < next_project_id p)%Z
        /\ exists u, In u (users (committed p)) /\ u_id u = p_user_id r).

(** The row [app_generate] logs. *)
Definition log_of (id project : Z) (prompt dot : str) (time : float)
  : log_row :=
  {| l_id := id; l_project_id := project; l_user_prompt := prompt;
     l_llm_response := json_dumps dot; l_execution_time := time |}.

(** The oldest project of a user. *)
Definition first_project (t : tables) (owner : Z) : option project_row :=
  find (fun r => Z.eqb (p_user_id r) owner) (projects t).

Definition signed_in (id : Z) (dot : option str) : session :=
  {| logged_in := true; user_id := Some id; last_dot := dot |}.

(** The diagram of entries that have their [from] and [to]. *)
Definition diagram_of_entries (es : list str) (ents : list Entry) : Digraph :=
  {| comment := lit "ER Diagram";
     body := GraphAttr (lit "rankdir") (lit "LR")
             :: List.map node_of es ++ List.map edge_of_entry ents |}.

(** The session [s] with [dot] as its diagram. *)
Definition with_diagram (s : session) (dot : str) : session :=
  {| logged_in := logged_in s; user_id := user_id s; last_dot := Some dot |}.

(** How the decorated call comes by the result [r] in the process [p]:
    from the cache, with nothing sent and the cache as it was, or from the
    model, with the request in the trace and [r] stored. *)
Definition served (p : process) (prompt_text : str) (r : str * float)
  (sent : list event) (c : cache) : Prop :=
  (cache_lookup (cache_of p) prompt_text = Some r
   /\ sent = [] /\ c = cache_of p)
  \/ (cache_lookup (cache_of p) prompt_text = None
      /\ (exists text,
            generate_content (dot_request prompt_text) = Ok (Some text)
            /\ text <> []
            /\ strip_fence text = Ok (fst r))
      /\ snd r = elapsed (dot_request prompt_text)
      /\ sent = [LLMCall (dot_request prompt_text)]
      /\ c = (prompt_text, r) :: cache_of p).

Definition signed_out : session :=
  {| logged_in := false; user_id := None; last_dot := None |}.

(* ================================================================== *)
(** * Facts about the string methods *)
(* ================================================================== *)

Lemma startswith_cut (p a b : str) (c : N) :
  ~ In c p -> Str.startswith (a ++ c :: b) p = Str.startswith a p.
Proof.
  revert a; induction p as [|x p IH]; intros a Hc; [reflexivity|].
  destruct a as [|d a]; simpl.
  - destruct (N.eqb_spec x c) as [->|_]; [|reflexivity].
    exfalso; apply Hc; now left.
  - rewrite IH; [reflexivity|]. intros Hin; apply Hc; now right.
Qed.

Lemma startswith_length (s p : str) :
  Str.startswith s p = true -> List.length p <= List.length s.
Proof.
  revert s; induction p as [|x p IH]; intros s H; simpl; [lia|].
  destruct s as [|d s]; simpl in *; [discriminate|].
  apply andb_true_iff in H as [_ H]. apply IH in H. lia.
Qed.

Lemma startswith_app (s p t : str) :
  Str.startswith s p = true -> Str.startswith (s ++ t) p = true.
Proof.
  revert s; induction p as [|x p IH]; intros s H; [reflexivity|].
  destruct s as [|d s]; simpl in *; [discriminate|].
  apply andb_true_iff in H as [H1 H2]. now rewrite H1, IH.
Qed.

Lemma partition_nil (p : str) : p <> [] -> Str.partition p [] = None.
Proof. destruct p; [congruence | reflexivity]. Qed.

Lemma partition_unfold (p s : str) :
  Str.partition p s =
  if Str.startswith s p then Some ([], skipn (List.length p) s)
  else match s with
       | [] => None
       | c :: s' =>
           match Str.partition p s' with
           | Some (a, b) => Some (c :: a, b)
           | None => None
           end
       end.
Proof. destruct s; reflexivity. Qed.

(** A character that does not occur in the separator cuts the search in
    two. *)
Lemma partition_cut (p a b : str) (c : N) :
  ~ In c p -> p <> [] ->
  Str.partition p (a ++ c :: b) =
  match Str.partition p a with
  | Some (x, y) => Some (x, y ++ c :: b)
  | None =>
      match Str.partition p b with
      | Some (x, y) => Some (a ++ c :: x, y)
      | None => None
      end
  end.
Proof.
  intros Hc Hp. induction a as [|d a IH].
  - rewrite (partition_nil p Hp).
    rewrite (partition_unfold p ([] ++ c :: b)).
    rewrite (startswith_cut p [] b c Hc).
    destruct p as [|x p]; [congruence|]. simpl.
    destruct (Str.partition (x :: p) b) as [[u v]|]; reflexivity.
  - rewrite (partition_unfold p ((d :: a) ++ c :: b)).
    rewrite (partition_unfold p (d :: a)).
    rewrite startswith_cut by assumption.
    destruct (Str.startswith (d :: a) p) eqn:Hs.
    + apply startswith_length in Hs.
      rewrite skipn_app.
      replace (List.length p - List.length (d :: a)) with 0 by lia.
      reflexivity.
    + cbn [app]. rewrite IH.
      destruct (Str.partition p a) as [[x y]|]; [reflexivity|].
      destruct (Str.partition p b) as [[x y]|]; reflexivity.
Qed.

Lemma partition_none_contains (p s : str) :
  Str.partition p s = None <-> Str.contains s p = false.
Proof.
  induction s as [|c s IH]; simpl.
  - destruct (Str.startswith [] p); simpl; split; congruence.
  - destruct (Str.startswith (c :: s) p); simpl.
    + split; congruence.
    + rewrite <- IH. destruct (Str.partition p s) as [[x y]|]; split; congruence.
Qed.

Lemma contains_app_false (a b p : str) :
  Str.contains (a ++ b) p = false ->
  Str.contains a p = false /\ Str.contains b p = false.
Proof.
  induction a as [|c a IH]; simpl; intros H.
  - split; [|exact H].
    destruct p; [|reflexivity].
    destruct b; simpl in H; discriminate.
  - apply orb_false_iff in H as [H1 H2].
    destruct (IH H2) as [Ha Hb]. split; [|exact Hb].
    rewrite Ha, orb_false_r.
    destruct (Str.startswith (c :: a) p) eqn:Hs; [|reflexivity].
    apply (startswith_app _ _ b) in Hs.
    simpl app in Hs. congruence.
Qed.

(** A longer pattern occurs only where its head occurs. *)
Lemma startswith_prefix (s p q : str) :
  Str.startswith s (p ++ q) = true -> Str.startswith s p = true.
Proof.
  revert s; induction p as [|x p IH]; intros s H; [reflexivity|].
  destruct s as [|d s]; simpl in *; [discriminate|].
  apply andb_true_iff in H as [H1 H2]. now rewrite H1, (IH _ H2).
Qed.

Lemma contains_longer (s p q : str) :
  Str.contains s p = false -> Str.contains s (p ++ q) = false.
Proof.
  induction s as [|c s IH]; simpl; intros H.
  - apply orb_false_iff in H as [H _]. rewrite orb_false_r in *.
    destruct (Str.startswith [] (p ++ q)) eqn:Hs; [|reflexivity].
    apply startswith_prefix in Hs. congruence.
  - apply orb_false_iff in H as [H1 H2]. rewrite (IH H2), orb_false_r.
    destruct (Str.startswith (c :: s) (p ++ q)) eqn:Hs; [|reflexivity].
    apply startswith_prefix in Hs. congruence.
Qed.

(** ** Trimming *)

Lemma lstrip_all (s : str) : forallb Str.isspace s = true -> Str.lstrip s = [].
Proof.
  induction s as [|c s IH]; simpl; [reflexivity|].
  intros H. apply andb_true_iff in H as [Hc Hs]. now rewrite Hc, IH.
Qed.

Lemma lstrip_suffix (s : str) :
  exists ws, s = ws ++ Str.lstrip s /\ forallb Str.isspace ws = true.
Proof.
  induction s as [|c s [ws [E Hws]]]; simpl.
  - now exists [].
  - destruct (Str.isspace c) eqn:Hc.
    + exists (c :: ws). simpl. rewrite Hc, Hws. split; [congruence|reflexivity].
    + now exists [].
Qed.

Lemma lstrip_head (s : str) :
  Str.lstrip s = [] \/
  exists c t, Str.lstrip s = c :: t /\ Str.isspace c = false.
Proof.
  induction s as [|c s IH]; simpl; [now left|].
  destruct (Str.isspace c) eqn:Hc; [exact IH|].
  right. now exists c, s.
Qed.

Lemma lstrip_snoc (s : str) (c : N) :
  Str.lstrip (s ++ [c]) =
  if forallb Str.isspace s then Str.lstrip [c] else Str.lstrip s ++ [c].
Proof.
  induction s as [|d s IH]; [reflexivity|].
  cbn [app Str.lstrip forallb]. destruct (Str.isspace d); [exact IH|reflexivity].
Qed.

Lemma rstrip_snoc (s : str) (c : N) :
  Str.rstrip (s ++ [c]) = if Str.isspace c then Str.rstrip s else s ++ [c].
Proof.
  unfold Str.rstrip. rewrite rev_unit. cbn [Str.lstrip].
  destruct (Str.isspace c); [reflexivity|].
  cbn [rev]. now rewrite rev_involutive.
Qed.

Lemma rstrip_prefix (s : str) :
  exists ws, s = Str.rstrip s ++ ws /\ forallb Str.isspace ws = true.
Proof.
  destruct (lstrip_suffix (rev s)) as [ws [E Hws]].
  exists (rev ws). split.
  - unfold Str.rstrip. rewrite <- rev_app_distr, <- E. now rewrite rev_involutive.
  - rewrite forallb_forall in *. intros x Hx. apply Hws. now apply in_rev.
Qed.

Lemma rstrip_last (s : str) :
  Str.rstrip s = [] \/
  exists t c, Str.rstrip s = t ++ [c] /\ Str.isspace c = false.
Proof.
  unfold Str.rstrip.
  destruct (lstrip_head (rev s)) as [E|[c [t [E Hc]]]]; rewrite E.
  - now left.
  - right. now exists (rev t), c.
Qed.

(** Text made of white space only is trimmed to nothing. *)
Lemma strip_all_space (s : str) :
  forallb Str.isspace s = true -> Str.strip s = [].
Proof. intros H. unfold Str.strip. now rewrite (lstrip_all s H). Qed.


Lemma strip_keep (c d : N) (t : str) :
  Str.isspace c = false -> Str.isspace d = false ->
  Str.strip (c :: t ++ [d]) = c :: t ++ [d].
Proof.
  intros Hc Hd. unfold Str.strip. cbn [Str.lstrip]. rewrite Hc.
  change (c :: t ++ [d]) with ((c :: t) ++ [d]).
  now rewrite rstrip_snoc, Hd.
Qed.

Lemma strip_idem (s : str) : Str.strip (Str.strip s) = Str.strip s.
Proof.
  unfold Str.strip at 2 3.
  destruct (rstrip_last (Str.lstrip s)) as [E|[t [c [E Hc]]]]; rewrite E.
  - reflexivity.
  - destruct (rstrip_prefix (Str.lstrip s)) as [ws [E1 _]].
    rewrite E in E1.
    destruct (lstrip_head s) as [E2|[c' [t' [E2 Hc']]]].
    + rewrite E2 in E1. destruct t; discriminate.
    + rewrite E2 in E1.
      destruct t as [|x t]; simpl in E1; injection E1 as Ex E1; subst.
      * unfold Str.strip. cbn [app Str.lstrip]. rewrite Hc.
        change [c] with ([] ++ [c]). now rewrite rstrip_snoc, Hc.
      * cbn [app]. now apply strip_keep.
Qed.

(** A line feed on either side does not survive trimming. *)
Lemma strip_between_newlines (x : str) :
  Str.strip (nl ++ x ++ nl) = Str.strip x.
Proof.
  unfold Str.strip, nl. cbn [app Str.lstrip].
  change (Str.isspace 10) with true. cbn iota.
  rewrite lstrip_snoc.
  destruct (forallb Str.isspace x) eqn:Hx.
  - rewrite (lstrip_all x Hx). reflexivity.
  - rewrite rstrip_snoc. reflexivity.
Qed.

Lemma contains_strip (s p : str) :
  Str.contains s p = false -> Str.contains (Str.strip s) p = false.
Proof.
  intros H. unfold Str.strip.
  destruct (lstrip_suffix s) as [ws [E _]].
  destruct (rstrip_prefix (Str.lstrip s)) as [ws' [E' _]].
  rewrite E in H. apply contains_app_false in H as [_ H].
  rewrite E' in H. now apply contains_app_false in H as [H _].
Qed.

(** ** Cutting and replacing *)

Lemma contains_partition (s p : str) :
  Str.contains s p = true -> exists a b, Str.partition p s = Some (a, b).
Proof.
  intros H. destruct (Str.partition p s) as [[a b]|] eqn:E.
  - now exists a, b.
  - apply partition_none_contains in E. congruence.
Qed.

(** The second piece of a cut text is what lies between the first two
    separators, or all that follows the only one. *)
Lemma split_second (sep s a b : str) :
  sep <> [] -> Str.partition sep s = Some (a, b) ->
  index (Str.split sep s) 1 =
  Ok (match Str.partition sep b with Some (a', _) => a' | None => b end).
Proof.
  intros Hsep E. unfold Str.split.
  destruct s as [|c s].
  - rewrite (partition_nil sep Hsep) in E. discriminate.
  - cbn [List.length Str.split_upto]. rewrite E.
    destruct (List.length s); cbn [Str.split_upto];
      destruct (Str.partition sep b) as [[a' b']|]; reflexivity.
Qed.

Lemma replace_absent (old new s : str) :
  Str.partition old s = None -> Str.replace old new s = s.
Proof.
  intros E. unfold Str.replace.
  destruct (List.length s); cbn [Str.replace_upto]; now rewrite E.
Qed.

Lemma replace_upto_absent (n : nat) (old new s : str) :
  Str.partition old s = None -> Str.replace_upto n old new s = s.
Proof. intros E. destruct n; cbn [Str.replace_upto]; now rewrite E. Qed.

(** ** The bound on the number of cuts is never reached *)

Lemma partition_length (sep s a b : str) :
  Str.partition sep s = Some (a, b) ->
  List.length s = List.length a + List.length sep + List.length b.
Proof.
  revert a b; induction s as [|c s IH]; intros a b; rewrite partition_unfold.
  - destruct (Str.startswith [] sep) eqn:Hs; [|discriminate].
    intros H. injection H as <- <-.
    apply startswith_length in Hs. rewrite length_skipn.
      cbn [List.length] in *. lia.
  - destruct (Str.startswith (c :: s) sep) eqn:Hs.
    + intros H. injection H as <- <-.
      apply startswith_length in Hs. rewrite length_skipn.
      cbn [List.length] in *. lia.
    + destruct (Str.partition sep s) as [[x y]|]; [|discriminate].
      intros H. injection H as <- <-.
      specialize (IH x y eq_refl). simpl. lia.
Qed.

(** Cutting with any larger bound gives the same pieces: [split] is the
    cut at every occurrence. *)
Lemma split_upto_enough (sep : str) (n m : nat) (s : str) :
  sep <> [] -> List.length s <= n -> List.length s <= m ->
  Str.split_upto n sep s = Str.split_upto m sep s.
Proof.
  intros Hsep. revert m s; induction n as [|n IH]; intros m s Hn Hm.
  - destruct s; [|simpl in Hn; lia].
    destruct m; cbn [Str.split_upto]; now rewrite (partition_nil sep Hsep).
  - destruct m as [|m].
    + destruct s; [|simpl in Hm; lia].
      cbn [Str.split_upto]. now rewrite (partition_nil sep Hsep).
    + cbn [Str.split_upto].
      destruct (Str.partition sep s) as [[a b]|] eqn:E; [|reflexivity].
      apply partition_length in E.
      assert (0 < List.length sep) by (destruct sep; [congruence|simpl; lia]).
      f_equal. apply IH; lia.
Qed.

Lemma replace_upto_enough (old new : str) (n m : nat) (s : str) :
  old <> [] -> List.length s <= n -> List.length s <= m ->
  Str.replace_upto n old new s = Str.replace_upto m old new s.
Proof.
  intros Hold. revert m s; induction n as [|n IH]; intros m s Hn Hm.
  - destruct s; [|simpl in Hn; lia].
    destruct m; cbn [Str.replace_upto]; now rewrite (partition_nil old Hold).
  - destruct m as [|m].
    + destruct s; [|simpl in Hm; lia].
      cbn [Str.replace_upto]. now rewrite (partition_nil old Hold).
    + cbn [Str.replace_upto].
      destruct (Str.partition old s) as [[a b]|] eqn:E; [|reflexivity].
      apply partition_length in E.
      assert (0 < List.length old) by (destruct old; [congruence|simpl; lia]).
      do 2 f_equal. apply IH; lia.
Qed.

Lemma startswith_split (s p : str) :
  Str.startswith s p = true -> s = p ++ skipn (List.length p) s.
Proof.
  revert s; induction p as [|x p IH]; intros s H; [reflexivity|].
  destruct s as [|d s]; simpl in H; [discriminate|].
  apply andb_true_iff in H as [H1 H2]. apply N.eqb_eq in H1. subst d.
  simpl. f_equal. now apply IH.
Qed.

(** [partition] finds an occurrence of the separator. *)
Lemma partition_app (sep s a b : str) :
  Str.partition sep s = Some (a, b) -> s = a ++ sep ++ b.
Proof.
  revert a b; induction s as [|c s IH]; intros a b; rewrite partition_unfold.
  - destruct (Str.startswith [] sep) eqn:Hs; [|discriminate].
    intros H. injection H as <- <-. now apply startswith_split.
  - destruct (Str.startswith (c :: s) sep) eqn:Hs.
    + intros H. injection H as <- <-. now apply startswith_split.
    + destruct (Str.partition sep s) as [[x y]|]; [|discriminate].
      intros H. injection H as <- <-. simpl. f_equal. now apply IH.
Qed.

Lemma split_upto_not_nil (n : nat) (sep s : str) :
  Str.split_upto n sep s <> [].
Proof.
  destruct n; cbn [Str.split_upto];
    destruct (Str.partition sep s) as [[a b]|]; discriminate.
Qed.

Lemma join_cons (sep p : str) (rest : list str) :
  rest <> [] -> Str.join sep (p :: rest) = p ++ sep ++ Str.join sep rest.
Proof. destruct rest; [congruence|reflexivity]. Qed.

(** The pieces, joined by the separator, are the text. *)
Lemma join_split (sep s : str) : Str.join sep (Str.split sep s) = s.
Proof.
  unfold Str.split. generalize (List.length s) as n. intros n.
  revert s; induction n as [|n IH]; intros s; cbn [Str.split_upto];
    destruct (Str.partition sep s) as [[a b]|] eqn:E; try reflexivity.
  - apply partition_app in E. now subst.
  - rewrite join_cons by apply split_upto_not_nil.
    rewrite IH. apply partition_app in E. now subst.
Qed.

(** [replace] is [split] followed by [join], as in Python. *)
Lemma replace_join_split (old new s : str) :
  Str.replace old new s = Str.join new (Str.split old s).
Proof.
  unfold Str.replace, Str.split. generalize (List.length s) as n. intros n.
  revert s; induction n as [|n IH]; intros s;
    cbn [Str.split_upto Str.replace_upto];
    destruct (Str.partition old s) as [[a b]|] eqn:E; try reflexivity.
  rewrite join_cons by apply split_upto_not_nil. now rewrite IH.
Qed.

(** ** Fenced text *)

Lemma fence_value : fence = [96; 96; 96]%N.
Proof. reflexivity. Qed.

Lemma fenced_strip (tag x : str) : Str.strip (fenced tag x) = fenced tag x.
Proof.
  unfold fenced. rewrite fence_value. unfold nl.
  replace ([96; 96; 96] ++ tag ++ [10] ++ x ++ [10] ++ [96; 96; 96])%N
    with (96 :: ([96; 96] ++ tag ++ [10] ++ x ++ [10; 96; 96]) ++ [96])%N.
  - now apply strip_keep.
  - cbn [app]. rewrite <- !app_assoc. cbn [app]. rewrite <- !app_assoc.
    reflexivity.
Qed.

(** After the opening fence the next separator is found in the closing
    fence, when the tag and the content hold none. *)
Lemma partition_fenced_body (p tag x : str) :
  ~ In 10%N p -> p <> [] ->
  Str.partition p tag = None -> Str.partition p x = None ->
  Str.partition p (tag ++ nl ++ x ++ nl ++ fence) =
  match Str.partition p fence with
  | Some (u, v) => Some (tag ++ nl ++ x ++ nl ++ u, v)
  | None => None
  end.
Proof.
  intros Hnl Hp Htag Hx. unfold nl. cbn [app].
  rewrite (partition_cut p tag _ 10%N Hnl Hp), Htag.
  rewrite (partition_cut p x _ 10%N Hnl Hp), Hx.
  destruct (Str.partition p fence) as [[u v]|]; reflexivity.
Qed.

Lemma newline_not_in_fence : ~ In 10%N fence.
Proof. rewrite fence_value. simpl. intuition discriminate. Qed.

Lemma fence_not_nil : fence <> [].
Proof. rewrite fence_value. discriminate. Qed.

(** The markup normalizer on fenced text. *)
Lemma strip_fence_fenced (tag x : str) :
  tag = [] \/ tag = lit "dot" ->
  Str.contains x fence = false ->
  strip_fence (fenced tag x) = Ok (Str.strip x).
Proof.
  intros Htag Hx. unfold strip_fence. rewrite fenced_strip.
  assert (Hc : Str.contains (fenced tag x) fence = true).
  { unfold fenced. rewrite fence_value. reflexivity. }
  rewrite Hc.
  assert (Hp : Str.partition fence (fenced tag x)
               = Some ([], tag ++ nl ++ x ++ nl ++ fence)).
  { unfold fenced. rewrite fence_value. reflexivity. }
  rewrite (split_second fence _ _ _ fence_not_nil Hp).
  apply partition_none_contains in Hx.
  rewrite (partition_fenced_body fence tag x newline_not_in_fence
             fence_not_nil); [|destruct Htag as [->| ->]; reflexivity|exact Hx].
  replace (Str.partition fence fence) with (Some (@nil N, @nil N))
    by reflexivity.
  cbn [rbind]. rewrite !app_nil_r.
  destruct Htag as [->| ->].
  - replace (Str.startswith ([] ++ nl ++ x ++ nl) (lit "dot"))
      with false by reflexivity.
    change ([] ++ nl ++ x ++ nl) with (nl ++ x ++ nl).
    now rewrite strip_between_newlines.
  - replace (Str.startswith (lit "dot" ++ nl ++ x ++ nl) (lit "dot"))
      with true by reflexivity.
    replace (skipn 3 (lit "dot" ++ nl ++ x ++ nl)) with (nl ++ x ++ nl)
      by reflexivity.
    now rewrite strip_between_newlines.
Qed.

(** The markup normalizer on text without a fence. *)
Lemma strip_fence_plain (x : str) :
  Str.contains x fence = false -> strip_fence x = Ok (Str.strip x).
Proof.
  intros Hx. unfold strip_fence.
  rewrite (contains_strip x fence Hx). cbn [rbind].
  now rewrite strip_idem.
Qed.

(** The markup normalizer returns on every text. *)
Lemma strip_fence_total (text : str) :
  exists content, strip_fence text = Ok content.
Proof.
  unfold strip_fence.
  destruct (Str.contains (Str.strip text) fence) eqn:Hc.
  - destruct (contains_partition _ _ Hc) as [a [b E]].
    rewrite (split_second fence _ a b fence_not_nil E). cbn [rbind].
    eexists; reflexivity.
  - cbn [rbind]. eexists; reflexivity.
Qed.

Lemma replace_first (old new s a b : str) :
  old <> [] -> Str.partition old s = Some (a, b) ->
  exists n, Str.replace old new s = a ++ new ++ Str.replace_upto n old new b.
Proof.
  intros Hold E. unfold Str.replace. destruct s as [|c s].
  - rewrite (partition_nil old Hold) in E. discriminate.
  - exists (List.length s). cbn [List.length Str.replace_upto]. now rewrite E.
Qed.

Lemma replace_upto_last (n : nat) (old new s a : str) :
  old <> [] -> Str.partition old s = Some (a, []) ->
  Str.replace_upto n old new s = a ++ new.
Proof.
  intros Hold E. destruct n; cbn [Str.replace_upto]; rewrite E.
  - now rewrite app_nil_r.
  - rewrite (replace_upto_absent n old new [] (partition_nil old Hold)).
    now rewrite app_nil_r.
Qed.

Lemma json_fence_value : lit "```json" = fence ++ lit "json".
Proof. reflexivity. Qed.

Lemma no_fence_no_json_fence (x : str) :
  Str.contains x fence = false -> Str.partition (lit "```json") x = None.
Proof.
  intros H. apply partition_none_contains.
  rewrite json_fence_value. now apply contains_longer.
Qed.

Lemma newline_not_in_json_fence : ~ In 10%N (lit "```json").
Proof. simpl. intuition discriminate. Qed.

(** Removing the closing fence from what follows the opening one. *)
Lemma replace_closing_fence (n : nat) (tag x : str) :
  Str.partition fence tag = None -> Str.contains x fence = false ->
  Str.replace_upto n fence [] (tag ++ nl ++ x ++ nl ++ fence)
  = tag ++ nl ++ x ++ nl.
Proof.
  intros Htag Hx. apply partition_none_contains in Hx.
  rewrite (replace_upto_last n fence [] _ (tag ++ nl ++ x ++ nl) fence_not_nil).
  - now rewrite app_nil_r.
  - rewrite (partition_fenced_body fence tag x newline_not_in_fence
               fence_not_nil Htag Hx).
    replace (Str.partition fence fence) with (Some (@nil N, @nil N))
      by reflexivity.
    now rewrite !app_nil_r.
Qed.

(** The text handed to the decoder, for fenced text. *)
Lemma clean_json_text_fenced (tag x : str) :
  tag = [] \/ tag = lit "json" ->
  Str.contains x fence = false ->
  clean_json_text (fenced tag x) = nl ++ x ++ nl.
Proof.
  intros Htag Hx. unfold clean_json_text. rewrite fenced_strip.
  change (lit "```") with fence.
  pose proof (no_fence_no_json_fence x Hx) as Hj.
  assert (Hjn : lit "```json" <> []) by discriminate.
  destruct Htag as [->| ->].
  - (* no tag: the first pass finds nothing *)
    rewrite (replace_absent (lit "```json") [] (fenced [] x)).
    + assert (Hp : Str.partition fence (fenced [] x)
                   = Some ([], [] ++ nl ++ x ++ nl ++ fence)).
      { unfold fenced. rewrite fence_value. reflexivity. }
      destruct (replace_first fence [] _ _ _ fence_not_nil Hp) as [n ->].
      now rewrite (replace_closing_fence n [] x eq_refl Hx).
    + change (fenced [] x) with (fence ++ nl ++ x ++ nl ++ fence).
      now rewrite (partition_fenced_body (lit "```json") fence x
                     newline_not_in_json_fence Hjn eq_refl Hj).
  - (* the tag json goes with the opening fence *)
    assert (Hp : Str.partition (lit "```json") (fenced (lit "json") x)
                 = Some ([], [] ++ nl ++ x ++ nl ++ fence)).
    { unfold fenced. rewrite fence_value. reflexivity. }
    destruct (replace_first (lit "```json") [] _ _ _ Hjn Hp) as [n ->].
    rewrite (replace_upto_absent n (lit "```json") []).
    + cbn [app].
      assert (Hq : Str.partition fence (nl ++ x ++ nl ++ fence)
                   = Some (nl ++ x ++ nl, [])).
      { apply partition_none_contains in Hx.
        change (nl ++ x ++ nl ++ fence) with ([] ++ nl ++ x ++ nl ++ fence).
        rewrite (partition_fenced_body fence [] x newline_not_in_fence
                   fence_not_nil eq_refl Hx).
        replace (Str.partition fence fence) with (Some (@nil N, @nil N))
          by reflexivity.
        cbn [app]. now rewrite !app_nil_r. }
      destruct (replace_first fence [] _ _ _ fence_not_nil Hq) as [m ->].
      rewrite (replace_upto_absent m fence [] [] (partition_nil fence fence_not_nil)).
      now rewrite !app_nil_r.
    + now rewrite (partition_fenced_body (lit "```json") [] x
                     newline_not_in_json_fence Hjn eq_refl Hj).
Qed.

(** The text handed to the decoder, for text without a fence. *)
Lemma clean_json_text_plain (x : str) :
  Str.contains x fence = false -> clean_json_text x = Str.strip x.
Proof.
  intros Hx. unfold clean_json_text.
  pose proof (contains_strip x fence Hx) as Hs.
  rewrite (replace_absent (lit "```json") [] _ (no_fence_no_json_fence _ Hs)).
  apply replace_absent. now apply partition_none_contains.
Qed.

(* ================================================================== *)
(** * The response normalizers *)
(* ================================================================== *)

(** C4, as the code has it.  For content that holds no fence marker: in the
    markup variant, content fenced with no tag or with the tag [dot] is
    normalized to the trimmed content, as the bare content is; in the
    structured variant, content fenced with no tag or with the tag [json]
    is handed to the decoder between two line feeds, the fence markers and
    the tag removed and nothing else changed, while the bare content is
    handed over trimmed. *)
Theorem fenced_output_normalized (x : str) :
  Str.contains x fence = false ->
  strip_fence (fenced [] x) = Ok (Str.strip x)
  /\ strip_fence (fenced (lit "dot") x) = Ok (Str.strip x)
  /\ strip_fence x = Ok (Str.strip x)
  /\ clean_json_text (fenced [] x) = nl ++ x ++ nl
  /\ clean_json_text (fenced (lit "json") x) = nl ++ x ++ nl
  /\ clean_json_text x = Str.strip x.
Proof.
  intros Hx. repeat split.
  - apply strip_fence_fenced; auto.
  - apply strip_fence_fenced; auto.
  - now apply strip_fence_plain.
  - apply clean_json_text_fenced; auto.
  - apply clean_json_text_fenced; auto.
  - now apply clean_json_text_plain.
Qed.

(* ================================================================== *)
(** * The generation clients *)
(* ================================================================== *)

(** What [call_gemini_for_dot] does, by the answer of the model. *)
Lemma call_gemini_for_dot_run (prompt_text : str) (w : world) :
  call_gemini_for_dot prompt_text w =
  (match generate_content (dot_request prompt_text) with
   | Err e => Err e
   | Ok (Some (c :: t)) =>
       match strip_fence (c :: t) with
       | Ok content => Ok (content, elapsed (dot_request prompt_text))
       | Err e => Err e
       end
   | Ok _ => Err (PyException (lit "Gemini returned an empty response."))
   end,
   {| ui := ui w ++ [LLMCall (dot_request prompt_text)];
      sess := sess w; pg := pg w |}).
Proof.
  unfold call_gemini_for_dot, call_model, bind, emit, modify, lift, ret, raise.
  fold (dot_request prompt_text).
  destruct (generate_content (dot_request prompt_text)) as [[[|c t]|]|e];
    try reflexivity.
  destruct (strip_fence (c :: t)); reflexivity.
Qed.

Lemma Ok_inj {A} (a b : A) : Ok a = Ok b -> a = b.
Proof. intros H. now injection H. Qed.



(** What [generate_er_spec] does, by the answer of the model and the
    verdict of the decoder. *)
Lemma generate_er_spec_run (prompt_text : str) (w : world) :
  generate_er_spec prompt_text w =
  let sent := {| ui := ui w ++ [LLMCall (er_request prompt_text)];
                 sess := sess w; pg := pg w |} in
  let failed (e : exn) :=
    (Ok empty_er_spec,
     {| ui := ui sent ++ [StErrorExn (lit "Failed to process with Gemini: ") e];
        sess := sess w; pg := pg w |}) in
  match generate_content (er_request prompt_text) with
  | Err e => failed e
  | Ok None => failed AttributeError
  | Ok (Some text) =>
      match json_loads (clean_json_text text) with
      | Ok er_data => (Ok er_data, sent)
      | Err e => failed e
      end
  end.
Proof.
  unfold generate_er_spec, try_except, call_model, st_error_exn, bind, emit,
    modify, lift, ret, raise.
  fold (er_request prompt_text).
  destruct (generate_content (er_request prompt_text)) as [[text|]|e];
    try reflexivity.
  destruct (json_loads (clean_json_text text)); reflexivity.
Qed.

(** C1, as the code has it.  [generate_er_spec] never raises.  When the
    decoder rejects the cleaned text, when the response has no text and
    when the call to the model fails, it returns the empty ER
    Specification.  Text that the decoder accepts is returned as decoded,
    whatever its shape: the shape is not checked. *)
Theorem generate_er_spec_falls_back (prompt_text : str) (w : world) :
  exists er_data,
    fst (generate_er_spec prompt_text w) = Ok er_data
    /\ (forall text e,
          generate_content (er_request prompt_text) = Ok (Some text) ->
          json_loads (clean_json_text text) = Err e ->
          er_data = empty_er_spec)
    /\ (forall text v,
          generate_content (er_request prompt_text) = Ok (Some text) ->
          json_loads (clean_json_text text) = Ok v ->
          er_data = v)
    /\ (generate_content (er_request prompt_text) = Ok None ->
        er_data = empty_er_spec)
    /\ (forall e,
          generate_content (er_request prompt_text) = Err e ->
          er_data = empty_er_spec).
Proof.
  rewrite generate_er_spec_run. cbv zeta.
  destruct (generate_content (er_request prompt_text)) as [[text|]|e].
  - destruct (json_loads (clean_json_text text)) as [v|e] eqn:Hj;
      [exists v | exists empty_er_spec];
      (split; [reflexivity|]);
      repeat split; intros; try congruence;
      match goal with
      | H : Ok (Some _) = Ok (Some _) |- _ => injection H as <-
      end; congruence.
  - exists empty_er_spec. split; [reflexivity|].
    repeat split; intros; congruence.
  - exists empty_er_spec. split; [reflexivity|].
    repeat split; intros; congruence.
Qed.

(* ================================================================== *)
(** * The pages *)
(* ================================================================== *)

Lemma llm_calls_app (t1 t2 : list event) :
  llm_calls (t1 ++ t2) = llm_calls t1 ++ llm_calls t2.
Proof. apply flat_map_app. Qed.

Ltac run_page :=
  unfold app_main, app_generate, app_render, autoergen_generate,
    st_graphviz_chart, st_error_exn, st, try_except, set_session, bind, gets,
    emit, modify, lift, ret, raise;
  cbn [fst snd ui sess pg logged_in user_id last_dot].

Ltac no_calls :=
  cbn [fst snd ui]; rewrite ?llm_calls_app; cbn [llm_calls flat_map app];
  rewrite ?app_nil_r; try reflexivity.

(** Showing the editor and the diagram sends nothing to the model. *)
Lemma app_render_no_call (wd : widgets) (w : world) :
  llm_calls (ui (snd (app_render wd w))) = llm_calls (ui w).
Proof.
  run_page.
  destruct (last_dot (sess w)) as [[|c t]|]; try reflexivity.
  destruct (update_clicked wd); cbn [last_dot sess];
    match goal with
    | |- context [graphviz_chart ?c] => destruct (graphviz_chart c)
    end; no_calls.
Qed.

(** C6.  When the description is empty or all white space, neither page
    sends a request to the model: the requests in the trace after the run
    are those that were in it before. *)
Theorem blank_description_sends_no_request
  (user_input : str) (clicked updated : bool) (edited : option str)
  (w : world) :
  forallb Str.isspace user_input = true ->
  llm_calls (ui (snd (autoergen_generate user_input w))) = llm_calls (ui w)
  /\ llm_calls
       (ui (snd (app_main {| generate_clicked := clicked;
                             description := user_input;
                             edited_dot := edited;
                             update_clicked := updated |} w)))
     = llm_calls (ui w).
Proof.
  intros Hblank. pose proof (strip_all_space user_input Hblank) as Hs. split.
  - unfold autoergen_generate. rewrite Hs. cbn [Str.truthy negb].
    unfold st, emit, modify. no_calls.
  - unfold app_main, bind, gets. cbn [fst snd].
    destruct (logged_in (sess w)).
    + unfold st, emit, modify. cbn [fst snd].
      unfold app_generate at 1. cbn [generate_clicked description].
      rewrite Hs. cbn [Str.truthy]. rewrite andb_false_r. unfold ret.
      rewrite app_render_no_call. no_calls.
    + unfold st, emit, modify. no_calls.
Qed.

(* ================================================================== *)
(** * Signing up *)
(* ================================================================== *)

Ltac run_db :=
  unfold create_user, get_connection, psycopg2_connect, try_except,
    try_finally, insert_user, insert_project, commit, close, current_txn,
    faulty, set_pg, set_txn, st_error_exn, bind, gets, emit, modify, ret,
    raise;
  cbn [fst snd ui sess pg committed txn next_user_id next_project_id
       next_log_id commits users projects logs].

(** C10.  [create_user] never raises.  It returns [True] exactly when no
    step of the driver fails and the email is not taken; then the user row
    and the project row named My First ERD Project, owned by that user,
    are committed together, by the one commit issued.  When it returns
    [False] the committed tables are the ones it found and no commit was
    completed.  A connection that was opened is closed in both cases. *)
Theorem create_user_atomic (email password : str) (w : world) :
  let before := committed (pg w) in
  let run := create_user email password w in
  let after := pg (snd run) in
  (fst run = Ok true \/ fst run = Ok false)
  /\ (fst run = Ok true <->
      no_db_fault = true /\ email_taken before email = false)
  /\ (fst run = Ok true ->
      committed after
      = signed_up before (next_user_id (pg w)) (next_project_id (pg w))
          email password
      /\ commits after = S (commits (pg w))
      /\ txn after = None)
  /\ (fst run = Ok false ->
      committed after = before /\ commits after = commits (pg w))
  /\ (db_fault Connect = None -> txn after = None).
Proof.
  clear generate_content elapsed json_loads json_dumps py_str_str py_str
    str_lower_ascii str_lower graphviz_chart.
  cbv zeta. unfold no_db_fault, email_taken. run_db.
  destruct (db_fault Connect) as [e1|]; cbn [fst snd pg committed commits txn].
  { repeat split; try tauto; try discriminate; intros [? ?]; discriminate. }
  destruct (db_fault InsertUser) as [e2|];
    cbn [fst snd pg committed commits txn next_user_id next_project_id users
         projects logs].
  { repeat split; try tauto; try discriminate; intros [? ?]; discriminate. }
  destruct (existsb (fun u => Str.eqb (u_email u) email)
              (users (committed (pg w)))) eqn:Htaken;
    cbn [fst snd pg committed commits txn next_user_id next_project_id users
         projects logs].
  { repeat split; try tauto; try discriminate; intros [? ?]; discriminate. }
  destruct (db_fault InsertProject) as [e3|];
    cbn [fst snd pg committed commits txn next_user_id next_project_id users
         projects logs].
  { repeat split; try tauto; try discriminate; intros [? ?]; discriminate. }
  destruct (db_fault Commit) as [e4|];
    cbn [fst snd pg committed commits txn next_user_id next_project_id users
         projects logs].
  { repeat split; try tauto; try discriminate; intros [? ?]; discriminate. }
  repeat split; try tauto; try discriminate.
Qed.

(* ================================================================== *)
(** * The diagram and the schema *)
(* ================================================================== *)

(** ** Reading a Python value as a specification *)

Lemma all_some_as_str (l : list pyval) (es : list str) :
  all_some as_str l = Some es -> l = List.map PStr es.
Proof.
  revert es; induction l as [|v l IH]; intros es H; simpl in H.
  - now injection H as <-.
  - destruct v; simpl in H; try discriminate.
    destruct (all_some as_str l) as [ys|]; [|discriminate].
    injection H as <-. simpl. now rewrite (IH ys eq_refl).
Qed.

Lemma all_some_Forall2 {A B} (f : A -> option B) (l : list A) (ys : list B) :
  all_some f l = Some ys -> Forall2 (fun x y => f x = Some y) l ys.
Proof.
  revert ys; induction l as [|x l IH]; intros ys H; simpl in H.
  - injection H as <-. constructor.
  - destruct (f x) as [y|] eqn:Hx; [|discriminate].
    destruct (all_some f l) as [ys'|]; [|discriminate].
    injection H as <-. constructor; [exact Hx|]. now apply IH.
Qed.

Lemma list_field_inv {A} (f : pyval -> option A) (d : list (str * pyval))
  (key : str) (xs : list A) :
  list_field f d key = Some xs ->
  exists l,
    match Dict.get d key with Some x => x | None => PList [] end = PList l
    /\ all_some f l = Some xs.
Proof.
  unfold list_field. destruct (Dict.get d key) as [[]|]; try discriminate.
  - intros H. now exists l.
  - intros H. injection H as <-. now exists [].
Qed.

Lemma opt_str_field_inv (d : list (str * pyval)) (key : str)
  (o : option str) :
  opt_str_field d key = Some o -> Dict.get d key = option_map PStr o.
Proof.
  unfold opt_str_field. destruct (Dict.get d key) as [[]|]; try discriminate;
    intros H; now injection H as <-.
Qed.

Lemma as_entry_inv (v : pyval) (e : Entry) :
  as_entry v = Some e ->
  exists d,
    v = PDict d
    /\ Dict.get d (lit "from") = option_map PStr (e_from e)
    /\ Dict.get d (lit "to") = option_map PStr (e_to e)
    /\ Dict.get d (lit "relation") = option_map PStr (e_relation e).
Proof.
  destruct v; try discriminate. unfold as_entry.
  destruct (opt_str_field d (lit "from")) as [f|] eqn:Hf; [|discriminate].
  destruct (opt_str_field d (lit "to")) as [t|] eqn:Ht; [|discriminate].
  destruct (opt_str_field d (lit "relation")) as [r|] eqn:Hr; [|discriminate].
  intros H. injection H as <-. exists d. cbn [e_from e_to e_relation].
  repeat split; now apply opt_str_field_inv.
Qed.

Lemma as_relationship_entry (v : pyval) (r : Relationship) :
  as_relationship v = Some r -> as_entry v = Some (to_entry r).
Proof.
  unfold as_relationship.
  destruct (as_entry v) as [[[f|] [t|] [l|]]|]; try discriminate.
  intros H. now injection H as <-.
Qed.

Lemma all_some_relationship_entry (l : list pyval) (rs : list Relationship) :
  all_some as_relationship l = Some rs ->
  all_some as_entry l = Some (List.map to_entry rs).
Proof.
  revert rs; induction l as [|v l IH]; intros rs H; simpl in H.
  - now injection H as <-.
  - destruct (as_relationship v) as [r|] eqn:Hr; [|discriminate].
    destruct (all_some as_relationship l) as [rs'|]; [|discriminate].
    injection H as <-. simpl.
    now rewrite (as_relationship_entry v r Hr), (IH rs' eq_refl).
Qed.

(** A specification is a list of names with entries that are complete. *)
Lemma as_spec_entries (v : pyval) (sp : ERSpec) :
  as_spec v = Some sp ->
  as_entries v = Some (entities sp, List.map to_entry (relationships sp)).
Proof.
  destruct v; try discriminate. unfold as_spec, as_entries.
  destruct (list_field as_str d (lit "entities")) as [es|]; [|discriminate].
  unfold list_field.
  destruct (Dict.get d (lit "relationships")) as [[]|]; try discriminate.
  - destruct (all_some as_relationship l) as [rs|] eqn:Hl; [|discriminate].
    intros H. injection H as <-.
    now rewrite (all_some_relationship_entry l rs Hl).
  - intros H. now injection H as <-.
Qed.

Lemma as_entries_inv (v : pyval) (es : list str) (ents : list Entry) :
  as_entries v = Some (es, ents) ->
  exists d l,
    v = PDict d
    /\ match Dict.get d (lit "entities") with
       | Some x => x
       | None => PList []
       end = PList (List.map PStr es)
    /\ match Dict.get d (lit "relationships") with
       | Some x => x
       | None => PList []
       end = PList l
    /\ Forall2 (fun x e => as_entry x = Some e) l ents.
Proof.
  destruct v; try discriminate. unfold as_entries.
  destruct (list_field as_str d (lit "entities")) as [es'|] eqn:He;
    [|discriminate].
  destruct (list_field as_entry d (lit "relationships")) as [rs|] eqn:Hr;
    [|discriminate].
  intros H. injection H as <- <-.
  destruct (list_field_inv as_str d _ es' He) as [l1 [E1 H1]].
  destruct (list_field_inv as_entry d _ rs Hr) as [l2 [E2 H2]].
  exists d, l2. repeat split; [|exact E2|now apply all_some_Forall2].
  now rewrite E1, (all_some_as_str l1 es' H1).
Qed.

(** ** Loops *)

Lemma rfor_each_ok {A B} (l : list A) (f : B -> A -> result B)
  (g : B -> A -> B) (acc : B) :
  (forall b a, f b a = Ok (g b a)) ->
  rfor_each l f acc = Ok (fold_left g l acc).
Proof.
  intros Hf. revert acc; induction l as [|x l IH]; intros acc; simpl.
  - reflexivity.
  - rewrite Hf. simpl. apply IH.
Qed.

(** A loop over entries, each of which either contributes or raises
    [KeyError]: it runs through when every entry contributes and raises
    [KeyError] otherwise. *)
Lemma rfor_each_entries {A B C} (R : A -> C -> Prop) (ok : C -> bool)
  (f : B -> A -> result B) (g : B -> C -> B) (l : list A) (cs : list C) :
  Forall2 R l cs ->
  (forall b a c, R a c -> ok c = true -> f b a = Ok (g b c)) ->
  (forall b a c, R a c -> ok c = false -> is_key_error (f b a) = true) ->
  forall acc,
    (forallb ok cs = true -> rfor_each l f acc = Ok (fold_left g cs acc))
    /\ (forallb ok cs = false -> is_key_error (rfor_each l f acc) = true).
Proof.
  intros HF Hok Herr. induction HF as [|a c l cs Hac _ IH]; intros acc.
  - split; [reflexivity|discriminate].
  - cbn [forallb rfor_each fold_left].
    destruct (ok c) eqn:Hc; cbn [andb].
    + rewrite (Hok acc a c Hac Hc). cbn [rbind]. apply IH.
    + split; [discriminate|]. intros _.
      specialize (Herr acc a c Hac Hc).
      destruct (f acc a) as [b|[]]; try discriminate. reflexivity.
Qed.

Lemma fold_left_snoc {A B} (h : A -> B) (l : list A) (acc : list B) :
  fold_left (fun acc x => acc ++ [h x]) l acc = acc ++ List.map h l.
Proof.
  revert acc; induction l as [|x l IH]; intros acc; simpl.
  - now rewrite app_nil_r.
  - rewrite IH, <- app_assoc. reflexivity.
Qed.

Lemma fold_left_add {A} (h : A -> dot_stmt) (l : list A) (g : Digraph) :
  fold_left (fun g x => Graph.add g (h x)) l g
  = {| comment := comment g; body := body g ++ List.map h l |}.
Proof.
  revert g; induction l as [|x l IH]; intros g; simpl.
  - rewrite app_nil_r. now destruct g.
  - rewrite IH. unfold Graph.add. cbn [comment body].
    now rewrite <- app_assoc.
Qed.

Lemma is_key_error_rbind {A B} (r : result A) (f : A -> result B) :
  is_key_error r = true -> is_key_error (rbind r f) = true.
Proof. destruct r as [a|[]]; try discriminate. reflexivity. Qed.

(** ** The renderer *)

Lemma create_er_diagram_entries (v : pyval) (es : list str)
  (ents : list Entry) :
  as_entries v = Some (es, ents) ->
  (forallb has_ends ents = true ->
     create_er_diagram v
     = Ok {| comment := lit "ER Diagram";
             body := GraphAttr (lit "rankdir") (lit "LR")
                     :: List.map node_of es
                     ++ List.map edge_of_entry ents |})
  /\ (forallb has_ends ents = false ->
      is_key_error (create_er_diagram v) = true).
Proof.
  intros Hv.
  destruct (as_entries_inv v es ents Hv) as [d [l [-> [E1 [E2 HF]]]]].
  unfold create_er_diagram. cbn [Py.get rbind]. rewrite E1, E2.
  cbn [Py.iter rbind].
  rewrite (rfor_each_ok (List.map PStr es) _
             (fun g x => Graph.add g (Node x x entity_attrs)))
    by reflexivity.
  cbn [rbind].
  match goal with
  | |- context [rfor_each l ?f ?a0] =>
      assert (Hloop :
        (forallb has_ends ents = true ->
         rfor_each l f a0
         = Ok (fold_left (fun g e => Graph.add g (edge_of_entry e)) ents a0))
        /\ (forallb has_ends ents = false ->
            is_key_error (rfor_each l f a0) = true));
      [apply (rfor_each_entries (fun x e => as_entry x = Some e) has_ends
                f (fun g e => Graph.add g (edge_of_entry e)) l ents HF)
      |destruct Hloop as [Hok Herr]]
  end.
  - intros g x e Hx He.
    destruct (as_entry_inv x e Hx) as [dx [-> [Hf [Ht Hr]]]].
    unfold has_ends in He.
    destruct (e_from e) as [f|] eqn:Ef; [|discriminate].
    destruct (e_to e) as [t|] eqn:Et; [|discriminate].
    cbn [Py.getitem Py.get]. rewrite Hf, Ht, Hr. cbn [option_map rbind].
    unfold Graph.edge, edge_of_entry. rewrite Ef, Et. cbn [or_empty].
    now destruct (e_relation e).
  - intros g x e Hx He.
    destruct (as_entry_inv x e Hx) as [dx [-> [Hf [Ht Hr]]]].
    unfold has_ends in He. cbn [Py.getitem]. rewrite Hf, Ht.
    destruct (e_from e) as [f|]; [|reflexivity].
    destruct (e_to e) as [t|]; [discriminate|reflexivity].
  - split; intros H.
    + rewrite (Hok H). cbn [rbind]. rewrite fold_left_add. f_equal.
      rewrite fold_left_add. cbn [comment body Graph.attr Graph.add Graph.new app].
      rewrite List.map_map. reflexivity.
    + apply is_key_error_rbind. now apply Herr.
Qed.

(** ** The synthesizer *)

Lemma generate_sql_schema_entries (v : pyval) (es : list str)
  (ents : list Entry) :
  as_entries v = Some (es, ents) ->
  (forallb has_all_keys ents = true ->
     generate_sql_schema v
     = Ok (Str.join (nl ++ nl)
             (List.map create_table_stmt es
              ++ List.map alter_of_entry ents)))
  /\ (forallb has_all_keys ents = false ->
      is_key_error (generate_sql_schema v) = true).
Proof.
  intros Hv.
  destruct (as_entries_inv v es ents Hv) as [d [l [-> [E1 [E2 HF]]]]].
  unfold generate_sql_schema. cbn [Py.get rbind]. rewrite E1, E2.
  cbn [Py.iter rbind].
  rewrite (rfor_each_ok (List.map PStr es) _
             (fun acc x => acc ++ [create_table_stmt (py_str x)]))
    by reflexivity.
  cbn [rbind].
  match goal with
  | |- context [rfor_each l ?f ?a0] =>
      assert (Hloop :
        (forallb has_all_keys ents = true ->
         rfor_each l f a0
         = Ok (fold_left (fun acc e => acc ++ [alter_of_entry e]) ents a0))
        /\ (forallb has_all_keys ents = false ->
            is_key_error (rfor_each l f a0) = true));
      [apply (rfor_each_entries (fun x e => as_entry x = Some e) has_all_keys
                f (fun acc e => acc ++ [alter_of_entry e]) l ents HF)
      |destruct Hloop as [Hok Herr]]
  end.
  - intros acc x e Hx He.
    destruct (as_entry_inv x e Hx) as [dx [-> [Hf [Ht Hr]]]].
    unfold has_all_keys in He.
    destruct (e_from e) as [f|] eqn:Ef; [|discriminate].
    destruct (e_to e) as [t|] eqn:Et; [|discriminate].
    destruct (e_relation e) as [r|] eqn:Er; [|discriminate].
    cbn [Py.getitem]. rewrite Hf, Ht, Hr. cbn [option_map rbind py_lower].
    unfold alter_of_entry. rewrite Ef, Et, Er. cbn [or_empty].
    now rewrite !py_str_str.
  - intros acc x e Hx He.
    destruct (as_entry_inv x e Hx) as [dx [-> [Hf [Ht Hr]]]].
    unfold has_all_keys in He. cbn [Py.getitem]. rewrite Hf, Ht, Hr.
    destruct (e_from e) as [f|]; [|reflexivity].
    destruct (e_relation e) as [r|]; [|reflexivity].
    destruct (e_to e) as [t|]; [discriminate|reflexivity].
  - split; intros H.
    + rewrite (Hok H). cbn [rbind]. rewrite !fold_left_snoc. cbn [app].
      rewrite List.map_map. do 3 f_equal.
      apply List.map_ext. intros a. now rewrite py_str_str.
    + apply is_key_error_rbind. now apply Herr.
Qed.

Lemma complete_entries_have_all_keys (rs : list Relationship) :
  forallb has_all_keys (List.map to_entry rs) = true
  /\ forallb has_ends (List.map to_entry rs) = true.
Proof. induction rs as [|r rs [IH1 IH2]]; simpl; auto. Qed.

Lemma create_er_diagram_spec (v : pyval) (sp : ERSpec) :
  as_spec v = Some sp -> create_er_diagram v = Ok (diagram_of sp).
Proof.
  intros Hv. apply as_spec_entries in Hv.
  destruct (create_er_diagram_entries v _ _ Hv) as [H _].
  rewrite H by apply complete_entries_have_all_keys.
  unfold diagram_of. now rewrite List.map_map.
Qed.

Lemma nodes_of_diagram (sp : ERSpec) :
  nodes (diagram_of sp) = List.map node_of (entities sp).
Proof.
  unfold nodes, diagram_of. cbn [body filter]. rewrite filter_app.
  assert (H1 : forall l, filter (fun s => match s with
                                         | Node _ _ _ => true
                                         | _ => false
                                         end) (List.map node_of l)
                         = List.map node_of l).
  { induction l as [|x l IH]; simpl; [reflexivity|now rewrite IH]. }
  assert (H2 : forall l, filter (fun s => match s with
                                         | Node _ _ _ => true
                                         | _ => false
                                         end) (List.map edge_of l) = []).
  { induction l as [|x l IH]; simpl; [reflexivity|exact IH]. }
  now rewrite H1, H2, app_nil_r.
Qed.

Lemma edges_of_diagram (sp : ERSpec) :
  edges (diagram_of sp) = List.map edge_of (relationships sp).
Proof.
  unfold edges, diagram_of. cbn [body filter]. rewrite filter_app.
  assert (H1 : forall l, filter (fun s => match s with
                                         | Edge _ _ _ => true
                                         | _ => false
                                         end) (List.map node_of l) = []).
  { induction l as [|x l IH]; simpl; [reflexivity|exact IH]. }
  assert (H2 : forall l, filter (fun s => match s with
                                         | Edge _ _ _ => true
                                         | _ => false
                                         end) (List.map edge_of l)
                         = List.map edge_of l).
  { induction l as [|x l IH]; simpl; [reflexivity|now rewrite IH]. }
  now rewrite H1, H2.
Qed.

Lemma nodes_named_count (name : str) (sp : ERSpec) :
  nodes_named name (diagram_of sp)
  = count_occ (list_eq_dec N.eq_dec) (entities sp) name.
Proof.
  unfold nodes_named, diagram_of. cbn [body filter]. rewrite filter_app.
  rewrite length_app.
  assert (H2 : forall l, filter (fun s => match s with
                                         | Node (PStr n) _ _ => Str.eqb n name
                                         | _ => false
                                         end) (List.map edge_of l) = []).
  { induction l as [|x l IH]; simpl; [reflexivity|exact IH]. }
  rewrite H2. cbn [List.length]. rewrite Nat.add_0_r.
  induction (entities sp) as [|x l IH]; [reflexivity|].
  cbn [List.map filter node_of count_occ]. unfold Str.eqb at 1.
  destruct (list_eq_dec N.eq_dec x name); cbn [List.length]; now rewrite IH.
Qed.

(** C3.  For a specification with distinct entity names the renderer
    returns a diagram whose nodes are one per entity, in the order of the
    entities, each named and labelled by its entity and drawn as a box
    ([shape=box], filled, light blue), so that each entity name has
    exactly one node and no other name has any, and whose edges are one
    arrow per relationship from its [from] to its [to], labelled by its
    relation, in the order of the relationships. *)
Theorem diagram_nodes_and_edges (v : pyval) (sp : ERSpec) :
  as_spec v = Some sp ->
  NoDup (entities sp) ->
  exists g,
    create_er_diagram v = Ok g
    /\ nodes g
       = List.map
           (fun name =>
              Node (PStr name) (PStr name)
                [(lit "shape", lit "box"); (lit "style", lit "filled");
                 (lit "color", lit "lightblue")])
           (entities sp)
    /\ (forall n, In n (nodes g) -> shape_of n = Some (lit "box"))
    /\ (forall name,
          nodes_named name g
          = if in_dec (list_eq_dec N.eq_dec) name (entities sp) then 1
            else 0)
    /\ edges g
       = List.map
           (fun r =>
              Edge (PStr (rel_from r)) (PStr (rel_to r))
                (PStr (rel_relation r)))
           (relationships sp).
Proof.
  intros Hv Hnd. exists (diagram_of sp).
  split; [now apply create_er_diagram_spec|].
  split; [apply nodes_of_diagram|].
  split.
  { intros n Hn. rewrite nodes_of_diagram in Hn.
    apply in_map_iff in Hn as [name [<- _]]. reflexivity. }
  split; [|apply edges_of_diagram].
  intros name. rewrite nodes_named_count.
  destruct (in_dec (list_eq_dec N.eq_dec) name (entities sp)) as [Hin|Hout].
  - apply (proj1 (NoDup_count_occ' (list_eq_dec N.eq_dec) (entities sp)) Hnd).
    exact Hin.
  - now apply count_occ_not_In.
Qed.

(** C8.  A relationship whose [from] or [to] names no entity is drawn like
    any other: the renderer raises nothing and the diagram is the one of
    the specification, with the arrow of that relationship among its
    edges. *)
Theorem dangling_relationship_is_drawn (v : pyval) (sp : ERSpec)
  (r : Relationship) :
  as_spec v = Some sp ->
  In r (relationships sp) ->
  ~ In (rel_from r) (entities sp) \/ ~ In (rel_to r) (entities sp) ->
  create_er_diagram v = Ok (diagram_of sp)
  /\ In (edge_of r) (edges (diagram_of sp)).
Proof.
  intros Hv Hr _. split; [now apply create_er_diagram_spec|].
  rewrite edges_of_diagram. now apply in_map.
Qed.

Lemma edges_of_entries (c : str) (first : dot_stmt) (es : list str)
  (ents : list Entry) :
  edges {| comment := c;
           body := first :: List.map node_of es
                   ++ List.map edge_of_entry ents |}
  = (match first with Edge _ _ _ => [first] | _ => [] end)
    ++ List.map edge_of_entry ents.
Proof.
  unfold edges. cbn [body filter]. rewrite filter_app.
  assert (H1 : forall l, filter (fun s => match s with
                                         | Edge _ _ _ => true
                                         | _ => false
                                         end) (List.map node_of l) = []).
  { induction l as [|x l IH]; simpl; [reflexivity|exact IH]. }
  assert (H2 : forall l, filter (fun s => match s with
                                         | Edge _ _ _ => true
                                         | _ => false
                                         end) (List.map edge_of_entry l)
                         = List.map edge_of_entry l).
  { induction l as [|x l IH]; simpl; [reflexivity|now rewrite IH]. }
  rewrite H1, H2. now destruct first.
Qed.

Lemma lacking_relation_lacks_a_key (ents : list Entry) :
  existsb lacks_relation ents = true -> forallb has_all_keys ents = false.
Proof.
  induction ents as [|e ents IH]; simpl; [discriminate|].
  intros H. apply orb_true_iff in H as [H|H].
  - unfold lacks_relation in H. unfold has_all_keys.
    destruct (e_relation e); [discriminate|].
    now destruct (e_from e), (e_to e).
  - rewrite (IH H). apply andb_false_r.
Qed.

Lemma lacking_end_lacks_a_key (ents : list Entry) :
  forallb has_ends ents = false -> forallb has_all_keys ents = false.
Proof.
  induction ents as [|e ents IH]; simpl; [discriminate|].
  intros H. apply andb_false_iff in H as [H|H].
  - unfold has_ends in H. unfold has_all_keys.
    destruct (e_from e), (e_to e); try discriminate; reflexivity.
  - rewrite (IH H). apply andb_false_r.
Qed.

(** C9.  Take a specification whose relationship entries may lack keys.
    When an entry lacks [relation], the synthesizer raises [KeyError]; the
    renderer, provided every entry has its [from] and [to], returns the
    diagram with one edge per entry, the edge of an entry without
    [relation] carrying the empty label.  When an entry lacks [from] or
    [to], the renderer and the synthesizer both raise [KeyError]. *)
Theorem missing_relation_key (v : pyval) (es : list str) (ents : list Entry) :
  as_entries v = Some (es, ents) ->
  (existsb lacks_relation ents = true ->
     is_key_error (generate_sql_schema v) = true
     /\ (forallb has_ends ents = true ->
         exists g,
           create_er_diagram v = Ok g
           /\ edges g = List.map edge_of_entry ents
           /\ (forall e, In e ents -> lacks_relation e = true ->
                 In (Edge (PStr (or_empty (e_from e)))
                          (PStr (or_empty (e_to e))) (PStr []))
                    (edges g))))
  /\ (forallb has_ends ents = false ->
      is_key_error (create_er_diagram v) = true
      /\ is_key_error (generate_sql_schema v) = true).
Proof.
  intros Hv.
  destruct (create_er_diagram_entries v es ents Hv) as [Hdraw Hdraw_err].
  destruct (generate_sql_schema_entries v es ents Hv) as [_ Hsql_err].
  split.
  - intros Hlack. split.
    + apply Hsql_err. now apply lacking_relation_lacks_a_key.
    + intros Hends. eexists. split; [exact (Hdraw Hends)|].
      rewrite edges_of_entries. cbn [app]. split; [reflexivity|].
      intros e He Hrel.
      replace (Edge (PStr (or_empty (e_from e))) (PStr (or_empty (e_to e)))
                    (PStr []))
        with (edge_of_entry e).
      * now apply in_map.
      * unfold edge_of_entry, lacks_relation in *.
        now destruct (e_relation e).
  - intros Hends. split.
    + now apply Hdraw_err.
    + apply Hsql_err. now apply lacking_end_lacks_a_key.
Qed.

(** C2.  The schema text is a function of the specification: two Python
    values that are the same specification give the same text.  The text
    is the statements joined by an empty line: one [CREATE TABLE] per
    entity, with an integer key column and a name column, in the order of
    the entities, then one [ALTER TABLE] per relationship in the order of
    the relationships, which adds to the [from] table a column named by
    the lower-cased [to] entity followed by [_id], referencing the [id] of
    the [to] table, under a comment that names the relation.  For Customer
    places Order this is the statement the spec quotes. *)
Theorem schema_text_in_order (v v' : pyval) (sp : ERSpec) :
  as_spec v = Some sp ->
  as_spec v' = Some sp ->
  generate_sql_schema v = Ok (schema_of sp)
  /\ generate_sql_schema v' = generate_sql_schema v
  /\ schema_of sp
     = Str.join (nl ++ nl)
         (List.map
            (fun e => lit "CREATE TABLE " ++ e ++ lit " (" ++ nl
                      ++ lit "    id INT PRIMARY KEY," ++ nl
                      ++ lit "    name VARCHAR(100)" ++ nl ++ lit ");")
            (entities sp)
          ++ List.map
               (fun r => lit "-- " ++ rel_from r ++ lit " " ++ rel_relation r
                         ++ lit " " ++ rel_to r ++ nl
                         ++ lit "ALTER TABLE " ++ rel_from r
                         ++ lit " ADD COLUMN " ++ str_lower (rel_to r)
                         ++ lit "_id INT REFERENCES " ++ rel_to r
                         ++ lit "(id);")
               (relationships sp))
  /\ alter_of {| rel_from := lit "Customer"; rel_to := lit "Order";
                 rel_relation := lit "places" |}
     = lit "-- Customer places Order" ++ nl
       ++ lit "ALTER TABLE Customer ADD COLUMN order_id INT REFERENCES Order(id);".
Proof.
  intros Hv Hv'.
  assert (Hgen : forall u, as_spec u = Some sp ->
                           generate_sql_schema u = Ok (schema_of sp)).
  { intros u Hu. apply as_spec_entries in Hu.
    destruct (generate_sql_schema_entries u _ _ Hu) as [H _].
    rewrite H by apply complete_entries_have_all_keys.
    unfold schema_of. now rewrite List.map_map. }
  split; [now apply Hgen|].
  split; [now rewrite (Hgen v Hv), (Hgen v' Hv')|].
  split; [reflexivity|].
  unfold alter_of. cbn [rel_from rel_to rel_relation].
  rewrite str_lower_ascii by reflexivity. reflexivity.
Qed.

(* ================================================================== *)
(** * More on the normalizers *)
(* ================================================================== *)

(** Before the first fence there is no fence, even with two more
    backquotes behind. *)
Lemma partition_piece_clean (s a b : str) :
  Str.partition fence s = Some (a, b) ->
  Str.contains (a ++ [96; 96]%N) fence = false.
Proof.
  revert a b; induction s as [|c s IH]; intros a b;
    rewrite partition_unfold.
  - rewrite fence_value. cbn [Str.startswith]. discriminate.
  - destruct (Str.startswith (c :: s) fence) eqn:Hs.
    + intros H. injection H as <- _. reflexivity.
    + destruct (Str.partition fence s) as [[x y]|] eqn:E; [|discriminate].
      intros H. injection H as <- <-.
      cbn [app Str.contains]. rewrite (IH x y eq_refl), orb_false_r.
      destruct (Str.startswith (c :: x ++ [96; 96]%N) fence) eqn:Hp;
        [|reflexivity].
      apply (startswith_app _ _ ([96%N] ++ y)) in Hp.
      apply partition_app in E.
      replace ((c :: x ++ [96; 96]%N) ++ [96%N] ++ y) with (c :: s) in Hp.
      * congruence.
      * rewrite E, fence_value. cbn [app]. rewrite <- app_assoc. reflexivity.
Qed.

(** Text without a fence stays without one when it is put behind a piece
    that came before a fence. *)
Lemma contains_glue (a r : str) :
  Str.contains (a ++ [96; 96]%N) fence = false ->
  Str.contains r fence = false ->
  Str.contains (a ++ r) fence = false.
Proof.
  intros Ha Hr. induction a as [|c a IH]; [exact Hr|].
  cbn [app Str.contains] in *. apply orb_false_iff in Ha as [Hs Ha].
  rewrite (IH Ha), orb_false_r.
  rewrite fence_value in *.
  destruct a as [|d [|e a]]; cbn [app Str.startswith] in *.
  - destruct (N.eqb 96 c); [discriminate|reflexivity].
  - destruct (N.eqb 96 c); [|reflexivity].
    destruct (N.eqb 96 d); [discriminate|reflexivity].
  - exact Hs.
Qed.

Lemma replace_fence_clean (n : nat) (s : str) :
  List.length s <= n ->
  Str.contains (Str.replace_upto n fence [] s) fence = false.
Proof.
  revert s; induction n as [|n IH]; intros s Hn; cbn [Str.replace_upto];
    destruct (Str.partition fence s) as [[a b]|] eqn:E;
    try (now apply partition_none_contains).
  - destruct s; [|simpl in Hn; lia].
    rewrite (partition_nil fence fence_not_nil) in E. discriminate.
  - cbn [app]. apply contains_glue.
    + exact (partition_piece_clean s a b E).
    + apply IH. apply partition_length in E.
      rewrite fence_value in E. simpl in E. lia.
Qed.

(** The JSON decoder is never handed a fence marker. *)
Theorem clean_json_text_has_no_fence (text : str) :
  Str.contains (clean_json_text text) fence = false.
Proof.
  unfold clean_json_text, Str.replace at 1.
  change (lit "```") with fence. now apply replace_fence_clean.
Qed.

Lemma contains_skipn (n : nat) (s p : str) :
  Str.contains s p = false -> Str.contains (skipn n s) p = false.
Proof.
  intros H. rewrite <- (firstn_skipn n s) in H.
  now apply contains_app_false in H.
Qed.

Lemma strip_fence_clean (text content : str) :
  strip_fence text = Ok content ->
  Str.contains content fence = false /\ Str.strip content = content.
Proof.
  unfold strip_fence.
  destruct (Str.contains (Str.strip text) fence) eqn:Hc.
  - destruct (contains_partition _ _ Hc) as [a [b E]].
    rewrite (split_second fence _ a b fence_not_nil E). unfold rbind.
    assert (Hpiece : Str.contains
                       (match Str.partition fence b with
                        | Some (a', _) => a'
                        | None => b
                        end) fence = false).
    { destruct (Str.partition fence b) as [[a' b']|] eqn:Eb.
      - pose proof (partition_piece_clean b a' b' Eb) as H.
        now apply contains_app_false in H.
      - now apply partition_none_contains. }
    intros H. apply Ok_inj in H. subst content.
    split; [|apply strip_idem]. apply contains_strip.
    destruct (Str.startswith _ (lit "dot")); [|exact Hpiece].
    now apply contains_skipn.
  - unfold rbind. intros H. apply Ok_inj in H. subst content.
    split; [|apply strip_idem]. now apply contains_strip.
Qed.

(** The markup normalizer returns on every text, and the DOT text it
    returns holds no fence marker and has no white space around it, so
    that normalizing it again changes nothing. *)
Theorem strip_fence_output_is_clean (text : str) :
  exists content,
    strip_fence text = Ok content
    /\ Str.contains content fence = false
    /\ Str.strip content = content
    /\ strip_fence content = Ok content.
Proof.
  destruct (strip_fence_total text) as [content H].
  exists content. split; [exact H|].
  destruct (strip_fence_clean text content H) as [Hclean Hstrip].
  repeat split; try assumption.
  now rewrite (strip_fence_plain content Hclean), Hstrip.
Qed.

(** ** Prose around the fenced block *)

Lemma lstrip_app_visible (a r : str) (c : N) :
  Str.isspace c = false ->
  Str.lstrip (a ++ c :: r) = Str.lstrip a ++ c :: r.
Proof.
  intros Hc. induction a as [|d a IH]; cbn [app Str.lstrip].
  - now rewrite Hc.
  - destruct (Str.isspace d); [exact IH|reflexivity].
Qed.

Lemma rstrip_app_visible (u b : str) (c : N) :
  Str.isspace c = false ->
  Str.rstrip ((u ++ [c]) ++ b) = (u ++ [c]) ++ Str.rstrip b.
Proof.
  intros Hc. unfold Str.rstrip.
  rewrite rev_app_distr, rev_unit, (lstrip_app_visible (rev b) (rev u) c Hc).
  rewrite rev_app_distr. cbn [rev]. now rewrite rev_involutive.
Qed.

Lemma fenced_shape (tag x : str) :
  fenced tag x
  = (96 :: ([96; 96] ++ tag ++ nl ++ x ++ nl ++ [96; 96]) ++ [96])%N.
Proof.
  unfold fenced. rewrite fence_value. cbn [app].
  rewrite <- !app_assoc. reflexivity.
Qed.

(** Trimming stops at the fences. *)
Lemma strip_around_fenced (pre post tag x : str) :
  Str.strip (pre ++ fenced tag x ++ post)
  = Str.lstrip pre ++ fenced tag x ++ Str.rstrip post.
Proof.
  unfold Str.strip. rewrite fenced_shape.
  set (m := ([96; 96] ++ tag ++ nl ++ x ++ nl ++ [96; 96])%N).
  cbn [app]. rewrite (lstrip_app_visible pre _ 96%N eq_refl).
  replace (Str.lstrip pre ++ 96%N :: (m ++ [96%N]) ++ post)
    with (((Str.lstrip pre ++ 96%N :: m) ++ [96%N]) ++ post).
  - rewrite (rstrip_app_visible _ post 96%N eq_refl).
    rewrite <- !app_assoc. cbn [app]. rewrite <- ?app_assoc. reflexivity.
  - rewrite <- !app_assoc. cbn [app]. rewrite <- ?app_assoc. reflexivity.
Qed.

Lemma partition_at_fence (r : str) :
  Str.partition fence (fence ++ r) = Some ([], r).
Proof. rewrite fence_value. reflexivity. Qed.

Lemma partition_after_plain (a r : str) :
  ~ In 96%N a -> Str.partition fence (a ++ fence ++ r) = Some (a, r).
Proof.
  intros Ha. induction a as [|c a IH]; [apply partition_at_fence|].
  rewrite partition_unfold.
  assert (Hc : N.eqb 96 c = false).
  { apply N.eqb_neq. intros <-. apply Ha. now left. }
  assert (Hs : Str.startswith ((c :: a) ++ fence ++ r) fence = false).
  { rewrite fence_value. cbn [app Str.startswith]. now rewrite Hc. }
  rewrite Hs. cbn [app]. rewrite IH; [reflexivity|].
  intros Hin. apply Ha. now right.
Qed.

(** The closing fence is found where it stands, whatever follows it. *)
Lemma partition_fenced_body_then (tag x post : str) :
  Str.partition fence tag = None -> Str.contains x fence = false ->
  Str.partition fence (tag ++ nl ++ x ++ nl ++ fence ++ post)
  = Some (tag ++ nl ++ x ++ nl, post).
Proof.
  intros Htag Hx. apply partition_none_contains in Hx.
  unfold nl. cbn [app].
  rewrite (partition_cut fence tag _ 10%N newline_not_in_fence fence_not_nil).
  rewrite Htag.
  rewrite (partition_cut fence x _ 10%N newline_not_in_fence fence_not_nil).
  rewrite Hx, partition_at_fence. reflexivity.
Qed.

(** A response that wraps the fenced block in prose is normalized to the
    content of the block: what stands before the opening fence, when it
    has no backquote, and whatever stands after the closing fence are
    dropped. *)
Theorem strip_fence_drops_prose (pre post tag x : str) :
  ~ In 96%N pre ->
  tag = [] \/ tag = lit "dot" ->
  Str.contains x fence = false ->
  strip_fence (pre ++ fenced tag x ++ post) = Ok (Str.strip x).
Proof.
  intros Hpre Htag Hx. unfold strip_fence. rewrite strip_around_fenced.
  assert (Hpre' : ~ In 96%N (Str.lstrip pre)).
  { destruct (lstrip_suffix pre) as [ws [E _]]. intros Hin. apply Hpre.
    rewrite E. apply in_or_app. now right. }
  assert (Hp : Str.partition fence
                 (Str.lstrip pre ++ fenced tag x ++ Str.rstrip post)
               = Some (Str.lstrip pre,
                       tag ++ nl ++ x ++ nl ++ fence ++ Str.rstrip post)).
  { unfold fenced. rewrite <- !app_assoc.
    now apply partition_after_plain. }
  assert (Hc : Str.contains
                 (Str.lstrip pre ++ fenced tag x ++ Str.rstrip post) fence
               = true).
  { destruct (Str.contains
                (Str.lstrip pre ++ fenced tag x ++ Str.rstrip post) fence)
      eqn:Hc; [reflexivity|].
    apply partition_none_contains in Hc. congruence. }
  rewrite Hc, (split_second fence _ _ _ fence_not_nil Hp).
  rewrite partition_fenced_body_then;
    [|destruct Htag as [->| ->]; reflexivity|exact Hx].
  cbn [rbind]. destruct Htag as [->| ->].
  - replace (Str.startswith ([] ++ nl ++ x ++ nl) (lit "dot"))
      with false by reflexivity.
    change ([] ++ nl ++ x ++ nl) with (nl ++ x ++ nl).
    now rewrite strip_between_newlines.
  - replace (Str.startswith (lit "dot" ++ nl ++ x ++ nl) (lit "dot"))
      with true by reflexivity.
    replace (skipn 3 (lit "dot" ++ nl ++ x ++ nl)) with (nl ++ x ++ nl)
      by reflexivity.
    now rewrite strip_between_newlines.
Qed.

(* ================================================================== *)
(** * Accounts *)
(* ================================================================== *)

Lemma str_eqb_eq (a b : str) : Str.eqb a b = true <-> a = b.
Proof.
  unfold Str.eqb. destruct (list_eq_dec N.eq_dec a b); split; congruence.
Qed.

Lemma str_eqb_refl (a : str) : Str.eqb a a = true.
Proof. now apply str_eqb_eq. Qed.

Lemma email_taken_spec (t : tables) (email : str) :
  email_taken t email = true <-> In email (List.map u_email (users t)).
Proof.
  unfold email_taken. rewrite existsb_exists, in_map_iff.
  split; intros [u [H1 H2]]; exists u.
  - apply str_eqb_eq in H2. now split.
  - split; [exact H2|]. now apply str_eqb_eq.
Qed.

(** Among rows with distinct emails, the query finds the row. *)
Lemma find_unique_email (l : list user_row) (u : user_row) :
  NoDup (List.map u_email l) -> In u l ->
  find (fun x => Str.eqb (u_email x) (u_email u)) l = Some u.
Proof.
  induction l as [|x l IH]; intros Hnd Hin; [contradiction|].
  cbn [find]. inversion Hnd as [|? ? Hx Hl]; subst.
  destruct Hin as [->|Hin].
  - now rewrite str_eqb_refl.
  - destruct (Str.eqb (u_email x) (u_email u)) eqn:E.
    + apply str_eqb_eq in E. exfalso. apply Hx. rewrite E.
      now apply in_map.
    + now apply IH.
Qed.

Lemma find_some_in (l : list user_row) (email : str) (u : user_row) :
  find (fun x => Str.eqb (u_email x) email) l = Some u ->
  In u l /\ u_email u = email.
Proof.
  intros H. apply find_some in H as [H1 H2].
  split; [exact H1|]. now apply str_eqb_eq.
Qed.

Ltac run_auth :=
  unfold login_submit, logout_click, authenticate_user, select_user,
    get_connection, psycopg2_connect, close, current_txn, faulty, set_pg,
    set_txn, set_session, st, st_error_exn, try_except, bind, gets, emit,
    modify, ret, raise;
  cbn [fst snd ui sess pg committed txn next_user_id next_project_id
       next_log_id commits users projects logs logged_in user_id last_dot].

(** What [authenticate_user] does, by what goes wrong. *)
Lemma authenticate_user_run (email password : str) (w : world) :
  authenticate_user email password w =
  match db_fault Connect with
  | Some e =>
      (Ok None,
       {| ui := ui w ++ [StErrorExn (lit "DB Error: ") e];
          sess := sess w; pg := pg w |})
  | None =>
      match query_fault with
      | Some e =>
          (Err e,
           {| ui := ui w; sess := sess w;
              pg := set_txn (Some (committed (pg w))) (pg w) |})
      | None =>
          (Ok match find (fun u => Str.eqb (u_email u) email)
                      (users (committed (pg w))) with
              | Some u =>
                  if Str.eqb (u_password_hash u) (hash_password password)
                  then Some (u_id u) else None
              | None => None
              end,
           {| ui := ui w; sess := sess w; pg := set_txn None (pg w) |})
      end
  end.
Proof.
  run_auth.
  destruct (db_fault Connect); [reflexivity|].
  destruct query_fault; [reflexivity|].
  cbn [fst snd pg txn committed users].
  destruct (find _ (users (committed (pg w)))) as [u|]; [|reflexivity].
  now destruct (Str.eqb (u_password_hash u) (hash_password password)).
Qed.

(** [authenticate_user] returns an id only for a stored row with this
    email, this id and the hash of this password. *)
Theorem authenticate_user_is_sound (email password : str) (w : world)
  (id : Z) :
  fst (authenticate_user email password w) = Ok (Some id) ->
  exists u,
    In u (users (committed (pg w)))
    /\ credentials_match u email password
    /\ u_id u = id.
Proof.
  rewrite authenticate_user_run.
  destruct (db_fault Connect); [discriminate|].
  destruct query_fault; [discriminate|]. cbn [fst].
  destruct (find _ (users (committed (pg w)))) as [u|] eqn:E; [|discriminate].
  destruct (Str.eqb (u_password_hash u) (hash_password password)) eqn:Eh;
    [|discriminate].
  intros H. apply Ok_inj in H. injection H as <-.
  apply find_some_in in E as [Hin Hmail]. apply str_eqb_eq in Eh.
  exists u. repeat split; assumption.
Qed.

(** With distinct emails and no fault, the right password gives the id of
    the account and a password with another hash gives [None]. *)
Theorem authenticate_user_finds_account (password other : str) (w : world)
  (u : user_row) :
  db_fault Connect = None ->
  query_fault = None ->
  NoDup (List.map u_email (users (committed (pg w)))) ->
  In u (users (committed (pg w))) ->
  u_password_hash u = hash_password password ->
  hash_password other <> hash_password password ->
  fst (authenticate_user (u_email u) password w) = Ok (Some (u_id u))
  /\ fst (authenticate_user (u_email u) other w) = Ok None.
Proof.
  intros Hc Hq Hnd Hin Hh Hother.
  rewrite !authenticate_user_run, Hc, Hq. cbn [fst].
  rewrite (find_unique_email _ u Hnd Hin), Hh, str_eqb_refl.
  split; [reflexivity|].
  destruct (Str.eqb (hash_password password) (hash_password other)) eqn:E;
    [|reflexivity].
  apply str_eqb_eq in E. congruence.
Qed.

(** [authenticate_user] only reads: the committed tables, the sequences,
    the count of commits and the session are what they were, whatever goes
    wrong. *)
Theorem authenticate_user_only_reads (email password : str) (w : world) :
  let after := snd (authenticate_user email password w) in
  committed (pg after) = committed (pg w)
  /\ commits (pg after) = commits (pg w)
  /\ next_user_id (pg after) = next_user_id (pg w)
  /\ next_project_id (pg after) = next_project_id (pg w)
  /\ next_log_id (pg after) = next_log_id (pg w)
  /\ sess after = sess w.
Proof.
  cbv zeta. rewrite authenticate_user_run.
  destruct (db_fault Connect); [|destruct query_fault];
    repeat split; reflexivity.
Qed.

(** [authenticate_user] closes its connection when the query returns; when
    the query raises, the exception leaves the function and the connection
    stays open. *)
Theorem authenticate_user_leaves_connection_open (email password : str)
  (w : world) :
  db_fault Connect = None ->
  (query_fault = None ->
     (exists v, fst (authenticate_user email password w) = Ok v)
     /\ txn (pg (snd (authenticate_user email password w))) = None)
  /\ (forall e, query_fault = Some e ->
        fst (authenticate_user email password w) = Err e
        /\ txn (pg (snd (authenticate_user email password w)))
           = Some (committed (pg w))).
Proof.
  intros Hc. rewrite authenticate_user_run, Hc. split.
  - intros ->. split; [eexists; reflexivity|reflexivity].
  - intros e ->. split; reflexivity.
Qed.

(** The two ways [create_user] ends. *)
Lemma create_user_run (email password : str) (w : world) :
  let run := create_user email password w in
  let p := pg w in
  let q := pg (snd run) in
  (fst run = Ok true
   /\ db_fault Connect = None
   /\ email_taken (committed p) email = false
   /\ committed q
      = signed_up (committed p) (next_user_id p) (next_project_id p)
          email password
   /\ next_user_id q = (next_user_id p + 1)%Z
   /\ next_project_id q = (next_project_id p + 1)%Z)
  \/ (fst run = Ok false
      /\ (db_fault Connect = None -> no_db_fault = true ->
          email_taken (committed p) email = true)
      /\ committed q = committed p
      /\ (next_user_id p <= next_user_id q)%Z
      /\ (next_project_id p <= next_project_id q)%Z).
Proof.
  clear generate_content elapsed json_loads json_dumps py_str_str py_str
    str_lower_ascii str_lower graphviz_chart query_fault.
  cbv zeta. unfold no_db_fault, email_taken. run_db.
  destruct (db_fault Connect) as [e1|]; cbn [fst snd pg committed commits txn].
  { right. repeat split; try lia; discriminate. }
  destruct (db_fault InsertUser) as [e2|];
    cbn [fst snd pg committed commits txn next_user_id next_project_id users
         projects logs].
  { right. repeat split; try lia; discriminate. }
  destruct (existsb (fun u => Str.eqb (u_email u) email)
              (users (committed (pg w)))) eqn:Htaken;
    cbn [fst snd pg committed commits txn next_user_id next_project_id users
         projects logs].
  { right. repeat split; try lia. }
  destruct (db_fault InsertProject) as [e3|];
    cbn [fst snd pg committed commits txn next_user_id next_project_id users
         projects logs].
  { right. repeat split; try lia; discriminate. }
  destruct (db_fault Commit) as [e4|];
    cbn [fst snd pg committed commits txn next_user_id next_project_id users
         projects logs].
  { right. repeat split; try lia; discriminate. }
  left. repeat split.
Qed.

Lemma find_app_new (l : list user_row) (u : user_row) :
  email_taken {| users := l; projects := []; logs := [] |} (u_email u)
  = false ->
  find (fun x => Str.eqb (u_email x) (u_email u)) (l ++ [u]) = Some u.
Proof.
  unfold email_taken. cbn [users]. induction l as [|x l IH]; cbn [existsb].
  - intros _. cbn [app find]. now rewrite str_eqb_refl.
  - intros H. apply orb_false_iff in H as [Hx Hl].
    cbn [app find]. rewrite Hx. now apply IH.
Qed.


(** [create_user] keeps the accounts sound, whether it succeeds or fails:
    emails stay unique, ids stay below their sequences, and every project
    keeps an owner among the users. *)
Theorem create_user_keeps_accounts_ok (email password : str) (w : world) :
  accounts_ok (pg w) ->
  accounts_ok (pg (snd (create_user email password w))).
Proof.
  intros [Hnd [Hids Hproj]]. unfold accounts_ok.
  destruct (create_user_run email password w)
    as [[_ [_ [Hfree [Hcom [Hu Hp]]]]]|[_ [_ [Hsame [Hu Hp]]]]].
  - rewrite Hcom, Hu, Hp. cbn [signed_up users projects]. repeat split.
    + rewrite List.map_app. cbn [List.map u_email].
      apply NoDup_app; [exact Hnd|repeat constructor; intros []|].
      intros x Hx [<-|[]].
      apply email_taken_spec in Hx. congruence.
    + intros u Hin. apply in_app_or in Hin as [Hin|[<-|[]]].
      * specialize (Hids u Hin). lia.
      * cbn [u_id]. lia.
    + apply in_app_or in H as [Hin|[<-|[]]].
      * destruct (Hproj r Hin) as [Hlt _]. lia.
      * cbn [p_id]. lia.
    + apply in_app_or in H as [Hin|[<-|[]]].
      * destruct (Hproj r Hin) as [_ [u [Hu1 Hu2]]].
        exists u. split; [apply in_or_app; now left|exact Hu2].
      * eexists. split; [apply in_or_app; right; now left|reflexivity].
  - rewrite Hsame. repeat split.
    + exact Hnd.
    + intros u Hin. specialize (Hids u Hin). lia.
    + destruct (Hproj r H) as [Hlt _]. lia.
    + destruct (Hproj r H) as [_ Hex]. exact Hex.
Qed.

(* ================================================================== *)
(** * Logging in and out *)
(* ================================================================== *)

Lemma create_user_keeps_session (email password : str) (w : world) :
  sess (snd (create_user email password w)) = sess w.
Proof.
  run_db.
  destruct (db_fault Connect); [reflexivity|].
  destruct (db_fault InsertUser); [reflexivity|].
  cbn [fst snd pg committed txn users sess].
  destruct (existsb _ (users (committed (pg w)))); [reflexivity|].
  destruct (db_fault InsertProject); [reflexivity|].
  destruct (db_fault Commit); reflexivity.
Qed.

(** What [login_submit] does, by the verdict of [authenticate_user]. *)
Lemma login_submit_run (email password : str) (w : world) :
  login_submit email password w =
  let a := authenticate_user email password w in
  let refused :=
    (Ok Continue,
     {| ui := ui (snd a) ++ [St st_error (lit "Invalid credentials")];
        sess := sess (snd a); pg := pg (snd a) |}) in
  match fst a with
  | Ok (Some id) =>
      if Z.eqb id 0 then refused
      else (Ok Rerun,
            {| ui := ui (snd a);
               sess := signed_in id (last_dot (sess (snd a)));
               pg := pg (snd a) |})
  | Ok None => refused
  | Err e => (Err e, snd a)
  end.
Proof.
  unfold login_submit. unfold bind at 1.
  destruct (authenticate_user email password w) as [[[id|]|e] w1];
    cbn [fst snd]; try reflexivity.
  destruct (Z.eqb id 0); reflexivity.
Qed.

(** Logging in changes the session only when it succeeds, and it succeeds
    only for a stored row with this email, the hash of this password and an
    id other than 0; the session then carries that id and keeps its
    diagram. *)
Theorem login_is_sound (email password : str) (w : world) :
  let run := login_submit email password w in
  (fst run = Ok Rerun ->
     exists u,
       In u (users (committed (pg w)))
       /\ credentials_match u email password
       /\ u_id u <> 0%Z
       /\ sess (snd run) = signed_in (u_id u) (last_dot (sess w)))
  /\ (fst run <> Ok Rerun -> sess (snd run) = sess w).
Proof.
  cbv zeta. rewrite login_submit_run. cbv zeta.
  rewrite authenticate_user_run.
  destruct (db_fault Connect); cbn [fst snd sess].
  { split; [discriminate|reflexivity]. }
  destruct query_fault; cbn [fst snd sess].
  { split; [discriminate|reflexivity]. }
  destruct (find _ (users (committed (pg w)))) as [u|] eqn:Hfind;
    [|split; [discriminate|reflexivity]].
  destruct (Str.eqb (u_password_hash u) (hash_password password)) eqn:Hh;
    [|split; [discriminate|reflexivity]].
  destruct (Z.eqb (u_id u) 0) eqn:Hz; cbn [fst snd sess].
  { split; [discriminate|reflexivity]. }
  split; [|congruence]. intros _.
  destruct (find_some_in _ _ _ Hfind) as [Hin He].
  exists u. repeat split.
  - exact Hin.
  - exact He.
  - now apply str_eqb_eq.
  - now apply Z.eqb_neq.
Qed.

(** A user whose id is 0 cannot log in: [if uid:] takes the id for a
    failure, and the page answers Invalid credentials to the right
    password. *)
Theorem user_zero_cannot_log_in (password : str) (w : world) (u : user_row) :
  db_fault Connect = None ->
  query_fault = None ->
  NoDup (List.map u_email (users (committed (pg w)))) ->
  In u (users (committed (pg w))) ->
  u_password_hash u = hash_password password ->
  u_id u = 0%Z ->
  login_submit (u_email u) password w
  = (Ok Continue,
     {| ui := ui w ++ [St st_error (lit "Invalid credentials")];
        sess := sess w;
        pg := set_txn None (pg w) |}).
Proof.
  intros Hc Hq Hnd Hin Hh Hzero.
  rewrite login_submit_run. cbv zeta.
  rewrite authenticate_user_run, Hc, Hq. cbn [fst snd ui sess pg].
  rewrite (find_unique_email _ u Hnd Hin), Hh, str_eqb_refl, Hzero.
  reflexivity.
Qed.

(** Logging out forgets the user and the diagram, and the page that
    follows shows the welcome text only: it sends nothing to the model and
    leaves the database alone, whatever the buttons and the description. *)
Theorem logout_locks_the_page (wd : widgets) (w : world) :
  logout_click w
  = (Ok Rerun, {| ui := ui w; sess := signed_out; pg := pg w |})
  /\ app_main wd (snd (logout_click w))
     = (Ok tt,
        {| ui := ui w ++ [St st_title (lit "Welcome to AutoERGen");
                          St st_write (lit "Please log in to continue.")];
           sess := signed_out;
           pg := pg w |}).
Proof.
  split; [reflexivity|].
  unfold logout_click, app_main, st, set_session, bind, gets, emit, modify,
    ret.
  cbn [fst snd ui sess pg logged_in]. now rewrite <- app_assoc.
Qed.

(* ================================================================== *)
(** * Generating a diagram in app.py and logging it *)
(* ================================================================== *)

Ltac run_generate :=
  unfold app_generate, get_connection, psycopg2_connect, insert_log, commit,
    close, current_txn, faulty, set_pg, set_txn, set_session, st_error_exn,
    try_except, bind, gets, emit, modify, lift, ret, raise;
  cbn [fst snd ui sess pg committed txn next_user_id next_project_id
       next_log_id commits users projects logs logged_in user_id last_dot].

(** The generate branch after the model answered [text] and the text was
    normalized to [dot]: what each step of the logging leaves. *)
Lemma app_generate_run (wd : widgets) (w : world) (text dot : str) :
  generate_clicked wd = true ->
  Str.truthy (Str.strip (description wd)) = true ->
  generate_content (dot_request (description wd)) = Ok (Some text) ->
  text <> [] ->
  strip_fence text = Ok dot ->
  app_generate wd w =
  let sent := ui w ++ [LLMCall (dot_request (description wd))] in
  let s1 := {| logged_in := logged_in (sess w); user_id := user_id (sess w);
               last_dot := Some dot |} in
  let p := pg w in
  let t := committed p in
  let failed e := sent ++ [StErrorExn (lit "Error calling Gemini: ") e] in
  match db_fault Connect with
  | Some e =>
      (Ok tt, {| ui := sent ++ [StErrorExn (lit "DB Error: ") e];
                 sess := s1; pg := p |})
  | None =>
      match db_fault InsertLog with
      | Some e =>
          (Ok tt, {| ui := failed e; sess := s1;
                     pg := set_txn (Some t) p |})
      | None =>
          match match user_id (sess w) with
                | Some uid => first_project t uid
                | None => None
                end with
          | Some proj =>
              let t1 :=
                {| users := users t; projects := projects t;
                   logs := logs t ++
                     [log_of (next_log_id p) (p_id proj) (description wd) dot
                        (elapsed (dot_request (description wd)))] |} in
              match db_fault Commit with
              | Some e =>
                  (Ok tt,
                   {| ui := failed e; sess := s1;
                      pg := {| committed := t; txn := Some t1;
                               next_user_id := next_user_id p;
                               next_project_id := next_project_id p;
                               next_log_id := next_log_id p + 1;
                               commits := commits p |} |})
              | None =>
                  (Ok tt,
                   {| ui := sent; sess := s1;
                      pg := {| committed := t1; txn := None;
                               next_user_id := next_user_id p;
                               next_project_id := next_project_id p;
                               next_log_id := next_log_id p + 1;
                               commits := S (commits p) |} |})
              end
          | None =>
              match db_fault Commit with
              | Some e =>
                  (Ok tt, {| ui := failed e; sess := s1;
                             pg := set_txn (Some t) p |})
              | None =>
                  (Ok tt,
                   {| ui := sent; sess := s1;
                      pg := {| committed := t; txn := None;
                               next_user_id := next_user_id p;
                               next_project_id := next_project_id p;
                               next_log_id := next_log_id p;
                               commits := S (commits p) |} |})
              end
          end
      end
  end.
Proof.
  intros Hclick Hdesc Hanswer Htext Hdot.
  unfold app_generate. rewrite Hclick, Hdesc. cbn [andb].
  unfold try_except at 1. unfold bind at 1.
  rewrite call_gemini_for_dot_run, Hanswer.
  destruct text as [|c text]; [congruence|]. rewrite Hdot.
  cbv zeta. unfold first_project, log_of. run_generate.
  destruct (db_fault Connect); [reflexivity|].
  cbn [fst snd ui sess pg committed txn next_user_id next_project_id
       next_log_id commits users projects logs logged_in user_id last_dot].
  destruct (db_fault InsertLog); [reflexivity|].
  cbn [fst snd ui sess pg committed txn next_user_id next_project_id
       next_log_id commits users projects logs logged_in user_id last_dot].
  destruct (user_id (sess w)) as [uid|].
  - destruct (find _ (projects (committed (pg w)))) as [proj|];
      cbn [fst snd ui sess pg committed txn next_user_id next_project_id
           next_log_id commits users projects logs logged_in user_id last_dot];
      destruct (db_fault Commit); reflexivity.
  - cbn [fst snd ui sess pg committed txn next_user_id next_project_id
         next_log_id commits users projects logs logged_in user_id last_dot].
    destruct (db_fault Commit); reflexivity.
Qed.

Lemma app_generate_failed (wd : widgets) (w : world) (e : exn) :
  generate_clicked wd = true ->
  Str.truthy (Str.strip (description wd)) = true ->
  match generate_content (dot_request (description wd)) with
  | Err e' => e' = e
  | Ok (Some (_ :: _)) => False
  | Ok _ => e = PyException (lit "Gemini returned an empty response.")
  end ->
  app_generate wd w
  = (Ok tt,
     {| ui := ui w ++ [LLMCall (dot_request (description wd));
                       StErrorExn (lit "Error calling Gemini: ") e];
        sess := sess w; pg := pg w |}).
Proof.
  intros Hclick Hdesc Hanswer.
  unfold app_generate. rewrite Hclick, Hdesc. cbn [andb].
  unfold try_except at 1. unfold bind at 1.
  rewrite call_gemini_for_dot_run.
  destruct (generate_content (dot_request (description wd)))
    as [[[|c t]|]|e']; try contradiction; subst;
    unfold st_error_exn, emit, modify; cbn [fst snd ui sess pg];
    now rewrite <- app_assoc.
Qed.

(** The generate branch never raises, and whatever the model and the
    database do it leaves the accounts alone: the users, the projects,
    their sequences and the login of the session are those it found, and
    the committed log has grown by at most one row. *)
Theorem app_generate_keeps_accounts (wd : widgets) (w : world) :
  let run := app_generate wd w in
  fst run = Ok tt
  /\ users (committed (pg (snd run))) = users (committed (pg w))
  /\ projects (committed (pg (snd run))) = projects (committed (pg w))
  /\ next_user_id (pg (snd run)) = next_user_id (pg w)
  /\ next_project_id (pg (snd run)) = next_project_id (pg w)
  /\ logged_in (sess (snd run)) = logged_in (sess w)
  /\ user_id (sess (snd run)) = user_id (sess w)
  /\ (logs (committed (pg (snd run))) = logs (committed (pg w))
      \/ exists row,
           logs (committed (pg (snd run)))
           = logs (committed (pg w)) ++ [row]).
Proof.
  cbv zeta.
  destruct (generate_clicked wd) eqn:Hclick;
    [|unfold app_generate; rewrite Hclick; cbn; repeat split; now left].
  destruct (Str.truthy (Str.strip (description wd))) eqn:Hdesc;
    [|unfold app_generate; rewrite Hclick, Hdesc; cbn; repeat split;
      now left].
  destruct (generate_content (dot_request (description wd)))
    as [[[|c t]|]|e] eqn:Hanswer.
  - rewrite (app_generate_failed wd w
               (PyException (lit "Gemini returned an empty response.")))
      by (try rewrite Hanswer; auto).
    cbn [fst snd sess pg]. repeat split. now left.
  - destruct (strip_fence_total (c :: t)) as [dot Hdot].
    rewrite (app_generate_run wd w (c :: t) dot Hclick Hdesc Hanswer)
      by (discriminate || assumption).
    cbv zeta.
    destruct (db_fault Connect); [cbn; repeat split; now left|].
    destruct (db_fault InsertLog); [cbn; repeat split; now left|].
    destruct (match user_id (sess w) with
              | Some uid => first_project (committed (pg w)) uid
              | None => None
              end);
      destruct (db_fault Commit); cbn; repeat split;
      try (now left); right; eexists; reflexivity.
  - rewrite (app_generate_failed wd w
               (PyException (lit "Gemini returned an empty response.")))
      by (try rewrite Hanswer; auto).
    cbn [fst snd sess pg]. repeat split. now left.
  - rewrite (app_generate_failed wd w e) by (try rewrite Hanswer; auto).
    cbn [fst snd sess pg]. repeat split. now left.
Qed.

(* ================================================================== *)
(** * The generate branch with the cache *)
(* ================================================================== *)

Ltac run_cached :=
  unfold in_run, get_connection, psycopg2_connect, insert_log, commit,
    close, current_txn, faulty, set_pg, set_txn, set_session, st_error_exn,
    try_except, bind, gets, emit, modify, lift, ret, raise;
  cbn [fst snd ui sess pg committed txn next_user_id next_project_id
       next_log_id commits users projects logs logged_in user_id last_dot
       world_of cache_of].

(** The decorated call, by the way the result is come by. *)
Lemma cached_call_served (p : process) (prompt_text : str)
  (r : str * float) (sent : list event) (c : cache) :
  served p prompt_text r sent c ->
  cached_call_gemini_for_dot prompt_text p
  = (Ok r,
     {| world_of := {| ui := ui (world_of p) ++ sent;
                       sess := sess (world_of p);
                       pg := pg (world_of p) |};
        cache_of := c |}).
Proof.
  unfold cached_call_gemini_for_dot. unfold bind at 1, gets at 1.
  intros [[Hhit [-> ->]]|[Hmiss [[text [Hanswer [Htext Hdot]]] [Htime [-> ->]]]]].
  - rewrite Hhit. unfold ret. rewrite app_nil_r.
    destruct p as [[u s0 g] c0]. reflexivity.
  - rewrite Hmiss. unfold bind, in_run, modify, ret.
    rewrite call_gemini_for_dot_run, Hanswer.
    destruct text as [|ch text]; [congruence|]. rewrite Hdot.
    cbn [world_of cache_of]. destruct r as [dot time].
    cbn [fst snd] in *. now rewrite Htime.
Qed.

(** When the body raises, or answers nothing, the decorated call raises
    the same and stores nothing. *)
Lemma cached_call_failed (p : process) (prompt_text : str) (e : exn) :
  cache_lookup (cache_of p) prompt_text = None ->
  match generate_content (dot_request prompt_text) with
  | Err e' => e' = e
  | Ok (Some (_ :: _)) => False
  | Ok _ => e = PyException (lit "Gemini returned an empty response.")
  end ->
  cached_call_gemini_for_dot prompt_text p
  = (Err e,
     {| world_of := {| ui := ui (world_of p)
                             ++ [LLMCall (dot_request prompt_text)];
                       sess := sess (world_of p);
                       pg := pg (world_of p) |};
        cache_of := cache_of p |}).
Proof.
  intros Hmiss Hfail.
  unfold cached_call_gemini_for_dot. unfold bind at 1, gets at 1.
  rewrite Hmiss. unfold bind, in_run. rewrite call_gemini_for_dot_run.
  destruct (generate_content (dot_request prompt_text))
    as [[[|ch t]|]|e']; try contradiction; subst; reflexivity.
Qed.

(** The generate branch once the decorated call has returned: what each
    step of the logging leaves. *)
Lemma app_generate_cached_run (wd : widgets) (p : process) (dot : str)
  (time : float) (sent : list event) (c : cache) :
  generate_clicked wd = true ->
  Str.truthy (Str.strip (description wd)) = true ->
  served p (description wd) (dot, time) sent c ->
  app_generate_cached wd p =
  let w := world_of p in
  let shown := ui w ++ sent in
  let s1 := with_diagram (sess w) dot in
  let g := pg w in
  let t := committed g in
  let failed e := shown ++ [StErrorExn (lit "Error calling Gemini: ") e] in
  (Ok tt,
   {| world_of :=
        match db_fault Connect with
        | Some e =>
            {| ui := shown ++ [StErrorExn (lit "DB Error: ") e];
               sess := s1; pg := g |}
        | None =>
            match db_fault InsertLog with
            | Some e =>
                {| ui := failed e; sess := s1; pg := set_txn (Some t) g |}
            | None =>
                match match user_id (sess w) with
                      | Some uid => first_project t uid
                      | None => None
                      end with
                | Some proj =>
                    let t1 :=
                      {| users := users t; projects := projects t;
                         logs := logs t ++
                           [log_of (next_log_id g) (p_id proj)
                              (description wd) dot time] |} in
                    match db_fault Commit with
                    | Some e =>
                        {| ui := failed e; sess := s1;
                           pg := {| committed := t; txn := Some t1;
                                    next_user_id := next_user_id g;
                                    next_project_id := next_project_id g;
                                    next_log_id := next_log_id g + 1;
                                    commits := commits g |} |}
                    | None =>
                        {| ui := shown; sess := s1;
                           pg := {| committed := t1; txn := None;
                                    next_user_id := next_user_id g;
                                    next_project_id := next_project_id g;
                                    next_log_id := next_log_id g + 1;
                                    commits := S (commits g) |} |}
                    end
                | None =>
                    match db_fault Commit with
                    | Some e =>
                        {| ui := failed e; sess := s1;
                           pg := set_txn (Some t) g |}
                    | None =>
                        {| ui := shown; sess := s1;
                           pg := {| committed := t; txn := None;
                                    next_user_id := next_user_id g;
                                    next_project_id := next_project_id g;
                                    next_log_id := next_log_id g;
                                    commits := S (commits g) |} |}
                    end
                end
            end
        end;
      cache_of := c |}).
Proof.
  intros Hclick Hdesc Hserved.
  unfold app_generate_cached. rewrite Hclick, Hdesc. cbn [andb].
  unfold try_except at 1. unfold bind at 1.
  rewrite (cached_call_served p _ _ sent c Hserved).
  cbv zeta. unfold first_project, log_of, with_diagram. run_cached.
  destruct (db_fault Connect); [reflexivity|].
  cbn [fst snd ui sess pg committed txn next_user_id next_project_id
       next_log_id commits users projects logs logged_in user_id last_dot
       world_of cache_of].
  destruct (db_fault InsertLog); [reflexivity|].
  cbn [fst snd ui sess pg committed txn next_user_id next_project_id
       next_log_id commits users projects logs logged_in user_id last_dot
       world_of cache_of].
  destruct (user_id (sess (world_of p))) as [uid|].
  - destruct (find _ (projects (committed (pg (world_of p))))) as [proj|];
      cbn [fst snd ui sess pg committed txn next_user_id next_project_id
           next_log_id commits users projects logs logged_in user_id
           last_dot world_of cache_of];
      destruct (db_fault Commit); reflexivity.
  - cbn [fst snd ui sess pg committed txn next_user_id next_project_id
         next_log_id commits users projects logs logged_in user_id last_dot
         world_of cache_of].
    destruct (db_fault Commit); reflexivity.
Qed.

(** The generate branch when the decorated call raises: the error is
    shown, and the session, the database and the cache stay. *)
Lemma app_generate_cached_failed (wd : widgets) (p : process) (e : exn) :
  generate_clicked wd = true ->
  Str.truthy (Str.strip (description wd)) = true ->
  cache_lookup (cache_of p) (description wd) = None ->
  match generate_content (dot_request (description wd)) with
  | Err e' => e' = e
  | Ok (Some (_ :: _)) => False
  | Ok _ => e = PyException (lit "Gemini returned an empty response.")
  end ->
  app_generate_cached wd p
  = (Ok tt,
     {| world_of :=
          {| ui := ui (world_of p)
                   ++ [LLMCall (dot_request (description wd));
                       StErrorExn (lit "Error calling Gemini: ") e];
             sess := sess (world_of p); pg := pg (world_of p) |};
        cache_of := cache_of p |}).
Proof.
  intros Hclick Hdesc Hmiss Hfail.
  unfold app_generate_cached. rewrite Hclick, Hdesc. cbn [andb].
  unfold try_except at 1. unfold bind at 1.
  rewrite (cached_call_failed p _ e Hmiss Hfail).
  unfold in_run, st_error_exn, emit, modify.
  cbn [fst snd ui sess pg world_of cache_of].
  now rewrite <- app_assoc.
Qed.

(** When the cache holds nothing for the description, the branch with the
    cache does to the run what [app_generate] does. *)
Lemma app_generate_cached_cold (wd : widgets) (p : process) :
  cache_lookup (cache_of p) (description wd) = None ->
  fst (app_generate_cached wd p) = fst (app_generate wd (world_of p))
  /\ world_of (snd (app_generate_cached wd p))
     = snd (app_generate wd (world_of p)).
Proof.
  intros Hmiss.
  destruct (generate_clicked wd) eqn:Hclick;
    [|unfold app_generate_cached, app_generate; rewrite Hclick;
      split; reflexivity].
  destruct (Str.truthy (Str.strip (description wd))) eqn:Hdesc;
    [|unfold app_generate_cached, app_generate; rewrite Hclick, Hdesc;
      split; reflexivity].
  destruct (generate_content (dot_request (description wd)))
    as [[[|ch t]|]|e] eqn:Hanswer.
  - rewrite (app_generate_failed wd (world_of p)
               (PyException (lit "Gemini returned an empty response.")))
      by (try rewrite Hanswer; auto).
    rewrite (app_generate_cached_failed wd p
               (PyException (lit "Gemini returned an empty response.")))
      by (try rewrite Hanswer; auto).
    split; reflexivity.
  - destruct (strip_fence_total (ch :: t)) as [dot Hdot].
    rewrite (app_generate_run wd (world_of p) (ch :: t) dot Hclick Hdesc
               Hanswer)
      by (discriminate || assumption).
    rewrite (app_generate_cached_run wd p dot
               (elapsed (dot_request (description wd)))
               [LLMCall (dot_request (description wd))]
               ((description wd,
                 (dot, elapsed (dot_request (description wd))))
                :: cache_of p) Hclick Hdesc).
    + cbv zeta. unfold with_diagram. cbn [fst snd world_of].
      destruct (db_fault Connect); [split; reflexivity|].
      destruct (db_fault InsertLog); [split; reflexivity|].
      destruct (match user_id (sess (world_of p)) with
                | Some uid => first_project (committed (pg (world_of p))) uid
                | None => None
                end);
        destruct (db_fault Commit); split; reflexivity.
    + right. split; [exact Hmiss|]. split.
      * exists (ch :: t). split; [exact Hanswer|].
        split; [discriminate|exact Hdot].
      * repeat split.
  - rewrite (app_generate_failed wd (world_of p)
               (PyException (lit "Gemini returned an empty response.")))
      by (try rewrite Hanswer; auto).
    rewrite (app_generate_cached_failed wd p
               (PyException (lit "Gemini returned an empty response.")))
      by (try rewrite Hanswer; auto).
    split; reflexivity.
  - rewrite (app_generate_failed wd (world_of p) e)
      by (try rewrite Hanswer; auto).
    rewrite (app_generate_cached_failed wd p e)
      by (try rewrite Hanswer; auto).
    split; reflexivity.
Qed.

(** A generation that succeeds for a logged-in user who owns a project,
    whether the model answers or the cache does: the page stores the DOT
    text as the diagram and commits exactly one row in [logs], for the
    oldest project of the user, with the description, the JSON of the DOT
    text and the time that came with it.  Served from the cache, the page
    sends no request and logs the text and the time of the earlier call;
    served by the model, it sends one request, logs the normalized answer
    and the measured time, and stores both in the cache.  The other tables
    stay as they were and the connection is closed. *)
Theorem app_generate_logs_the_exchange
  (wd : widgets) (p : process) (dot : str) (time : float)
  (sent : list event) (c : cache) (uid : Z) (proj : project_row) :
  generate_clicked wd = true ->
  Str.truthy (Str.strip (description wd)) = true ->
  served p (description wd) (dot, time) sent c ->
  db_fault Connect = None ->
  db_fault InsertLog = None ->
  db_fault Commit = None ->
  user_id (sess (world_of p)) = Some uid ->
  first_project (committed (pg (world_of p))) uid = Some proj ->
  let w := world_of p in
  app_generate_cached wd p
  = (Ok tt,
     {| world_of :=
          {| ui := ui w ++ sent;
             sess := with_diagram (sess w) dot;
             pg := {| committed :=
                        {| users := users (committed (pg w));
                           projects := projects (committed (pg w));
                           logs := logs (committed (pg w)) ++
                             [log_of (next_log_id (pg w)) (p_id proj)
                                (description wd) dot time] |};
                      txn := None;
                      next_user_id := next_user_id (pg w);
                      next_project_id := next_project_id (pg w);
                      next_log_id := next_log_id (pg w) + 1;
                      commits := S (commits (pg w)) |} |};
        cache_of := c |}).
Proof.
  intros Hclick Hdesc Hserved Hc Hl Hm Huid Hproj. cbv zeta.
  rewrite (app_generate_cached_run wd p dot time sent c Hclick Hdesc Hserved).
  cbv zeta. unfold with_diagram. now rewrite Hc, Hl, Hm, Huid, Hproj.
Qed.

(** A generation that succeeds when the session has no user or the user
    owns no project: the diagram is stored and the transaction commits,
    but no row is written and no id is drawn; nothing tells the user. *)
Theorem app_generate_without_project
  (wd : widgets) (p : process) (dot : str) (time : float)
  (sent : list event) (c : cache) :
  generate_clicked wd = true ->
  Str.truthy (Str.strip (description wd)) = true ->
  served p (description wd) (dot, time) sent c ->
  db_fault Connect = None ->
  db_fault InsertLog = None ->
  db_fault Commit = None ->
  match user_id (sess (world_of p)) with
  | Some uid => first_project (committed (pg (world_of p))) uid = None
  | None => True
  end ->
  let w := world_of p in
  app_generate_cached wd p
  = (Ok tt,
     {| world_of :=
          {| ui := ui w ++ sent;
             sess := with_diagram (sess w) dot;
             pg := {| committed := committed (pg w);
                      txn := None;
                      next_user_id := next_user_id (pg w);
                      next_project_id := next_project_id (pg w);
                      next_log_id := next_log_id (pg w);
                      commits := S (commits (pg w)) |} |};
        cache_of := c |}).
Proof.
  intros Hclick Hdesc Hserved Hc Hl Hm Hnone. cbv zeta.
  rewrite (app_generate_cached_run wd p dot time sent c Hclick Hdesc Hserved).
  cbv zeta. unfold with_diagram. rewrite Hc, Hl, Hm.
  destruct (user_id (sess (world_of p))) as [uid|];
    [now rewrite Hnone|reflexivity].
Qed.

(** When the call returned and the database then fails, the page keeps the
    new diagram, and an answer of the model is in the cache already.  A
    connection that cannot be opened is reported as a DB error and the
    database is untouched; a failing insert or commit is reported as an
    error calling Gemini, nothing is committed and the connection stays
    open. *)
Theorem app_generate_database_failure
  (wd : widgets) (p : process) (dot : str) (time : float)
  (sent : list event) (c : cache) (e : exn) :
  generate_clicked wd = true ->
  Str.truthy (Str.strip (description wd)) = true ->
  served p (description wd) (dot, time) sent c ->
  let w := world_of p in
  let after := snd (app_generate_cached wd p) in
  fst (app_generate_cached wd p) = Ok tt
  /\ cache_of after = c
  /\ sess (world_of after) = with_diagram (sess w) dot
  /\ (db_fault Connect = Some e ->
      ui (world_of after)
      = (ui w ++ sent) ++ [StErrorExn (lit "DB Error: ") e]
      /\ pg (world_of after) = pg w)
  /\ (db_fault Connect = None ->
      db_fault InsertLog = Some e
      \/ (db_fault InsertLog = None /\ db_fault Commit = Some e) ->
      ui (world_of after)
      = (ui w ++ sent) ++ [StErrorExn (lit "Error calling Gemini: ") e]
      /\ committed (pg (world_of after)) = committed (pg w)
      /\ commits (pg (world_of after)) = commits (pg w)
      /\ txn (pg (world_of after)) <> None).
Proof.
  intros Hclick Hdesc Hserved. cbv zeta.
  rewrite (app_generate_cached_run wd p dot time sent c Hclick Hdesc Hserved).
  cbv zeta. cbn [fst snd world_of cache_of].
  split; [reflexivity|]. split; [reflexivity|]. split; [|split].
  - destruct (db_fault Connect); [reflexivity|].
    destruct (db_fault InsertLog); [reflexivity|].
    destruct (match user_id (sess (world_of p)) with
              | Some uid => first_project (committed (pg (world_of p))) uid
              | None => None
              end);
      destruct (db_fault Commit); reflexivity.
  - intros Hc. rewrite Hc. split; reflexivity.
  - intros Hc [Hl|[Hl Hm]]; rewrite Hc, Hl.
    + cbn [ui pg set_txn committed commits txn].
      repeat split. discriminate.
    + rewrite Hm.
      destruct (match user_id (sess (world_of p)) with
                | Some uid => first_project (committed (pg (world_of p))) uid
                | None => None
                end);
        cbn [ui pg set_txn committed commits txn];
        repeat split; discriminate.
Qed.

(* ================================================================== *)
(** * The main page of app.py *)
(* ================================================================== *)

Lemma charts_app (t1 t2 : list event) :
  charts (t1 ++ t2) = charts t1 ++ charts t2.
Proof. unfold charts. apply flat_map_app. Qed.

(** What [app_render] does, by the diagram of the session. *)
Lemma app_render_run (wd : widgets) (w : world) :
  app_render wd w =
  match last_dot (sess w) with
  | Some ((_ :: _) as src) =>
      let shown := if update_clicked wd
                   then match edited_dot wd with Some e => e | None => src end
                   else src in
      let panes := ui w ++ [St st_subheader (lit "DOT Source");
                            St st_subheader (lit "Visual ERD")] in
      (Ok tt,
       {| ui := panes ++
                [match graphviz_chart (ChartSource shown) with
                 | Ok _ => StGraphvizChart (ChartSource shown)
                 | Err e => StErrorExn (lit "Graphviz rendering error: ") e
                 end];
          sess := if update_clicked wd then with_diagram (sess w) shown
                  else sess w;
          pg := pg w |})
  | _ => (Ok tt, w)
  end.
Proof.
  unfold app_render, with_diagram. unfold bind at 1, gets at 1.
  cbn [fst snd].
  destruct (last_dot (sess w)) as [[|c src]|] eqn:Hdot; try reflexivity.
  run_page. unfold st_graphviz_chart.
  destruct (update_clicked wd);
    cbn [fst snd ui sess pg logged_in user_id last_dot].
  - destruct (graphviz_chart _);
      cbn [fst snd ui sess pg]; rewrite <- ?app_assoc; reflexivity.
  - rewrite Hdot.
    destruct (graphviz_chart _);
      cbn [fst snd ui sess pg]; rewrite <- ?app_assoc; reflexivity.
Qed.

(** The main page of a logged-in session: the header, the generate branch,
    then the editor and the diagram. *)
Lemma app_main_run (wd : widgets) (w : world) :
  logged_in (sess w) = true ->
  app_main wd w =
  let w0 := {| ui := ui w ++ [St st_header
                                (lit "ER Diagram Architect (Text "
                                 ++ [8594%N] ++ lit " DOT via Gemini)")];
               sess := sess w; pg := pg w |} in
  match app_generate wd w0 with
  | (Ok _, w1) => app_render wd w1
  | (Err e, w1) => (Err e, w1)
  end.
Proof.
  intros Hli. unfold app_main, bind, gets, st, emit, modify.
  cbn [fst snd]. rewrite Hli. reflexivity.
Qed.

(** Showing the editor and the diagram never raises and never touches the
    database or the login.  Without a press on Update the session is the
    one it found; with one, the diagram of the session is the text of the
    editor, empty or not, and that text is what goes to the layout
    engine. *)
Theorem app_render_only_edits_the_diagram (wd : widgets) (w : world) :
  let run := app_render wd w in
  fst run = Ok tt
  /\ pg (snd run) = pg w
  /\ logged_in (sess (snd run)) = logged_in (sess w)
  /\ user_id (sess (snd run)) = user_id (sess w)
  /\ (update_clicked wd = false -> sess (snd run) = sess w)
  /\ (forall src shown,
        update_clicked wd = true ->
        last_dot (sess w) = Some src -> src <> [] ->
        edited_dot wd = Some shown ->
        last_dot (sess (snd run)) = Some shown
        /\ (graphviz_chart (ChartSource shown) = Ok tt ->
            charts (ui (snd run))
            = charts (ui w) ++ [ChartSource shown])).
Proof.
  cbv zeta. rewrite app_render_run.
  destruct (last_dot (sess w)) as [[|c0 s0]|] eqn:Hdot; cbv zeta;
    cbn [fst snd ui sess pg].
  - repeat split; congruence.
  - destruct (update_clicked wd);
      cbn [with_diagram logged_in user_id last_dot];
      (split; [reflexivity|]); (split; [reflexivity|]);
      (split; [reflexivity|]); (split; [reflexivity|]);
      (split; [try discriminate; reflexivity|]);
      intros src shown Hup Hsrc Hne Hed; [|discriminate].
    rewrite Hed. split; [reflexivity|].
    intros Hok. rewrite Hok, !charts_app.
    cbn [charts flat_map app]. now rewrite app_nil_r.
  - repeat split; congruence.
Qed.

(** A generation that fails, because the model raises or answers nothing,
    leaves the page as it was: the error is shown and the diagram of the
    session is drawn again. *)
Theorem failed_generation_keeps_the_diagram
  (wd : widgets) (w : world) (e : exn) (src : str) :
  logged_in (sess w) = true ->
  generate_clicked wd = true ->
  Str.truthy (Str.strip (description wd)) = true ->
  update_clicked wd = false ->
  match generate_content (dot_request (description wd)) with
  | Err e' => e' = e
  | Ok (Some (_ :: _)) => False
  | Ok _ => e = PyException (lit "Gemini returned an empty response.")
  end ->
  last_dot (sess w) = Some src ->
  src <> [] ->
  graphviz_chart (ChartSource src) = Ok tt ->
  app_main wd w
  = (Ok tt,
     {| ui := ui w ++
              [St st_header (lit "ER Diagram Architect (Text " ++ [8594%N]
                             ++ lit " DOT via Gemini)");
               LLMCall (dot_request (description wd));
               StErrorExn (lit "Error calling Gemini: ") e;
               St st_subheader (lit "DOT Source");
               St st_subheader (lit "Visual ERD");
               StGraphvizChart (ChartSource src)];
        sess := sess w; pg := pg w |}).
Proof.
  intros Hli Hclick Hdesc Hup Hfail Hdot Hsrc Hchart.
  rewrite (app_main_run wd w Hli). cbv zeta.
  rewrite (app_generate_failed wd _ e Hclick Hdesc Hfail).
  rewrite app_render_run. cbn [fst snd ui sess pg]. rewrite Hdot.
  destruct src as [|c src]; [congruence|]. cbv zeta.
  rewrite Hup, Hchart. rewrite <- !app_assoc. reflexivity.
Qed.

(** An answer of white space only is not an empty response: the page
    stores the empty text as the diagram of the session, in place of the
    one it had, and draws nothing. *)
Theorem blank_answer_clears_the_diagram
  (wd : widgets) (w : world) (text : str) :
  logged_in (sess w) = true ->
  generate_clicked wd = true ->
  Str.truthy (Str.strip (description wd)) = true ->
  generate_content (dot_request (description wd)) = Ok (Some text) ->
  text <> [] ->
  forallb Str.isspace text = true ->
  let run := app_main wd w in
  fst run = Ok tt
  /\ last_dot (sess (snd run)) = Some []
  /\ charts (ui (snd run)) = charts (ui w).
Proof.
  intros Hli Hclick Hdesc Hanswer Htext Hblank. cbv zeta.
  assert (Hdot : strip_fence text = Ok []).
  { unfold strip_fence. rewrite (strip_all_space text Hblank).
    reflexivity. }
  rewrite (app_main_run wd w Hli). cbv zeta.
  rewrite (app_generate_run wd _ text [] Hclick Hdesc Hanswer Htext Hdot).
  cbv zeta. cbn [ui sess pg].
  destruct (db_fault Connect);
    [rewrite app_render_run; cbn [fst snd ui sess pg last_dot];
     repeat split; rewrite !charts_app; cbn [charts flat_map app];
     now rewrite !app_nil_r|].
  destruct (db_fault InsertLog);
    [rewrite app_render_run; cbn [fst snd ui sess pg last_dot];
     repeat split; rewrite !charts_app; cbn [charts flat_map app];
     now rewrite !app_nil_r|].
  destruct (match user_id (sess w) with
            | Some uid => first_project (committed (pg w)) uid
            | None => None
            end);
    destruct (db_fault Commit);
    rewrite app_render_run; cbn [fst snd ui sess pg last_dot];
    repeat split; rewrite !charts_app; cbn [charts flat_map app];
    now rewrite !app_nil_r.
Qed.

(* ================================================================== *)
(** * From the sign-up to the first log row *)
(* ================================================================== *)

Lemma create_user_true_commits (email password : str) (w : world) :
  fst (create_user email password w) = Ok true ->
  db_fault Commit = None
  /\ next_log_id (pg (snd (create_user email password w)))
     = next_log_id (pg w).
Proof.
  run_db.
  destruct (db_fault Connect); [discriminate|].
  destruct (db_fault InsertUser); [discriminate|].
  cbn [fst snd pg committed txn users next_log_id].
  destruct (existsb _ (users (committed (pg w)))); [discriminate|].
  destruct (db_fault InsertProject); [discriminate|].
  destruct (db_fault Commit); [discriminate|].
  intros _. split; reflexivity.
Qed.

Lemma find_project_app_new (l : list project_row) (r : project_row)
  (owner : Z) :
  (forall x, In x l -> p_user_id x <> owner) ->
  p_user_id r = owner ->
  find (fun x => Z.eqb (p_user_id x) owner) (l ++ [r]) = Some r.
Proof.
  intros Hl Hr. induction l as [|x l IH]; cbn [app find].
  - rewrite Hr, Z.eqb_refl. reflexivity.
  - destruct (Z.eqb (p_user_id x) owner) eqn:E.
    + apply Z.eqb_eq in E. exfalso. apply (Hl x); [now left|exact E].
    + apply IH. intros y Hy. apply Hl. now right.
Qed.

(* ================================================================== *)
(** * The page of autoergen.py *)
(* ================================================================== *)

Lemma generate_sql_schema_spec (v : pyval) (sp : ERSpec) :
  as_spec v = Some sp -> generate_sql_schema v = Ok (schema_of sp).
Proof.
  intros Hv. apply as_spec_entries in Hv.
  destruct (generate_sql_schema_entries v _ _ Hv) as [H _].
  rewrite H by apply complete_entries_have_all_keys.
  unfold schema_of. now rewrite List.map_map.
Qed.

(** A specification with an entity has the key [entities], and the list
    under it is true as a condition. *)
Lemma entities_item (v : pyval) (es : list str) (ents : list Entry) :
  as_entries v = Some (es, ents) ->
  es <> [] ->
  Py.getitem v (lit "entities") = Ok (PList (List.map PStr es))
  /\ Py.truthy (PList (List.map PStr es)) = true.
Proof.
  intros Hv Hes.
  destruct (as_entries_inv v es ents Hv) as [d [l [-> [E1 _]]]].
  split.
  - unfold Py.getitem.
    destruct (Dict.get d (lit "entities")) as [x|]; [now rewrite E1|].
    destruct es; [congruence|discriminate].
  - destruct es; [congruence|reflexivity].
Qed.

(** The handler once [generate_er_spec] has returned [er_data]. *)
Lemma autoergen_generate_run (user_input : str) (w w1 : world)
  (er_data : pyval) :
  Str.strip user_input <> [] ->
  generate_er_spec user_input w = (Ok er_data, w1) ->
  autoergen_generate user_input w =
  let shown t := {| ui := ui w1 ++ t; sess := sess w1; pg := pg w1 |} in
  match Py.getitem er_data (lit "entities") with
  | Err e => (Err e, w1)
  | Ok ents =>
      if Py.truthy ents then
        match create_er_diagram er_data with
        | Err e => (Err e, shown [St st_subheader (lit "ER Diagram")])
        | Ok dot =>
            match graphviz_chart (ChartGraph dot) with
            | Err e => (Err e, shown [St st_subheader (lit "ER Diagram")])
            | Ok _ =>
                match generate_sql_schema er_data with
                | Err e =>
                    (Err e,
                     shown [St st_subheader (lit "ER Diagram");
                            StGraphvizChart (ChartGraph dot);
                            St st_subheader (lit "SQL Schema")])
                | Ok sql =>
                    (Ok tt,
                     shown [St st_subheader (lit "ER Diagram");
                            StGraphvizChart (ChartGraph dot);
                            St st_subheader (lit "SQL Schema");
                            StCode sql (lit "sql")])
                end
            end
        end
      else
        (Ok tt,
         shown [St st_error
                  (lit "Could not extract data. Try more descriptive text.")])
  end.
Proof.
  intros Hin Hspec. unfold autoergen_generate.
  destruct (Str.strip user_input) as [|c t]; [congruence|].
  cbn [Str.truthy negb]. unfold bind at 1. rewrite Hspec. cbv zeta.
  unfold st_graphviz_chart, st, bind, emit, modify, lift, ret, raise.
  destruct (Py.getitem er_data (lit "entities")) as [ents|e];
    [|destruct w1; reflexivity].
  cbn [fst snd].
  destruct (Py.truthy ents); [|reflexivity].
  cbn [fst snd ui sess pg].
  destruct (create_er_diagram er_data) as [dot|e]; [|reflexivity].
  destruct (graphviz_chart (ChartGraph dot)); [|reflexivity].
  cbn [fst snd ui sess pg].
  destruct (generate_sql_schema er_data);
    cbn [fst snd ui sess pg]; rewrite <- ?app_assoc; reflexivity.
Qed.

(** The whole page on an answer that decodes to a specification with an
    entity, when [st.graphviz_chart] takes the diagram: one request, then
    the diagram of the specification under its heading, then its schema
    under its heading, as SQL; the session and the database are not
    touched. *)
Theorem autoergen_shows_diagram_and_schema
  (user_input text : str) (w : world) (v : pyval) (sp : ERSpec) :
  Str.strip user_input <> [] ->
  generate_content (er_request user_input) = Ok (Some text) ->
  json_loads (clean_json_text text) = Ok v ->
  as_spec v = Some sp ->
  entities sp <> [] ->
  graphviz_chart (ChartGraph (diagram_of sp)) = Ok tt ->
  autoergen_generate user_input w
  = (Ok tt,
     {| ui := ui w ++
              [LLMCall (er_request user_input);
               St st_subheader (lit "ER Diagram");
               StGraphvizChart (ChartGraph (diagram_of sp));
               St st_subheader (lit "SQL Schema");
               StCode (schema_of sp) (lit "sql")];
        sess := sess w; pg := pg w |}).
Proof.
  intros Hin Hanswer Hjson Hv Hes Hchart.
  assert (Hspec : generate_er_spec user_input w
                  = (Ok v, {| ui := ui w ++ [LLMCall (er_request user_input)];
                              sess := sess w; pg := pg w |})).
  { rewrite generate_er_spec_run. cbv zeta. now rewrite Hanswer, Hjson. }
  rewrite (autoergen_generate_run user_input w _ v Hin Hspec). cbv zeta.
  destruct (entities_item v _ _ (as_spec_entries v sp Hv) Hes) as [Hitem Ht].
  rewrite Hitem, Ht, (create_er_diagram_spec v sp Hv), Hchart,
    (generate_sql_schema_spec v sp Hv).
  cbn [ui sess pg]. now rewrite <- app_assoc.
Qed.

(** The page when there is nothing to draw.  After a failure of the model
    or of the decoder it shows two errors, the failure and the request for
    more descriptive text.  After an answer whose [entities] is empty or
    otherwise false it shows the second only, whatever relationships the
    answer holds.  In both cases it draws nothing and raises nothing. *)
Theorem autoergen_without_entities (user_input : str) (w : world) :
  Str.strip user_input <> [] ->
  let sorry :=
    St st_error (lit "Could not extract data. Try more descriptive text.") in
  (forall e,
     match generate_content (er_request user_input) with
     | Err e' => e' = e
     | Ok None => e = AttributeError
     | Ok (Some text) => json_loads (clean_json_text text) = Err e
     end ->
     autoergen_generate user_input w
     = (Ok tt,
        {| ui := ui w ++
                 [LLMCall (er_request user_input);
                  StErrorExn (lit "Failed to process with Gemini: ") e;
                  sorry];
           sess := sess w; pg := pg w |}))
  /\ (forall text v ents,
        generate_content (er_request user_input) = Ok (Some text) ->
        json_loads (clean_json_text text) = Ok v ->
        Py.getitem v (lit "entities") = Ok ents ->
        Py.truthy ents = false ->
        autoergen_generate user_input w
        = (Ok tt,
           {| ui := ui w ++ [LLMCall (er_request user_input); sorry];
              sess := sess w; pg := pg w |})).
Proof.
  intros Hin. cbv zeta. split.
  - intros e Hfail.
    assert (Hspec : generate_er_spec user_input w
                    = (Ok empty_er_spec,
                       {| ui := (ui w ++ [LLMCall (er_request user_input)])
                                ++ [StErrorExn
                                      (lit "Failed to process with Gemini: ")
                                      e];
                          sess := sess w; pg := pg w |})).
    { rewrite generate_er_spec_run. cbv zeta. cbn [ui].
      destruct (generate_content (er_request user_input)) as [[text|]|e'];
        [now rewrite Hfail|now subst|now subst]. }
    rewrite (autoergen_generate_run user_input w _ _ Hin Hspec).
    cbv zeta. cbn [ui sess pg]. unfold empty_er_spec.
    cbn. now rewrite <- !app_assoc.
  - intros text v ents Hanswer Hjson Hitem Hfalse.
    assert (Hspec : generate_er_spec user_input w
                    = (Ok v,
                       {| ui := ui w ++ [LLMCall (er_request user_input)];
                          sess := sess w; pg := pg w |})).
    { rewrite generate_er_spec_run. cbv zeta. now rewrite Hanswer, Hjson. }
    rewrite (autoergen_generate_run user_input w _ v Hin Hspec). cbv zeta.
    rewrite Hitem, Hfalse. cbn [ui sess pg]. now rewrite <- app_assoc.
Qed.

(** The shape of a decoded answer is not checked before [entities] is
    read from it: an answer that decodes to something other than an object
    ends the run with [TypeError], an object without the key with
    [KeyError], right after the request and with nothing shown. *)
Theorem autoergen_other_shape_escapes
  (user_input text : str) (w : world) (v : pyval) :
  Str.strip user_input <> [] ->
  generate_content (er_request user_input) = Ok (Some text) ->
  json_loads (clean_json_text text) = Ok v ->
  (forall ents, Py.getitem v (lit "entities") <> Ok ents) ->
  exists e,
    autoergen_generate user_input w
    = (Err e,
       {| ui := ui w ++ [LLMCall (er_request user_input)];
          sess := sess w; pg := pg w |})
    /\ match v with
       | PDict _ => e = KeyError (lit "entities")
       | _ => e = TypeError
       end.
Proof.
  intros Hin Hanswer Hjson Hnone.
  assert (Hspec : generate_er_spec user_input w
                  = (Ok v,
                     {| ui := ui w ++ [LLMCall (er_request user_input)];
                        sess := sess w; pg := pg w |})).
  { rewrite generate_er_spec_run. cbv zeta. now rewrite Hanswer, Hjson. }
  rewrite (autoergen_generate_run user_input w _ v Hin Hspec). cbv zeta.
  destruct (Py.getitem v (lit "entities")) as [ents|e] eqn:Hitem;
    [now elim (Hnone ents)|].
  exists e. split; [reflexivity|].
  destruct v; cbn [Py.getitem] in Hitem; try congruence.
  destruct (Dict.get d (lit "entities")); congruence.
Qed.

(** A relationship without [relation] stops the page half way: the diagram
    is drawn, with an arrow for every relationship, and the heading of the
    schema is shown, then [KeyError] ends the run before any SQL. *)
Theorem autoergen_draws_then_raises
  (user_input text : str) (w : world) (v : pyval) (es : list str)
  (ents : list Entry) :
  Str.strip user_input <> [] ->
  generate_content (er_request user_input) = Ok (Some text) ->
  json_loads (clean_json_text text) = Ok v ->
  as_entries v = Some (es, ents) ->
  es <> [] ->
  forallb has_ends ents = true ->
  existsb lacks_relation ents = true ->
  graphviz_chart (ChartGraph (diagram_of_entries es ents)) = Ok tt ->
  edges (diagram_of_entries es ents) = List.map edge_of_entry ents
  /\ exists key,
       autoergen_generate user_input w
       = (Err (KeyError key),
          {| ui := ui w ++
                   [LLMCall (er_request user_input);
                    St st_subheader (lit "ER Diagram");
                    StGraphvizChart (ChartGraph (diagram_of_entries es ents));
                    St st_subheader (lit "SQL Schema")];
             sess := sess w; pg := pg w |}).
Proof.
  intros Hin Hanswer Hjson Hv Hes Hends Hlack Hchart.
  split; [unfold diagram_of_entries; now rewrite edges_of_entries|].
  assert (Hspec : generate_er_spec user_input w
                  = (Ok v,
                     {| ui := ui w ++ [LLMCall (er_request user_input)];
                        sess := sess w; pg := pg w |})).
  { rewrite generate_er_spec_run. cbv zeta. now rewrite Hanswer, Hjson. }
  rewrite (autoergen_generate_run user_input w _ v Hin Hspec). cbv zeta.
  destruct (entities_item v es ents Hv Hes) as [Hitem Ht].
  destruct (create_er_diagram_entries v es ents Hv) as [Hdraw _].
  destruct (generate_sql_schema_entries v es ents Hv) as [_ Hsql].
  specialize (Hsql (lacking_relation_lacks_a_key ents Hlack)).
  rewrite Hitem, Ht, (Hdraw Hends).
  fold (diagram_of_entries es ents). rewrite Hchart.
  destruct (generate_sql_schema v) as [sql|[]]; try discriminate.
  eexists. cbn [ui sess pg]. rewrite <- app_assoc. reflexivity.
Qed.

(** When the answer gives [entities] as one text instead of a list of
    names, both functions take it character by character: the renderer
    draws a node, and the synthesizer writes a table, for every character
    of the text. *)
Theorem entities_text_is_read_by_character
  (d : list (str * pyval)) (s : str) :
  Dict.get d (lit "entities") = Some (PStr s) ->
  Dict.get d (lit "relationships") = None ->
  create_er_diagram (PDict d)
  = Ok (diagram_of_entries (List.map (fun c => [c]) s) [])
  /\ generate_sql_schema (PDict d)
     = Ok (Str.join (nl ++ nl)
             (List.map (fun c => create_table_stmt [c]) s)).
Proof.
  intros He Hr. split.
  - unfold create_er_diagram. cbn [Py.get rbind]. rewrite He, Hr.
    cbn [Py.iter rbind].
    rewrite (rfor_each_ok (List.map (fun c => PStr [c]) s) _
               (fun g x => Graph.add g (Node x x entity_attrs)))
      by reflexivity.
    cbn [rbind rfor_each]. rewrite fold_left_add.
    unfold diagram_of_entries, node_of.
    cbn [comment body Graph.attr Graph.add Graph.new app List.map].
    now rewrite !List.map_map, app_nil_r.
  - unfold generate_sql_schema. cbn [Py.get rbind]. rewrite He, Hr.
    cbn [Py.iter rbind].
    rewrite (rfor_each_ok (List.map (fun c => PStr [c]) s) _
               (fun acc x => acc ++ [create_table_stmt (py_str x)]))
      by reflexivity.
    cbn [rbind rfor_each]. rewrite fold_left_snoc. cbn [app].
    rewrite List.map_map. do 2 f_equal.
    apply List.map_ext. intros c. now rewrite py_str_str.
Qed.

End Program.

(* ================================================================== *)
(** * Several calls, each with its own faults *)
(* ================================================================== *)

Section SeveralCalls.

Variable sha256_hexdigest : str -> str.
Variable json_dumps : str -> str.

(** The faults of the sign-up, of the login and of the logging. *)
Variable at_sign_up : db_step -> option exn.
Variable at_login : db_step -> option exn.
Variable query_fault : option exn.
Variable at_logging : db_step -> option exn.

(** The model and the clock at the press that is looked at. *)
Variable generate_content : request -> result (option str).
Variable elapsed : request -> float.

(** The model, the clock and the faults at a later press. *)
Variable later_content : request -> result (option str).
Variable later_elapsed : request -> float.
Variable later_faults : db_step -> option exn.

(** Logging in after a successful sign-up, when the connection opens and
    the query runs. *)
Lemma login_after_sign_up (email password : str) (w : world) :
  fst (create_user sha256_hexdigest at_sign_up email password w) = Ok true ->
  at_login Connect = None ->
  query_fault = None ->
  next_user_id (pg w) <> 0%Z ->
  let w1 := snd (create_user sha256_hexdigest at_sign_up email password w) in
  login_submit sha256_hexdigest at_login query_fault email password w1
  = (Ok Rerun,
     {| ui := ui w1;
        sess := signed_in (next_user_id (pg w)) (last_dot (sess w1));
        pg := set_txn None (pg w1) |}).
Proof.
  intros Hok Hc Hq Hid. cbv zeta. rewrite login_submit_run. cbv zeta.
  rewrite authenticate_user_run.
  destruct (create_user_run sha256_hexdigest at_sign_up email password w)
    as [[_ [_ [Hfree [Hcom _]]]]|[Hfalse _]]; [|congruence].
  rewrite Hc, Hq, Hcom. cbn [fst snd ui sess pg signed_up users].
  set (u := {| u_id := next_user_id (pg w); u_email := email;
               u_password_hash := hash_password sha256_hexdigest password |}).
  assert (Hfind : find (fun x => Str.eqb (u_email x) email)
                    (users (committed (pg w)) ++ [u]) = Some u).
  { apply (find_app_new (users (committed (pg w))) u). exact Hfree. }
  rewrite Hfind. cbn [u u_password_hash u_id]. rewrite str_eqb_refl.
  apply Z.eqb_neq in Hid. now rewrite Hid.
Qed.

(** Signing up and then authenticating, the second call with faults of
    its own.  When its connection opens and its query runs, the password
    of the sign-up gives the id of the new user and a password with
    another hash gives [None].  When its connection cannot be opened it
    shows the DB error and returns [None] for the right password too;
    when its query fails, the exception leaves it. *)
Theorem sign_up_then_authenticate (email password other : str) (w : world) :
  fst (create_user sha256_hexdigest at_sign_up email password w) = Ok true ->
  let w1 := snd (create_user sha256_hexdigest at_sign_up email password w) in
  let auth pw :=
    authenticate_user sha256_hexdigest at_login query_fault email pw w1 in
  (at_login Connect = None -> query_fault = None ->
     fst (auth password) = Ok (Some (next_user_id (pg w)))
     /\ (hash_password sha256_hexdigest other
         <> hash_password sha256_hexdigest password ->
         fst (auth other) = Ok None))
  /\ (forall e, at_login Connect = Some e ->
        fst (auth password) = Ok None
        /\ ui (snd (auth password))
           = ui w1 ++ [StErrorExn (lit "DB Error: ") e])
  /\ (forall e, at_login Connect = None -> query_fault = Some e ->
        fst (auth password) = Err e).
Proof.
  intros Hok. cbv zeta.
  destruct (create_user_run sha256_hexdigest at_sign_up email password w)
    as [[_ [_ [Hfree [Hcom _]]]]|[Hfalse _]]; [|congruence].
  rewrite !authenticate_user_run. split; [|split].
  - intros Hc Hq. rewrite Hc, Hq, Hcom. cbn [fst signed_up users].
    set (u := {| u_id := next_user_id (pg w); u_email := email;
                 u_password_hash :=
                   hash_password sha256_hexdigest password |}).
    assert (Hfind : find (fun x => Str.eqb (u_email x) email)
                      (users (committed (pg w)) ++ [u]) = Some u).
    { apply (find_app_new (users (committed (pg w))) u). exact Hfree. }
    rewrite Hfind. cbn [u u_password_hash u_id]. rewrite str_eqb_refl.
    split; [reflexivity|]. intros Hother.
    destruct (Str.eqb (hash_password sha256_hexdigest password)
                (hash_password sha256_hexdigest other)) eqn:E;
      [|reflexivity].
    apply str_eqb_eq in E. congruence.
  - intros e Hc. rewrite Hc. split; reflexivity.
  - intros e Hc Hq. now rewrite Hc, Hq.
Qed.

(** Signing up and then logging in with the same email and password, the
    login with faults of its own.  When its connection opens, its query
    runs and the id drawn by the sign-up is not 0, the session is logged
    in as the new user.  When its connection cannot be opened the form
    shows the DB error and Invalid credentials, and the session stays as
    it was. *)
Theorem sign_up_then_log_in (email password : str) (w : world) :
  fst (create_user sha256_hexdigest at_sign_up email password w) = Ok true ->
  let w1 := snd (create_user sha256_hexdigest at_sign_up email password w) in
  let login :=
    login_submit sha256_hexdigest at_login query_fault email password w1 in
  (at_login Connect = None -> query_fault = None ->
   next_user_id (pg w) <> 0%Z ->
     fst login = Ok Rerun
     /\ sess (snd login)
        = signed_in (next_user_id (pg w)) (last_dot (sess w)))
  /\ (forall e, at_login Connect = Some e ->
        fst login = Ok Continue
        /\ sess (snd login) = sess w
        /\ ui (snd login)
           = ui w1 ++ [StErrorExn (lit "DB Error: ") e;
                       St st_error (lit "Invalid credentials")]).
Proof.
  intros Hok. cbv zeta. split.
  - intros Hc Hq Hid.
    rewrite (login_after_sign_up email password w Hok Hc Hq Hid).
    cbn [fst snd sess]. split; [reflexivity|].
    now rewrite create_user_keeps_session.
  - intros e Hc. rewrite login_submit_run. cbv zeta.
    rewrite authenticate_user_run, Hc. cbn [fst snd ui sess].
    rewrite create_user_keeps_session, <- app_assoc.
    repeat split.
Qed.

(** Sign up, log in, generate, each call with faults of its own.  On
    consistent accounts, once the login succeeded and the decorated call
    returned, from the model or from the cache: when no step of the
    logging fails, the first diagram of the new user is logged against
    the default project that the sign-up created, with the next id of the
    log sequence and with the text and the time the call returned; when a
    step of the logging fails, no row is added. *)
Theorem first_diagram_is_logged_to_default_project
  (email password : str) (wd : widgets) (w : world) (held : cache)
  (dot : str) (time : float) (sent : list event) (c : cache) :
  accounts_ok (pg w) ->
  fst (create_user sha256_hexdigest at_sign_up email password w) = Ok true ->
  at_login Connect = None ->
  query_fault = None ->
  next_user_id (pg w) <> 0%Z ->
  generate_clicked wd = true ->
  Str.truthy (Str.strip (description wd)) = true ->
  let w1 := snd (create_user sha256_hexdigest at_sign_up email password w) in
  let w2 :=
    snd (login_submit sha256_hexdigest at_login query_fault email password
           w1) in
  let p2 := {| world_of := w2; cache_of := held |} in
  served generate_content elapsed p2 (description wd) (dot, time) sent c ->
  let p3 :=
    snd (app_generate_cached generate_content elapsed json_dumps at_logging
           wd p2) in
  (at_logging Connect = None -> at_logging InsertLog = None ->
   at_logging Commit = None ->
     last_dot (sess (world_of p3)) = Some dot
     /\ logs (committed (pg (world_of p3)))
        = logs (committed (pg w)) ++
          [log_of json_dumps (next_log_id (pg w)) (next_project_id (pg w))
             (description wd) dot time]
     /\ users (committed (pg (world_of p3))) = users (committed (pg w1))
     /\ projects (committed (pg (world_of p3)))
        = projects (committed (pg w1)))
  /\ (forall e,
        at_logging Connect = Some e \/ at_logging InsertLog = Some e
        \/ at_logging Commit = Some e ->
        logs (committed (pg (world_of p3))) = logs (committed (pg w))).
Proof.
  intros [_ [Hids Hprojects]] Hok Hc Hq Hid Hclick Hdesc. cbv zeta.
  rewrite (login_after_sign_up email password w Hok Hc Hq Hid). cbn [snd].
  intros Hserved.
  rewrite (app_generate_cached_run generate_content elapsed json_dumps
             at_logging wd _ dot time sent c Hclick Hdesc Hserved).
  cbv zeta. cbn [snd world_of ui sess pg signed_in user_id].
  destruct (create_user_true_commits sha256_hexdigest at_sign_up email
              password w Hok) as [_ Hseq].
  destruct (create_user_run sha256_hexdigest at_sign_up email password w)
    as [[_ [_ [_ [Hcom _]]]]|[Hfalse _]]; [|congruence].
  cbn [set_txn committed next_log_id].
  rewrite Hcom, Hseq. unfold first_project. cbn [signed_up projects].
  rewrite (find_project_app_new (projects (committed (pg w)))
             {| p_id := next_project_id (pg w);
                p_user_id := next_user_id (pg w);
                p_name := lit "My First ERD Project";
                p_description := lit "Default workspace" |}
             (next_user_id (pg w)));
    [| intros x Hx; destruct (Hprojects x Hx) as [_ [u [Hu Hux]]];
       specialize (Hids u Hu); lia
     | reflexivity].
  split.
  - intros Hc3 Hl3 Hm3. rewrite Hc3, Hl3, Hm3.
    cbn [sess pg last_dot with_diagram committed logs users projects p_id
         signed_up].
    repeat split.
  - intros e Hfault.
    destruct (at_logging Connect) eqn:E1;
      [cbn [pg set_txn committed]; rewrite ?Hcom; reflexivity|].
    destruct (at_logging InsertLog) eqn:E2;
      [cbn [pg set_txn committed]; rewrite ?Hcom; reflexivity|].
    destruct (at_logging Commit) eqn:E3;
      [cbn [pg set_txn committed]; rewrite ?Hcom; reflexivity|].
    destruct Hfault as [H|[H|H]]; discriminate H.
Qed.

(** Pressing Generate twice with the same description, the second press
    with a model, a clock and faults of its own.  When the cache held
    nothing for the description and the model answered the first press,
    the answer is in the cache whatever the database did, and the second
    press, finding it there, sends no request, asks the model nothing and
    stores the same text as the diagram; the row it logs carries the time
    measured at the first press. *)
Theorem second_press_is_served_from_cache
  (wd : widgets) (p : process) (text : str) :
  generate_clicked wd = true ->
  Str.truthy (Str.strip (description wd)) = true ->
  cache_lookup (cache_of p) (description wd) = None ->
  generate_content (dot_request (description wd)) = Ok (Some text) ->
  text <> [] ->
  let first_time := elapsed (dot_request (description wd)) in
  let p1 :=
    snd (app_generate_cached generate_content elapsed json_dumps at_logging
           wd p) in
  let p2 :=
    snd (app_generate_cached later_content later_elapsed json_dumps
           later_faults wd p1) in
  exists dot,
    strip_fence text = Ok dot
    /\ cache_lookup (cache_of p1) (description wd) = Some (dot, first_time)
    /\ llm_calls (ui (world_of p1))
       = llm_calls (ui (world_of p)) ++ [dot_request (description wd)]
    /\ llm_calls (ui (world_of p2)) = llm_calls (ui (world_of p1))
    /\ last_dot (sess (world_of p2)) = Some dot
    /\ cache_of p2 = cache_of p1
    /\ (forall uid proj,
          later_faults Connect = None ->
          later_faults InsertLog = None ->
          later_faults Commit = None ->
          user_id (sess (world_of p1)) = Some uid ->
          first_project (committed (pg (world_of p1))) uid = Some proj ->
          logs (committed (pg (world_of p2)))
          = logs (committed (pg (world_of p1))) ++
            [log_of json_dumps (next_log_id (pg (world_of p1))) (p_id proj)
               (description wd) dot first_time]).
Proof.
  intros Hclick Hdesc Hmiss Hanswer Htext. cbv zeta.
  destruct (strip_fence_total text) as [dot Hdot].
  exists dot. split; [exact Hdot|].
  assert (Hfirst : served generate_content elapsed p (description wd)
                     (dot, elapsed (dot_request (description wd)))
                     [LLMCall (dot_request (description wd))]
                     ((description wd,
                       (dot, elapsed (dot_request (description wd))))
                      :: cache_of p)).
  { right. split; [exact Hmiss|]. split.
    - exists text. split; [exact Hanswer|]. split; assumption.
    - repeat split. }
  rewrite (app_generate_cached_run generate_content elapsed json_dumps
             at_logging wd p _ _ _ _ Hclick Hdesc Hfirst).
  cbv zeta. cbn [snd].
  match goal with
  | |- context [{| world_of := ?W; cache_of := ?C |}] =>
      set (w1 := W); set (c1 := C)
  end.
  assert (Hhit : cache_lookup c1 (description wd)
                 = Some (dot, elapsed (dot_request (description wd)))).
  { unfold c1, cache_lookup. cbn [find fst snd].
    now rewrite str_eqb_refl. }
  assert (Hsecond : served later_content later_elapsed
                      {| world_of := w1; cache_of := c1 |} (description wd)
                      (dot, elapsed (dot_request (description wd))) [] c1).
  { left. cbn [cache_of]. repeat split. exact Hhit. }
  rewrite (app_generate_cached_run later_content later_elapsed json_dumps
             later_faults wd _ _ _ _ _ Hclick Hdesc Hsecond).
  cbv zeta. cbn [snd world_of cache_of]. rewrite app_nil_r.
  split; [exact Hhit|]. split.
  { unfold w1.
    destruct (at_logging Connect);
      [cbn [ui]; rewrite !llm_calls_app; cbn [llm_calls flat_map app];
       now rewrite app_nil_r|].
    destruct (at_logging InsertLog);
      [cbn [ui]; rewrite !llm_calls_app; cbn [llm_calls flat_map app];
       now rewrite app_nil_r|].
    destruct (match user_id (sess (world_of p)) with
              | Some uid => first_project (committed (pg (world_of p))) uid
              | None => None
              end);
      destruct (at_logging Commit);
      cbn [ui]; rewrite !llm_calls_app; cbn [llm_calls flat_map app];
      now rewrite ?app_nil_r. }
  split.
  { destruct (later_faults Connect);
      [cbn [ui]; rewrite llm_calls_app; cbn [llm_calls flat_map app];
       now rewrite app_nil_r|].
    destruct (later_faults InsertLog);
      [cbn [ui]; rewrite llm_calls_app; cbn [llm_calls flat_map app];
       now rewrite app_nil_r|].
    destruct (match user_id (sess w1) with
              | Some uid => first_project (committed (pg w1)) uid
              | None => None
              end);
      destruct (later_faults Commit);
      cbn [ui]; rewrite ?llm_calls_app; cbn [llm_calls flat_map app];
      now rewrite ?app_nil_r. }
  split.
  { destruct (later_faults Connect); [reflexivity|].
    destruct (later_faults InsertLog); [reflexivity|].
    destruct (match user_id (sess w1) with
              | Some uid => first_project (committed (pg w1)) uid
              | None => None
              end);
      destruct (later_faults Commit); reflexivity. }
  split; [reflexivity|].
  intros uid proj Hc Hl Hm Huid Hproj.
  now rewrite Hc, Hl, Hm, Huid, Hproj.
Qed.

End SeveralCalls.

(* ================================================================== *)
(** * Examples and counterexamples *)
(* ================================================================== *)

Lemma demo_py_str_str (s : str) : Demo.py_str (PStr s) = s.
Proof. reflexivity. Defined.

Lemma demo_lower_ascii (s : str) :
  Str.is_ascii s = true -> Demo.lower s = List.map Str.lower_ascii_char s.
Proof. reflexivity. Defined.

(** The decoder reads the example of the spec as the shop. *)
Lemma shop_json_decodes :
  Json.loads Demo.shop_json = Ok (of_spec Demo.shop)
  /\ as_spec (of_spec Demo.shop) = Some Demo.shop.
Proof. split; vm_compute; reflexivity. Qed.

(** The example of the spec, from the button to the page: one request,
    the diagram of the shop, the schema of the shop. *)
Lemma shop_end_to_end :
  autoergen_generate (Demo.answers (Some Demo.shop_json)) Json.loads
    Demo.py_str Demo.lower Demo.engine_accepts
    (lit "Customers place Orders") (Demo.start Demo.logged_out)
  = (Ok tt,
     {| ui := [LLMCall (er_request (lit "Customers place Orders"));
               St st_subheader (lit "ER Diagram");
               StGraphvizChart (ChartGraph (diagram_of Demo.shop));
               St st_subheader (lit "SQL Schema");
               StCode (schema_of Demo.lower Demo.shop) (lit "sql")];
        sess := Demo.logged_out;
        pg := Demo.fresh_server |}).
Proof. vm_compute; reflexivity. Qed.

(** C1 on a response that is no JSON at all, and on a model that cannot
    be reached: the empty specification. *)
Lemma generate_er_spec_falls_back_witness :
  Json.loads (clean_json_text (lit "Sorry, I cannot help with that."))
  = Err JSONDecodeError
  /\ fst (generate_er_spec
            (Demo.answers (Some (lit "Sorry, I cannot help with that.")))
            Json.loads (lit "a shop") (Demo.start Demo.logged_out))
     = Ok empty_er_spec
  /\ fst (generate_er_spec Demo.unreachable Json.loads (lit "a shop")
            (Demo.start Demo.logged_out))
     = Ok empty_er_spec.
Proof.
  split; [vm_compute; reflexivity|]. split.
  - destruct (generate_er_spec_falls_back
                (Demo.answers (Some (lit "Sorry, I cannot help with that.")))
                Json.loads (lit "a shop") (Demo.start Demo.logged_out))
      as [er_data [Hrun [Hrejected _]]].
    rewrite Hrun. f_equal.
    apply (Hrejected (lit "Sorry, I cannot help with that.") JSONDecodeError).
    + reflexivity.
    + vm_compute; reflexivity.
  - destruct (generate_er_spec_falls_back Demo.unreachable Json.loads
                (lit "a shop") (Demo.start Demo.logged_out))
      as [er_data [Hrun [_ [_ [_ Hfailed]]]]].
    rewrite Hrun. f_equal.
    now apply (Hfailed (ExternalError (lit "503 Service Unavailable"))).
Defined.

(** C1 fails on JSON of another shape: the responses [[]] and
    [{"entities": 5}] are valid JSON, neither is an ER Specification, and
    each is returned as decoded instead of the empty specification. *)
Lemma generate_er_spec_keeps_other_shapes :
  (fst (generate_er_spec (Demo.answers (Some (lit "[]"))) Json.loads
          (lit "a shop") (Demo.start Demo.logged_out))
   = Ok (PList [])
   /\ as_spec (PList []) = None
   /\ PList [] <> empty_er_spec)
  /\ (fst (generate_er_spec (Demo.answers (Some (qlit "{'entities': 5}")))
             Json.loads (lit "a shop") (Demo.start Demo.logged_out))
      = Ok (PDict [(lit "entities", PInt 5)])
      /\ as_spec (PDict [(lit "entities", PInt 5)]) = None
      /\ PDict [(lit "entities", PInt 5)] <> empty_er_spec).
Proof.
  split; (split; [vm_compute; reflexivity|]);
    (split; [reflexivity|discriminate]).
Qed.

(** C2 on the shop. *)
Lemma schema_text_in_order_witness :
  as_spec (of_spec Demo.shop) = Some Demo.shop
  /\ generate_sql_schema Demo.py_str Demo.lower (of_spec Demo.shop)
     = Ok (lit "CREATE TABLE Customer (" ++ nl
           ++ lit "    id INT PRIMARY KEY," ++ nl
           ++ lit "    name VARCHAR(100)" ++ nl
           ++ lit ");" ++ nl ++ nl
           ++ lit "CREATE TABLE Order (" ++ nl
           ++ lit "    id INT PRIMARY KEY," ++ nl
           ++ lit "    name VARCHAR(100)" ++ nl
           ++ lit ");" ++ nl ++ nl
           ++ lit "-- Customer places Order" ++ nl
           ++ lit "ALTER TABLE Customer ADD COLUMN order_id INT REFERENCES Order(id);").
Proof.
  split; [reflexivity|].
  rewrite (proj1 (schema_text_in_order Demo.py_str demo_py_str_str
                    Demo.lower demo_lower_ascii
                    (of_spec Demo.shop) (of_spec Demo.shop) Demo.shop
                    eq_refl eq_refl)).
  vm_compute; reflexivity.
Defined.

(** C3 on the shop. *)
Lemma diagram_nodes_and_edges_witness :
  as_spec (of_spec Demo.shop) = Some Demo.shop
  /\ NoDup (entities Demo.shop)
  /\ exists g,
       create_er_diagram (of_spec Demo.shop) = Ok g
       /\ nodes g
          = [Node (PStr (lit "Customer")) (PStr (lit "Customer"))
               [(lit "shape", lit "box"); (lit "style", lit "filled");
                (lit "color", lit "lightblue")];
             Node (PStr (lit "Order")) (PStr (lit "Order"))
               [(lit "shape", lit "box"); (lit "style", lit "filled");
                (lit "color", lit "lightblue")]]
       /\ (forall n, In n (nodes g) -> shape_of n = Some (lit "box"))
       /\ nodes_named (lit "Customer") g = 1
       /\ nodes_named (lit "Invoice") g = 0
       /\ edges g = [Edge (PStr (lit "Customer")) (PStr (lit "Order"))
                          (PStr (lit "places"))].
Proof.
  assert (Hnd : NoDup (entities Demo.shop)).
  { repeat constructor; simpl; intuition discriminate. }
  split; [reflexivity|]. split; [exact Hnd|].
  destruct (diagram_nodes_and_edges (of_spec Demo.shop) Demo.shop eq_refl Hnd)
    as [g [Hg [Hnodes [Hbox [Hnamed Hedges]]]]].
  exists g. split; [exact Hg|]. split; [exact Hnodes|].
  split; [exact Hbox|].
  split; [exact (Hnamed (lit "Customer"))|].
  split; [exact (Hnamed (lit "Invoice"))|exact Hedges].
Defined.

(** C4 on a DOT graph. *)
Lemma fenced_output_normalized_witness :
  Str.contains (lit "digraph { Customer -> Order }") fence = false
  /\ strip_fence (fenced (lit "dot") (lit "digraph { Customer -> Order }"))
     = Ok (lit "digraph { Customer -> Order }")
  /\ clean_json_text (fenced (lit "json") Demo.shop_json)
     = nl ++ Demo.shop_json ++ nl.
Proof.
  split; [reflexivity|]. split.
  - exact (proj1 (proj2 (fenced_output_normalized
                           (lit "digraph { Customer -> Order }") eq_refl))).
  - exact (proj1 (proj2 (proj2 (proj2 (proj2
             (fenced_output_normalized Demo.shop_json eq_refl)))))).
Defined.

(** The fenced example of the spec decodes to the shop, as the bare one
    does. *)
Lemma fenced_shop_decodes :
  Json.loads (clean_json_text (fenced (lit "json") Demo.shop_json))
  = Ok (of_spec Demo.shop)
  /\ Json.loads (clean_json_text Demo.shop_json) = Ok (of_spec Demo.shop).
Proof. split; vm_compute; reflexivity. Qed.

(** C4 fails in three ways.  The markup variant keeps the tag [json]; it
    cuts content that holds a fence marker of its own, and cuts it
    differently when it is fenced; the structured variant keeps the tag
    [dot]. *)
Lemma fenced_output_differs :
  (strip_fence (fenced (lit "json") (lit "{}"))
   = Ok (lit "json" ++ nl ++ lit "{}")
   /\ strip_fence (lit "{}") = Ok (lit "{}"))
  /\ (strip_fence (fenced (lit "dot") (lit "a -> b [label=```]"))
      = Ok (lit "a -> b [label=")
      /\ strip_fence (lit "a -> b [label=```]") = Ok (lit "]"))
  /\ (clean_json_text (fenced (lit "dot") (lit "{}"))
      = lit "dot" ++ nl ++ lit "{}" ++ nl
      /\ clean_json_text (lit "{}") = lit "{}")
  /\ strip_fence (fenced (lit "json") (lit "{}")) <> strip_fence (lit "{}")
  /\ strip_fence (fenced (lit "dot") (lit "a -> b [label=```]"))
     <> strip_fence (lit "a -> b [label=```]").
Proof.
  repeat split; try (vm_compute; reflexivity); vm_compute; discriminate.
Qed.



(** C6 on a description of a space, a no-break space and a line feed. *)
Lemma blank_description_sends_no_request_witness :
  forallb Str.isspace (lit " " ++ [160%N] ++ nl) = true
  /\ llm_calls
       (ui (snd (autoergen_generate (Demo.answers (Some Demo.shop_json))
                   Json.loads Demo.py_str Demo.lower Demo.engine_accepts
                   (lit " " ++ [160%N] ++ nl) (Demo.start Demo.logged_out))))
     = []
  /\ llm_calls
       (ui (snd (app_main (Demo.answers (Some (lit "digraph {}")))
                   Demo.elapsed Demo.dumps Demo.engine_accepts Demo.no_fault
                   (Demo.page true (lit " " ++ [160%N] ++ nl))
                   (Demo.start (Demo.logged_in_as 1)))))
     = [].
Proof.
  split; [reflexivity|]. split.
  - exact (proj1 (blank_description_sends_no_request
                    (Demo.answers (Some Demo.shop_json)) Demo.elapsed
                    Json.loads Demo.dumps Demo.py_str Demo.lower
                    Demo.engine_accepts Demo.no_fault
                    (lit " " ++ [160%N] ++ nl) true false None
                    (Demo.start Demo.logged_out) eq_refl)).
  - exact (proj2 (blank_description_sends_no_request
                    (Demo.answers (Some (lit "digraph {}"))) Demo.elapsed
                    Json.loads Demo.dumps Demo.py_str Demo.lower
                    Demo.engine_accepts Demo.no_fault
                    (lit " " ++ [160%N] ++ nl) true false None
                    (Demo.start (Demo.logged_in_as 1)) eq_refl)).
Defined.

(** Nothing in the handler of [autoergen.py] catches what
    [create_er_diagram] raises: an answer whose relationship has no
    [from]. *)
Lemma missing_key_escapes_autoergen :
  fst (autoergen_generate
         (Demo.answers
            (Some (qlit "{'entities': ['A'], 'relationships': [{'to': 'A', 'relation': 'r'}]}")))
         Json.loads Demo.py_str Demo.lower Demo.engine_accepts
         (lit "one table") (Demo.start Demo.logged_out))
  = Err (KeyError (lit "from")).
Proof. vm_compute; reflexivity. Qed.

(** C8 on a relationship to an entity nobody declared. *)
Lemma dangling_relationship_is_drawn_witness :
  as_spec (of_spec Demo.haunted) = Some Demo.haunted
  /\ ~ In (lit "Ghost") (entities Demo.haunted)
  /\ create_er_diagram (of_spec Demo.haunted) = Ok (diagram_of Demo.haunted)
  /\ In (Edge (PStr (lit "Customer")) (PStr (lit "Ghost")) (PStr (lit "sees")))
        (edges (diagram_of Demo.haunted)).
Proof.
  assert (Hghost : ~ In (lit "Ghost") (entities Demo.haunted)).
  { simpl. intuition discriminate. }
  split; [reflexivity|]. split; [exact Hghost|].
  exact (dangling_relationship_is_drawn (of_spec Demo.haunted) Demo.haunted
           {| rel_from := lit "Customer"; rel_to := lit "Ghost";
              rel_relation := lit "sees" |}
           eq_refl (or_introl eq_refl) (or_intror Hghost)).
Defined.

(** C9 on an entry without [relation] and on an entry without [from]. *)
Lemma missing_relation_key_witness :
  as_entries Demo.unlabelled
  = Some ([lit "A"; lit "B"],
          [{| e_from := Some (lit "A"); e_to := Some (lit "B");
              e_relation := None |}])
  /\ is_key_error (generate_sql_schema Demo.py_str Demo.lower Demo.unlabelled)
     = true
  /\ (exists g,
        create_er_diagram Demo.unlabelled = Ok g
        /\ edges g = [Edge (PStr (lit "A")) (PStr (lit "B")) (PStr [])])
  /\ is_key_error (create_er_diagram Demo.endless) = true
  /\ is_key_error (generate_sql_schema Demo.py_str Demo.lower Demo.endless)
     = true.
Proof.
  split; [reflexivity|].
  destruct (missing_relation_key Demo.py_str demo_py_str_str Demo.lower
              Demo.unlabelled _ _ eq_refl) as [Hrel _].
  destruct (Hrel eq_refl) as [Hsql Hdraw].
  split; [exact Hsql|]. split.
  - destruct (Hdraw eq_refl) as [g [Hg [Hedges _]]].
    exists g. split; [exact Hg|exact Hedges].
  - exact (proj2 (missing_relation_key Demo.py_str demo_py_str_str Demo.lower
                    Demo.endless
                    [lit "A"]
                    [{| e_from := None; e_to := Some (lit "A");
                        e_relation := Some (lit "r") |}]
                    eq_refl) eq_refl).
Defined.

(** C10 on a fresh server: a sign-up that succeeds, and one whose commit
    fails. *)
Lemma create_user_atomic_witness :
  (fst (create_user Demo.hash Demo.no_fault (lit "ada@example.org")
          (lit "secret") (Demo.start Demo.logged_out))
   = Ok true
   /\ committed (pg (snd (create_user Demo.hash Demo.no_fault
                            (lit "ada@example.org") (lit "secret")
                            (Demo.start Demo.logged_out))))
      = {| users := [{| u_id := 1; u_email := lit "ada@example.org";
                        u_password_hash := lit "sha256:secret" |}];
           projects := [{| p_id := 1; p_user_id := 1;
                           p_name := lit "My First ERD Project";
                           p_description := lit "Default workspace" |}];
           logs := [] |})
  /\ (fst (create_user Demo.hash (Demo.fault_at Commit)
             (lit "ada@example.org") (lit "secret")
             (Demo.start Demo.logged_out))
      = Ok false
      /\ committed (pg (snd (create_user Demo.hash (Demo.fault_at Commit)
                               (lit "ada@example.org") (lit "secret")
                               (Demo.start Demo.logged_out))))
         = Demo.no_tables).
Proof.
  split.
  - destruct (create_user_atomic Demo.hash Demo.no_fault
                (lit "ada@example.org") (lit "secret")
                (Demo.start Demo.logged_out))
      as [_ [Hiff [Hdone _]]].
    assert (Htrue := proj2 Hiff (conj eq_refl eq_refl)).
    split; [exact Htrue|]. exact (proj1 (Hdone Htrue)).
  - destruct (create_user_atomic Demo.hash (Demo.fault_at Commit)
                (lit "ada@example.org") (lit "secret")
                (Demo.start Demo.logged_out))
      as [Hret [Hiff [_ [Hkept _]]]].
    assert (Hfalse : fst (create_user Demo.hash (Demo.fault_at Commit)
                            (lit "ada@example.org") (lit "secret")
                            (Demo.start Demo.logged_out)) = Ok false).
    { destruct Hret as [Ht|Hf]; [|exact Hf].
      destruct (proj1 Hiff Ht) as [Hno _]. discriminate Hno. }
    split; [exact Hfalse|]. exact (proj1 (Hkept Hfalse)).
Defined.

(* ------------------------------------------------------------------ *)
(** ** The normalizers on an answer with prose around the block *)

Lemma strip_fence_drops_prose_witness :
  strip_fence ((lit "Here you go:" ++ nl)
               ++ fenced (lit "dot") Office.drawing
               ++ (nl ++ lit "Anything else?"))
  = Ok Office.drawing.
Proof.
  apply (strip_fence_drops_prose (lit "Here you go:" ++ nl)
           (nl ++ lit "Anything else?") (lit "dot") Office.drawing).
  - intros H. vm_compute in H.
    repeat (destruct H as [H|H]; [discriminate H|]). exact H.
  - right. reflexivity.
  - reflexivity.
Defined.

(* ------------------------------------------------------------------ *)
(** ** Accounts in the office *)

Lemma authenticate_user_is_sound_witness :
  exists u,
    In u (users (committed (pg Office.lobby)))
    /\ credentials_match Demo.hash u (lit "ada@example.org") (lit "secret")
    /\ u_id u = 1%Z.
Proof.
  apply (authenticate_user_is_sound Demo.hash Demo.no_fault None
           (lit "ada@example.org") (lit "secret") Office.lobby 1%Z).
  reflexivity.
Defined.

Lemma authenticate_user_finds_account_witness :
  fst (authenticate_user Demo.hash Demo.no_fault None
         (lit "ada@example.org") (lit "secret") Office.lobby)
  = Ok (Some 1%Z)
  /\ fst (authenticate_user Demo.hash Demo.no_fault None
            (lit "ada@example.org") (lit "guess") Office.lobby)
     = Ok None.
Proof.
  apply (authenticate_user_finds_account Demo.hash Demo.no_fault None
           (lit "secret") (lit "guess") Office.lobby Office.ada).
  - reflexivity.
  - reflexivity.
  - constructor; [intros H; exact H|constructor].
  - left. reflexivity.
  - reflexivity.
  - intros H. vm_compute in H. discriminate H.
Defined.

Lemma authenticate_user_leaves_connection_open_witness :
  txn (pg (snd (authenticate_user Demo.hash Demo.no_fault None
                  (lit "ada@example.org") (lit "secret") Office.lobby)))
  = None
  /\ fst (authenticate_user Demo.hash Demo.no_fault (Some Office.query_lost)
            (lit "ada@example.org") (lit "secret") Office.lobby)
     = Err Office.query_lost
  /\ txn (pg (snd (authenticate_user Demo.hash Demo.no_fault
                     (Some Office.query_lost)
                     (lit "ada@example.org") (lit "secret") Office.lobby)))
     = Some (committed Office.server).
Proof.
  split.
  - exact (proj2 (proj1 (authenticate_user_leaves_connection_open
                           Demo.hash Demo.no_fault None
                           (lit "ada@example.org") (lit "secret")
                           Office.lobby eq_refl)
                    eq_refl)).
  - exact (proj2 (authenticate_user_leaves_connection_open
                    Demo.hash Demo.no_fault (Some Office.query_lost)
                    (lit "ada@example.org") (lit "secret")
                    Office.lobby eq_refl)
             Office.query_lost eq_refl).
Defined.


Lemma create_user_keeps_accounts_ok_witness :
  accounts_ok Office.server
  /\ accounts_ok
       (pg (snd (create_user Demo.hash Demo.no_fault (lit "bob@example.org")
                   (lit "hunter2") Office.lobby))).
Proof.
  assert (H : accounts_ok Office.server).
  { split; [|split].
    - constructor; [intros H; exact H|constructor].
    - intros u [<-|[]]. reflexivity.
    - intros r [<-|[]]. split; [reflexivity|].
      exists Office.ada. split; [left|]; reflexivity. }
  split; [exact H|].
  exact (create_user_keeps_accounts_ok Demo.hash Demo.no_fault
           (lit "bob@example.org") (lit "hunter2") Office.lobby H).
Defined.

Lemma sign_up_then_authenticate_witness :
  (fst (authenticate_user Demo.hash Demo.no_fault None
          (lit "ada@example.org") (lit "secret")
          (snd (create_user Demo.hash Demo.no_fault (lit "ada@example.org")
                  (lit "secret") (Demo.start Demo.logged_out))))
   = Ok (Some 1%Z)
   /\ fst (authenticate_user Demo.hash Demo.no_fault None
             (lit "ada@example.org") (lit "guess")
             (snd (create_user Demo.hash Demo.no_fault (lit "ada@example.org")
                     (lit "secret") (Demo.start Demo.logged_out))))
      = Ok None)
  /\ fst (authenticate_user Demo.hash (Demo.fault_at Connect) None
            (lit "ada@example.org") (lit "secret")
            (snd (create_user Demo.hash Demo.no_fault (lit "ada@example.org")
                    (lit "secret") (Demo.start Demo.logged_out))))
     = Ok None.
Proof.
  split.
  - destruct (proj1 (sign_up_then_authenticate Demo.hash Demo.no_fault
                       Demo.no_fault None
                       (lit "ada@example.org") (lit "secret") (lit "guess")
                       (Demo.start Demo.logged_out) eq_refl)
                eq_refl eq_refl) as [Hright Hwrong].
    split; [exact Hright|]. apply Hwrong.
    intros H. vm_compute in H. discriminate H.
  - exact (proj1 (proj1 (proj2 (sign_up_then_authenticate Demo.hash
                                  Demo.no_fault (Demo.fault_at Connect) None
                                  (lit "ada@example.org") (lit "secret")
                                  (lit "guess")
                                  (Demo.start Demo.logged_out) eq_refl))
                    (ExternalError (lit "connection lost")) eq_refl)).
Defined.

(* ------------------------------------------------------------------ *)
(** ** Logging in *)

Lemma login_is_sound_witness :
  fst (login_submit Demo.hash Demo.no_fault None (lit "ada@example.org")
         (lit "secret") Office.lobby)
  = Ok Rerun
  /\ (exists u,
        In u (users (committed Office.server))
        /\ credentials_match Demo.hash u (lit "ada@example.org")
             (lit "secret")
        /\ u_id u <> 0%Z
        /\ sess (snd (login_submit Demo.hash Demo.no_fault None
                        (lit "ada@example.org") (lit "secret")
                        Office.lobby))
           = signed_in (u_id u) None)
  /\ sess (snd (login_submit Demo.hash Demo.no_fault None
                  (lit "ada@example.org") (lit "guess") Office.lobby))
     = Demo.logged_out.
Proof.
  split; [reflexivity|]. split.
  - exact (proj1 (login_is_sound Demo.hash Demo.no_fault None
                    (lit "ada@example.org") (lit "secret") Office.lobby)
             eq_refl).
  - apply (proj2 (login_is_sound Demo.hash Demo.no_fault None
                    (lit "ada@example.org") (lit "guess") Office.lobby)).
    intros H. vm_compute in H. discriminate H.
Defined.

Lemma sign_up_then_log_in_witness :
  (fst (login_submit Demo.hash Demo.no_fault None (lit "ada@example.org")
          (lit "secret")
          (snd (create_user Demo.hash Demo.no_fault (lit "ada@example.org")
                  (lit "secret") (Demo.start Demo.logged_out))))
   = Ok Rerun
   /\ sess (snd (login_submit Demo.hash Demo.no_fault None
                   (lit "ada@example.org") (lit "secret")
                   (snd (create_user Demo.hash Demo.no_fault
                           (lit "ada@example.org") (lit "secret")
                           (Demo.start Demo.logged_out)))))
      = signed_in 1 None)
  /\ (fst (login_submit Demo.hash (Demo.fault_at Connect) None
             (lit "ada@example.org") (lit "secret")
             (snd (create_user Demo.hash Demo.no_fault
                     (lit "ada@example.org") (lit "secret")
                     (Demo.start Demo.logged_out))))
      = Ok Continue
      /\ sess (snd (login_submit Demo.hash (Demo.fault_at Connect) None
                      (lit "ada@example.org") (lit "secret")
                      (snd (create_user Demo.hash Demo.no_fault
                              (lit "ada@example.org") (lit "secret")
                              (Demo.start Demo.logged_out)))))
         = Demo.logged_out).
Proof.
  split.
  - apply (proj1 (sign_up_then_log_in Demo.hash Demo.no_fault Demo.no_fault
                    None (lit "ada@example.org") (lit "secret")
                    (Demo.start Demo.logged_out) eq_refl)).
    + reflexivity.
    + reflexivity.
    + discriminate.
  - destruct (proj2 (sign_up_then_log_in Demo.hash Demo.no_fault
                       (Demo.fault_at Connect) None
                       (lit "ada@example.org") (lit "secret")
                       (Demo.start Demo.logged_out) eq_refl)
                (ExternalError (lit "connection lost")) eq_refl)
      as [Hflow [Hsess _]].
    split; [exact Hflow|exact Hsess].
Defined.

Lemma user_zero_cannot_log_in_witness :
  login_submit Demo.hash Demo.no_fault None (lit "root@example.org")
    (lit "toor") Office.zero_lobby
  = (Ok Continue,
     {| ui := [St st_error (lit "Invalid credentials")];
        sess := Demo.logged_out;
        pg := pg Office.zero_lobby |}).
Proof.
  apply (user_zero_cannot_log_in Demo.hash Demo.no_fault None (lit "toor")
           Office.zero_lobby Office.root).
  - reflexivity.
  - reflexivity.
  - constructor; [intros H; exact H|constructor].
  - left. reflexivity.
  - reflexivity.
  - reflexivity.
Defined.

(* ------------------------------------------------------------------ *)
(** ** Generating and logging *)

(** Ada's description is in the cache; the model is out of reach. *)
Lemma app_generate_logs_the_exchange_witness :
  app_generate_cached Demo.unreachable Demo.elapsed Demo.dumps Demo.no_fault
    (Demo.page true (lit "a shop"))
    {| world_of := Office.desk None; cache_of := Office.warm |}
  = (Ok tt,
     {| world_of :=
          {| ui := [] ++ [];
             sess := with_diagram (sess (Office.desk None)) Office.drawing;
             pg := {| committed :=
                        {| users := [Office.ada];
                           projects := [Office.ada_project];
                           logs := [] ++
                             [log_of Demo.dumps 1 1 (lit "a shop")
                                Office.drawing Office.earlier] |};
                      txn := None; next_user_id := 2; next_project_id := 2;
                      next_log_id := 1 + 1; commits := 2 |} |};
        cache_of := Office.warm |})
  /\ exists dot,
       strip_fence (fenced (lit "dot") Office.drawing) = Ok dot
       /\ app_generate_cached
            (Demo.answers (Some (fenced (lit "dot") Office.drawing)))
            Demo.elapsed Demo.dumps Demo.no_fault
            (Demo.page true (lit "a shop"))
            {| world_of := Office.desk None; cache_of := [] |}
          = (Ok tt,
             {| world_of :=
                  {| ui := [] ++ [LLMCall (dot_request (lit "a shop"))];
                     sess := with_diagram (sess (Office.desk None)) dot;
                     pg := {| committed :=
                                {| users := [Office.ada];
                                   projects := [Office.ada_project];
                                   logs := [] ++
                                     [log_of Demo.dumps 1 1 (lit "a shop") dot
                                        (Demo.elapsed
                                           (dot_request (lit "a shop")))] |};
                              txn := None; next_user_id := 2;
                              next_project_id := 2; next_log_id := 1 + 1;
                              commits := 2 |} |};
                cache_of :=
                  [(lit "a shop",
                    (dot, Demo.elapsed (dot_request (lit "a shop"))))] |}).
Proof.
  split.
  - apply (app_generate_logs_the_exchange Demo.unreachable Demo.elapsed
             Demo.dumps Demo.no_fault (Demo.page true (lit "a shop"))
             {| world_of := Office.desk None; cache_of := Office.warm |}
             Office.drawing Office.earlier [] Office.warm 1%Z
             Office.ada_project); try reflexivity.
    left. repeat split.
  - exists Office.drawing. split; [reflexivity|].
    apply (app_generate_logs_the_exchange
             (Demo.answers (Some (fenced (lit "dot") Office.drawing)))
             Demo.elapsed Demo.dumps Demo.no_fault
             (Demo.page true (lit "a shop"))
             {| world_of := Office.desk None; cache_of := [] |}
             Office.drawing (Demo.elapsed (dot_request (lit "a shop")))
             [LLMCall (dot_request (lit "a shop"))]
             [(lit "a shop",
               (Office.drawing, Demo.elapsed (dot_request (lit "a shop"))))]
             1%Z Office.ada_project); try reflexivity.
    right. split; [reflexivity|]. split.
    + exists (fenced (lit "dot") Office.drawing).
      split; [reflexivity|]. split; [discriminate|reflexivity].
    + repeat split.
Defined.

Lemma app_generate_without_project_witness :
  app_generate_cached (Demo.answers (Some Office.drawing)) Demo.elapsed
    Demo.dumps Demo.no_fault (Demo.page true (lit "a shop"))
    {| world_of := Demo.start (Demo.logged_in_as 1); cache_of := [] |}
  = (Ok tt,
     {| world_of :=
          {| ui := [] ++ [LLMCall (dot_request (lit "a shop"))];
             sess := with_diagram (Demo.logged_in_as 1) Office.drawing;
             pg := {| committed := Demo.no_tables; txn := None;
                      next_user_id := 1; next_project_id := 1;
                      next_log_id := 1; commits := 1 |} |};
        cache_of :=
          [(lit "a shop",
            (Office.drawing, Demo.elapsed (dot_request (lit "a shop"))))] |}).
Proof.
  apply (app_generate_without_project
           (Demo.answers (Some Office.drawing)) Demo.elapsed Demo.dumps
           Demo.no_fault (Demo.page true (lit "a shop"))
           {| world_of := Demo.start (Demo.logged_in_as 1); cache_of := [] |}
           Office.drawing (Demo.elapsed (dot_request (lit "a shop")))
           [LLMCall (dot_request (lit "a shop"))]
           [(lit "a shop",
             (Office.drawing, Demo.elapsed (dot_request (lit "a shop"))))]);
    try reflexivity.
  right. split; [reflexivity|]. split.
  - exists Office.drawing. split; [reflexivity|].
    split; [discriminate|reflexivity].
  - repeat split.
Defined.

(** The commit fails after the model answered: the answer is cached. *)
Lemma app_generate_database_failure_witness :
  cache_of
    (snd (app_generate_cached (Demo.answers (Some Office.drawing))
            Demo.elapsed Demo.dumps (Demo.fault_at Commit)
            (Demo.page true (lit "a shop"))
            {| world_of := Office.desk None; cache_of := [] |}))
  = [(lit "a shop",
      (Office.drawing, Demo.elapsed (dot_request (lit "a shop"))))]
  /\ sess (world_of
             (snd (app_generate_cached (Demo.answers (Some Office.drawing))
                     Demo.elapsed Demo.dumps (Demo.fault_at Commit)
                     (Demo.page true (lit "a shop"))
                     {| world_of := Office.desk None; cache_of := [] |})))
     = with_diagram (sess (Office.desk None)) Office.drawing
  /\ ui (world_of
           (snd (app_generate_cached (Demo.answers (Some Office.drawing))
                   Demo.elapsed Demo.dumps (Demo.fault_at Commit)
                   (Demo.page true (lit "a shop"))
                   {| world_of := Office.desk None; cache_of := [] |})))
     = ([] ++ [LLMCall (dot_request (lit "a shop"))]) ++
       [StErrorExn (lit "Error calling Gemini: ")
          (ExternalError (lit "connection lost"))]
  /\ committed
       (pg (world_of
              (snd (app_generate_cached (Demo.answers (Some Office.drawing))
                      Demo.elapsed Demo.dumps (Demo.fault_at Commit)
                      (Demo.page true (lit "a shop"))
                      {| world_of := Office.desk None; cache_of := [] |}))))
     = committed Office.server.
Proof.
  destruct (app_generate_database_failure
              (Demo.answers (Some Office.drawing)) Demo.elapsed Demo.dumps
              (Demo.fault_at Commit) (Demo.page true (lit "a shop"))
              {| world_of := Office.desk None; cache_of := [] |}
              Office.drawing (Demo.elapsed (dot_request (lit "a shop")))
              [LLMCall (dot_request (lit "a shop"))]
              [(lit "a shop",
                (Office.drawing, Demo.elapsed (dot_request (lit "a shop"))))]
              (ExternalError (lit "connection lost")))
    as [_ [Hcache [Hsess [_ Hfail]]]].
  - reflexivity.
  - reflexivity.
  - right. split; [reflexivity|]. split.
    + exists Office.drawing. split; [reflexivity|].
      split; [discriminate|reflexivity].
    + repeat split.
  - destruct (Hfail eq_refl (or_intror (conj eq_refl eq_refl)))
      as [Hui [Hcom _]].
    split; [exact Hcache|]. split; [exact Hsess|].
    split; [exact Hui|exact Hcom].
Defined.

Lemma first_diagram_is_logged_to_default_project_witness :
  logs (committed
          (pg (world_of
                 (snd (app_generate_cached
                         (Demo.answers (Some Office.drawing))
                         Demo.elapsed Demo.dumps Demo.no_fault
                         (Demo.page true (lit "a shop"))
                         {| world_of :=
                              snd (login_submit Demo.hash Demo.no_fault None
                                     (lit "bob@example.org") (lit "hunter2")
                                     (snd (create_user Demo.hash Demo.no_fault
                                             (lit "bob@example.org")
                                             (lit "hunter2") Office.lobby)));
                            cache_of := [] |})))))
  = [] ++ [log_of Demo.dumps 1 2 (lit "a shop") Office.drawing
             (Demo.elapsed (dot_request (lit "a shop")))]
  /\ logs (committed
             (pg (world_of
                    (snd (app_generate_cached
                            (Demo.answers (Some Office.drawing))
                            Demo.elapsed Demo.dumps (Demo.fault_at Connect)
                            (Demo.page true (lit "a shop"))
                            {| world_of :=
                                 snd (login_submit Demo.hash Demo.no_fault
                                        None
                                        (lit "bob@example.org")
                                        (lit "hunter2")
                                        (snd (create_user Demo.hash
                                                Demo.no_fault
                                                (lit "bob@example.org")
                                                (lit "hunter2")
                                                Office.lobby)));
                               cache_of := [] |})))))
     = [].
Proof.
  assert (Hok : accounts_ok Office.server).
  { split; [|split].
    - constructor; [intros H; exact H|constructor].
    - intros u [<-|[]]. reflexivity.
    - intros r [<-|[]]. split; [reflexivity|].
      exists Office.ada. split; [left|]; reflexivity. }
  assert (Hserved :
    forall f,
      served (Demo.answers (Some Office.drawing)) Demo.elapsed
        {| world_of :=
             snd (login_submit Demo.hash f None
                    (lit "bob@example.org") (lit "hunter2")
                    (snd (create_user Demo.hash Demo.no_fault
                            (lit "bob@example.org") (lit "hunter2")
                            Office.lobby)));
           cache_of := [] |}
        (lit "a shop")
        (Office.drawing, Demo.elapsed (dot_request (lit "a shop")))
        [LLMCall (dot_request (lit "a shop"))]
        [(lit "a shop",
          (Office.drawing, Demo.elapsed (dot_request (lit "a shop"))))]).
  { intros f. right. split; [reflexivity|]. split.
    - exists Office.drawing. split; [reflexivity|].
      split; [discriminate|reflexivity].
    - repeat split. }
  split.
  - destruct (proj1 (first_diagram_is_logged_to_default_project
                       Demo.hash Demo.dumps Demo.no_fault Demo.no_fault None
                       Demo.no_fault (Demo.answers (Some Office.drawing))
                       Demo.elapsed
                       (lit "bob@example.org") (lit "hunter2")
                       (Demo.page true (lit "a shop")) Office.lobby []
                       Office.drawing
                       (Demo.elapsed (dot_request (lit "a shop")))
                       [LLMCall (dot_request (lit "a shop"))]
                       [(lit "a shop",
                         (Office.drawing,
                          Demo.elapsed (dot_request (lit "a shop"))))]
                       Hok eq_refl eq_refl eq_refl
                       ltac:(discriminate) eq_refl eq_refl
                       (Hserved Demo.no_fault))
                eq_refl eq_refl eq_refl) as [_ [Hlogs _]].
    exact Hlogs.
  - exact (proj2 (first_diagram_is_logged_to_default_project
                    Demo.hash Demo.dumps Demo.no_fault Demo.no_fault None
                    (Demo.fault_at Connect)
                    (Demo.answers (Some Office.drawing)) Demo.elapsed
                    (lit "bob@example.org") (lit "hunter2")
                    (Demo.page true (lit "a shop")) Office.lobby []
                    Office.drawing
                    (Demo.elapsed (dot_request (lit "a shop")))
                    [LLMCall (dot_request (lit "a shop"))]
                    [(lit "a shop",
                      (Office.drawing,
                       Demo.elapsed (dot_request (lit "a shop"))))]
                    Hok eq_refl eq_refl eq_refl
                    ltac:(discriminate) eq_refl eq_refl
                    (Hserved Demo.no_fault))
             (ExternalError (lit "connection lost"))
             (or_introl eq_refl)).
Defined.

(** Two presses on "a shop": the model answers the first and is out of
    reach at the second. *)
Lemma second_press_is_served_from_cache_witness :
  exists dot,
    strip_fence Office.drawing = Ok dot
    /\ llm_calls
         (ui (world_of
                (snd (app_generate_cached Demo.unreachable
                        (fun _ => Office.earlier) Demo.dumps Demo.no_fault
                        (Demo.page true (lit "a shop"))
                        (snd (app_generate_cached
                                (Demo.answers (Some Office.drawing))
                                Demo.elapsed Demo.dumps Demo.no_fault
                                (Demo.page true (lit "a shop"))
                                {| world_of := Office.desk None;
                                   cache_of := [] |}))))))
       = [] ++ [dot_request (lit "a shop")]
    /\ last_dot
         (sess (world_of
                  (snd (app_generate_cached Demo.unreachable
                          (fun _ => Office.earlier) Demo.dumps Demo.no_fault
                          (Demo.page true (lit "a shop"))
                          (snd (app_generate_cached
                                  (Demo.answers (Some Office.drawing))
                                  Demo.elapsed Demo.dumps Demo.no_fault
                                  (Demo.page true (lit "a shop"))
                                  {| world_of := Office.desk None;
                                     cache_of := [] |}))))))
       = Some dot.
Proof.
  destruct (second_press_is_served_from_cache Demo.dumps Demo.no_fault
              (Demo.answers (Some Office.drawing)) Demo.elapsed
              Demo.unreachable (fun _ => Office.earlier) Demo.no_fault
              (Demo.page true (lit "a shop"))
              {| world_of := Office.desk None; cache_of := [] |}
              Office.drawing)
    as [dot [Hdot [_ [Hfirst [Hsecond [Hlast _]]]]]].
  - reflexivity.
  - reflexivity.
  - reflexivity.
  - reflexivity.
  - discriminate.
  - exists dot. split; [exact Hdot|]. split; [|exact Hlast].
    rewrite Hsecond. exact Hfirst.
Defined.

(* ------------------------------------------------------------------ *)
(** ** The main page *)

Lemma app_render_only_edits_the_diagram_witness :
  last_dot
    (sess (snd (app_render Demo.engine_accepts
                  {| generate_clicked := false; description := [];
                     edited_dot := Some (lit "digraph { B }");
                     update_clicked := true |}
                  (Office.desk (Some Office.drawing)))))
  = Some (lit "digraph { B }")
  /\ charts
       (ui (snd (app_render Demo.engine_accepts
                   {| generate_clicked := false; description := [];
                      edited_dot := Some (lit "digraph { B }");
                      update_clicked := true |}
                   (Office.desk (Some Office.drawing)))))
     = [] ++ [ChartSource (lit "digraph { B }")].
Proof.
  destruct (app_render_only_edits_the_diagram Demo.engine_accepts
              {| generate_clicked := false; description := [];
                 edited_dot := Some (lit "digraph { B }");
                 update_clicked := true |}
              (Office.desk (Some Office.drawing)))
    as [_ [_ [_ [_ [_ Hedit]]]]].
  destruct (Hedit Office.drawing (lit "digraph { B }") eq_refl eq_refl)
    as [Hdot Hchart].
  - discriminate.
  - reflexivity.
  - split; [exact Hdot|]. exact (Hchart eq_refl).
Defined.

Lemma failed_generation_keeps_the_diagram_witness :
  app_main Demo.unreachable Demo.elapsed Demo.dumps Demo.engine_accepts
    Demo.no_fault (Demo.page true (lit "a shop"))
    (Office.desk (Some Office.drawing))
  = (Ok tt,
     {| ui := [] ++
              [St st_header (lit "ER Diagram Architect (Text " ++ [8594%N]
                             ++ lit " DOT via Gemini)");
               LLMCall (dot_request (lit "a shop"));
               StErrorExn (lit "Error calling Gemini: ")
                 (ExternalError (lit "503 Service Unavailable"));
               St st_subheader (lit "DOT Source");
               St st_subheader (lit "Visual ERD");
               StGraphvizChart (ChartSource Office.drawing)];
        sess := sess (Office.desk (Some Office.drawing));
        pg := Office.server |}).
Proof.
  apply (failed_generation_keeps_the_diagram Demo.unreachable Demo.elapsed
           Demo.dumps Demo.engine_accepts Demo.no_fault
           (Demo.page true (lit "a shop"))
           (Office.desk (Some Office.drawing))
           (ExternalError (lit "503 Service Unavailable")) Office.drawing).
  - reflexivity.
  - reflexivity.
  - reflexivity.
  - reflexivity.
  - reflexivity.
  - reflexivity.
  - discriminate.
  - reflexivity.
Defined.

Lemma blank_answer_clears_the_diagram_witness :
  fst (app_main (Demo.answers (Some nl)) Demo.elapsed Demo.dumps
         Demo.engine_accepts Demo.no_fault (Demo.page true (lit "a shop"))
         (Office.desk (Some Office.drawing)))
  = Ok tt
  /\ last_dot
       (sess (snd (app_main (Demo.answers (Some nl)) Demo.elapsed Demo.dumps
                     Demo.engine_accepts Demo.no_fault
                     (Demo.page true (lit "a shop"))
                     (Office.desk (Some Office.drawing)))))
     = Some []
  /\ charts
       (ui (snd (app_main (Demo.answers (Some nl)) Demo.elapsed Demo.dumps
                   Demo.engine_accepts Demo.no_fault
                   (Demo.page true (lit "a shop"))
                   (Office.desk (Some Office.drawing)))))
     = [].
Proof.
  apply (blank_answer_clears_the_diagram (Demo.answers (Some nl))
           Demo.elapsed Demo.dumps Demo.engine_accepts Demo.no_fault
           (Demo.page true (lit "a shop"))
           (Office.desk (Some Office.drawing)) nl).
  - reflexivity.
  - reflexivity.
  - reflexivity.
  - reflexivity.
  - discriminate.
  - reflexivity.
Defined.

(* ------------------------------------------------------------------ *)
(** ** The page of autoergen.py *)

Lemma autoergen_shows_diagram_and_schema_witness :
  autoergen_generate (Demo.answers (Some Demo.shop_json)) Json.loads
    Demo.py_str Demo.lower Demo.engine_accepts
    (lit "Customers place Orders") (Demo.start Demo.logged_out)
  = (Ok tt,
     {| ui := [] ++
              [LLMCall (er_request (lit "Customers place Orders"));
               St st_subheader (lit "ER Diagram");
               StGraphvizChart (ChartGraph (diagram_of Demo.shop));
               St st_subheader (lit "SQL Schema");
               StCode (schema_of Demo.lower Demo.shop) (lit "sql")];
        sess := Demo.logged_out; pg := Demo.fresh_server |}).
Proof.
  apply (autoergen_shows_diagram_and_schema
           (Demo.answers (Some Demo.shop_json)) Json.loads Demo.py_str
           demo_py_str_str Demo.lower Demo.engine_accepts
           (lit "Customers place Orders") Demo.shop_json
           (Demo.start Demo.logged_out) (of_spec Demo.shop) Demo.shop).
  - vm_compute; discriminate.
  - reflexivity.
  - vm_compute; reflexivity.
  - reflexivity.
  - discriminate.
  - reflexivity.
Defined.

Lemma autoergen_without_entities_witness :
  autoergen_generate Demo.unreachable Json.loads Demo.py_str Demo.lower
    Demo.engine_accepts (lit "a shop") (Demo.start Demo.logged_out)
  = (Ok tt,
     {| ui := [] ++
              [LLMCall (er_request (lit "a shop"));
               StErrorExn (lit "Failed to process with Gemini: ")
                 (ExternalError (lit "503 Service Unavailable"));
               St st_error
                 (lit "Could not extract data. Try more descriptive text.")];
        sess := Demo.logged_out; pg := Demo.fresh_server |})
  /\ autoergen_generate
       (Demo.answers
          (Some (qlit "{'entities': [], 'relationships': [{'from': 'A', 'to': 'B', 'relation': 'r'}]}")))
       Json.loads Demo.py_str Demo.lower Demo.engine_accepts (lit "a shop")
       (Demo.start Demo.logged_out)
     = (Ok tt,
        {| ui := [] ++
                 [LLMCall (er_request (lit "a shop"));
                  St st_error
                    (lit "Could not extract data. Try more descriptive text.")];
           sess := Demo.logged_out; pg := Demo.fresh_server |}).
Proof.
  split.
  - apply (proj1 (autoergen_without_entities Demo.unreachable Json.loads
                    Demo.py_str Demo.lower Demo.engine_accepts (lit "a shop")
                    (Demo.start Demo.logged_out)
                    ltac:(vm_compute; discriminate))).
    reflexivity.
  - apply (proj2 (autoergen_without_entities
                    (Demo.answers
                       (Some (qlit "{'entities': [], 'relationships': [{'from': 'A', 'to': 'B', 'relation': 'r'}]}")))
                    Json.loads Demo.py_str Demo.lower Demo.engine_accepts
                    (lit "a shop") (Demo.start Demo.logged_out)
                    ltac:(vm_compute; discriminate))
             (qlit "{'entities': [], 'relationships': [{'from': 'A', 'to': 'B', 'relation': 'r'}]}")
             (PDict [(lit "entities", PList []);
                     (lit "relationships",
                      PList [PDict [(lit "from", PStr (lit "A"));
                                    (lit "to", PStr (lit "B"));
                                    (lit "relation", PStr (lit "r"))]])])
             (PList [])).
    + reflexivity.
    + vm_compute; reflexivity.
    + reflexivity.
    + reflexivity.
Defined.

Lemma autoergen_other_shape_escapes_witness :
  exists e,
    autoergen_generate (Demo.answers (Some (lit "[]"))) Json.loads
      Demo.py_str Demo.lower Demo.engine_accepts (lit "a shop")
      (Demo.start Demo.logged_out)
    = (Err e,
       {| ui := [] ++ [LLMCall (er_request (lit "a shop"))];
          sess := Demo.logged_out; pg := Demo.fresh_server |})
    /\ e = TypeError.
Proof.
  apply (autoergen_other_shape_escapes (Demo.answers (Some (lit "[]")))
           Json.loads Demo.py_str Demo.lower Demo.engine_accepts
           (lit "a shop") (lit "[]") (Demo.start Demo.logged_out)
           (PList [])).
  - vm_compute; discriminate.
  - reflexivity.
  - vm_compute; reflexivity.
  - intros ents. discriminate.
Defined.

Lemma autoergen_draws_then_raises_witness :
  edges (diagram_of_entries [lit "A"; lit "B"]
           [{| e_from := Some (lit "A"); e_to := Some (lit "B");
               e_relation := None |}])
  = [Edge (PStr (lit "A")) (PStr (lit "B")) (PStr [])]
  /\ exists key,
       autoergen_generate
         (Demo.answers
            (Some (qlit "{'entities': ['A', 'B'], 'relationships': [{'from': 'A', 'to': 'B'}]}")))
         Json.loads Demo.py_str Demo.lower Demo.engine_accepts
         (lit "two tables") (Demo.start Demo.logged_out)
       = (Err (KeyError key),
          {| ui := [] ++
                   [LLMCall (er_request (lit "two tables"));
                    St st_subheader (lit "ER Diagram");
                    StGraphvizChart
                      (ChartGraph
                         (diagram_of_entries [lit "A"; lit "B"]
                            [{| e_from := Some (lit "A");
                                e_to := Some (lit "B");
                                e_relation := None |}]));
                    St st_subheader (lit "SQL Schema")];
             sess := Demo.logged_out; pg := Demo.fresh_server |}).
Proof.
  apply (autoergen_draws_then_raises
           (Demo.answers
              (Some (qlit "{'entities': ['A', 'B'], 'relationships': [{'from': 'A', 'to': 'B'}]}")))
           Json.loads Demo.py_str demo_py_str_str Demo.lower
           Demo.engine_accepts (lit "two tables")
           (qlit "{'entities': ['A', 'B'], 'relationships': [{'from': 'A', 'to': 'B'}]}")
           (Demo.start Demo.logged_out) Demo.unlabelled).
  - vm_compute; discriminate.
  - reflexivity.
  - vm_compute; reflexivity.
  - reflexivity.
  - discriminate.
  - reflexivity.
  - reflexivity.
  - reflexivity.
Defined.

Lemma entities_text_is_read_by_character_witness :
  create_er_diagram (PDict Office.loose)
  = Ok (diagram_of_entries [lit "A"; lit "B"] [])
  /\ generate_sql_schema Demo.py_str Demo.lower (PDict Office.loose)
     = Ok (Str.join (nl ++ nl)
             [create_table_stmt (lit "A"); create_table_stmt (lit "B")]).
Proof.
  apply (entities_text_is_read_by_character Demo.py_str demo_py_str_str
           Demo.lower Office.loose (lit "AB")).
  - reflexivity.
  - reflexivity.
Defined.
